(** * OnStep SmartHandController: the catalog manager of [Catalog.cpp]

    A shallow embedding of [CatMgr] (catalog selection, cursor navigation,
    record decoding, filtering, name lookup and the equatorial/horizon
    transforms) together with the properties its specification states.

    Conventions of the embedding.
    - [int], [long] and [byte] values are [Z]; arithmetic on [long] is
      followed by [wrap_long] (32-bit two's complement), a narrowing to
      [byte] by [to_byte].
    - [float] and [double] values are idealised as real numbers [R]:
      no rounding, no infinities, no NaN.  Comparisons are the boolean
      tests [flt], [fle], ... obtained from the decidability of the order.
      Over [R] the normalisation loops of [EquToHor] and [HorToEqu] exit
      for every argument, which they do not in machine arithmetic; so
      where the question is whether navigation returns, [alt()] is a
      parameter that may not return ([isFiltered_by], [incIndex_by],
      [decIndex_by]), and the loops are also given on IEEE binary64
      values ([EquToHor_HA_double]).
    - A read through an invalid index or a null pointer is undefined
      behaviour in C++; here every read is checked and such a read makes
      the enclosing function return [None].
    - The catalog registry ([catalog[]]) and the eight typed views are file
      scope globals of [Catalog.cpp]; together with the members of [CatMgr]
      and the tick counter read by [millis()] they form the [state]. *)

From Stdlib Require Import ZArith List String Ascii DecimalString Bool Lia Reals Lra.
From Stdlib Require Import Floats.
Import ListNotations.

Local Open Scope Z_scope.

(** ** Machine integers *)

Definition wrap_long (z : Z) : Z := (z + 2147483648) mod 4294967296 - 2147483648.

Definition wrap_ulong (z : Z) : Z := z mod 4294967296.

Definition to_byte (z : Z) : Z := z mod 256.

Definition LONG_MAX : Z := 2147483647.

(** ** Idealised floating point *)

Definition flt (x y : R) : bool := if Rlt_dec x y then true else false.
Definition fle (x y : R) : bool := if Rle_dec x y then true else false.
Definition fgt (x y : R) : bool := flt y x.
Definition fge (x y : R) : bool := fle y x.
Definition feq (x y : R) : bool := if Req_dec_T x y then true else false.
Definition fne (x y : R) : bool := negb (feq x y).

(** ** The error monad of checked reads *)

Definition bind {A B : Type} (m : option A) (k : A -> option B) : option B :=
  match m with
  | Some a => k a
  | None => None
  end.

Declare Scope cpp_scope.
Delimit Scope cpp_scope with cpp.
Notation "x <- m ;; k" := (bind m (fun x => k))
  (at level 100, m at next level, right associativity) : cpp_scope.
Notation "' pat <- m ;; k" := (bind m (fun x => match x with pat => k end))
  (at level 100, pat pattern, m at next level, right associativity) : cpp_scope.
Local Open Scope cpp_scope.

(** [a[i]] for a C array [a] held as a list. *)
Definition at_index {A : Type} (a : list A) (i : Z) : option A :=
  if i <? 0 then None else nth_error a (Z.to_nat i).

(** [a[i] = v]; the caller has checked [i]. *)
Fixpoint store_nat {A : Type} (a : list A) (i : nat) (v : A) : list A :=
  match a, i with
  | [], _ => []
  | _ :: t, O => v :: t
  | h :: t, S j => h :: store_nat t j v
  end.

(** ** Catalog types and record layouts *)

(** Modelled from the spec: the enumeration [CAT_TYPES] of CatalogTypes.h,
    one tag per catalog type and [CAT_NONE] for the registry's sentinel. *)
Inductive CAT_TYPES : Type :=
| CAT_NONE
| CAT_GEN_STAR
| CAT_GEN_STAR_VCOMP
| CAT_DBL_STAR
| CAT_DBL_STAR_COMP
| CAT_VAR_STAR
| CAT_DSO
| CAT_DSO_COMP
| CAT_DSO_VCOMP.

Definition CAT_TYPES_eqb (a b : CAT_TYPES) : bool :=
  match a, b with
  | CAT_NONE, CAT_NONE
  | CAT_GEN_STAR, CAT_GEN_STAR
  | CAT_GEN_STAR_VCOMP, CAT_GEN_STAR_VCOMP
  | CAT_DBL_STAR, CAT_DBL_STAR
  | CAT_DBL_STAR_COMP, CAT_DBL_STAR_COMP
  | CAT_VAR_STAR, CAT_VAR_STAR
  | CAT_DSO, CAT_DSO
  | CAT_DSO_COMP, CAT_DSO_COMP
  | CAT_DSO_VCOMP, CAT_DSO_VCOMP => true
  | _, _ => false
  end.

(** Modelled from the spec: the record structs of CatalogTypes.h, with the
    fields [Catalog.cpp] reads from each.  Full-precision records hold RA
    and Dec as floating values and magnitudes as hundredths; compact
    records hold scaled integers and a magnitude byte. *)
Module gen_star_t.
Record t : Type := mk
  { Has_name : bool; Cons : Z; BayerFlam : Z; Has_subId : bool;
    Obj_id : Z; Mag : Z; RA : R; DE : R }.
End gen_star_t.

Module gen_star_vcomp_t.
Record t : Type := mk
  { Has_name : bool; Cons : Z; BayerFlam : Z; Has_subId : bool;
    Mag : Z; RA : Z; DE : Z }.
End gen_star_vcomp_t.

Module dbl_star_t.
Record t : Type := mk
  { Has_name : bool; Cons : Z; BayerFlam : Z; Has_subId : bool;
    Obj_id : Z; Sep : Z; PA : Z; Mag2 : Z; Mag : Z; RA : R; DE : R }.
End dbl_star_t.

Module dbl_star_comp_t.
Record t : Type := mk
  { Has_name : bool; Cons : Z; BayerFlam : Z; Has_subId : bool;
    Obj_id : Z; Sep : Z; PA : Z; Mag2 : Z; Mag : Z; RA : Z; DE : Z }.
End dbl_star_comp_t.

Module var_star_t.
Record t : Type := mk
  { Has_name : bool; Cons : Z; BayerFlam : Z; Has_subId : bool;
    Obj_id : Z; Period : Z; Mag2 : Z; Mag : Z; RA : R; DE : R }.
End var_star_t.

Module dso_t.
Record t : Type := mk
  { Has_name : bool; Cons : Z; Obj_type : Z; Has_subId : bool;
    Obj_id : Z; Mag : Z; RA : R; DE : R }.
End dso_t.

Module dso_comp_t.
Record t : Type := mk
  { Has_name : bool; Cons : Z; Obj_type : Z; Has_subId : bool;
    Obj_id : Z; Mag : Z; RA : Z; DE : Z }.
End dso_comp_t.

Module dso_vcomp_t.
Record t : Type := mk
  { Has_name : bool; Cons : Z; Obj_type : Z; Has_subId : bool;
    Mag : Z; RA : Z; DE : Z }.
End dso_vcomp_t.

(** What a record-array pointer ([const void*] in the registry, a typed
    pointer in a view) points at.  The data are read-only, so a pointer is
    identified with the array it addresses; [NULL] is the null pointer. *)
Inductive objects : Type :=
| NULL
| GenStars (a : list gen_star_t.t)
| GenStarsVComp (a : list gen_star_vcomp_t.t)
| DblStars (a : list dbl_star_t.t)
| DblStarsComp (a : list dbl_star_comp_t.t)
| VarStars (a : list var_star_t.t)
| Dsos (a : list dso_t.t)
| DsosComp (a : list dso_comp_t.t)
| DsosVComp (a : list dso_vcomp_t.t).

(** [p[i]] through a typed pointer: defined only when [p] addresses an
    array of that record type and [i] is inside it. *)
Definition gen_star_at (p : objects) (i : Z) : option gen_star_t.t :=
  match p with GenStars a => at_index a i | _ => None end.
Definition gen_star_vcomp_at (p : objects) (i : Z) : option gen_star_vcomp_t.t :=
  match p with GenStarsVComp a => at_index a i | _ => None end.
Definition dbl_star_at (p : objects) (i : Z) : option dbl_star_t.t :=
  match p with DblStars a => at_index a i | _ => None end.
Definition dbl_star_comp_at (p : objects) (i : Z) : option dbl_star_comp_t.t :=
  match p with DblStarsComp a => at_index a i | _ => None end.
Definition var_star_at (p : objects) (i : Z) : option var_star_t.t :=
  match p with VarStars a => at_index a i | _ => None end.
Definition dso_at (p : objects) (i : Z) : option dso_t.t :=
  match p with Dsos a => at_index a i | _ => None end.
Definition dso_comp_at (p : objects) (i : Z) : option dso_comp_t.t :=
  match p with DsosComp a => at_index a i | _ => None end.
Definition dso_vcomp_at (p : objects) (i : Z) : option dso_vcomp_t.t :=
  match p with DsosVComp a => at_index a i | _ => None end.

(** ** The registry and the manager's state *)

(** [catalog_t]: one registry entry.  [ObjectNames] and [ObjectSubIds] are
    C strings, [None] being the null pointer of the sentinel entry. *)
Record catalog_t : Type := mk_catalog
  { Title : string; Prefix : string; NumObjects : Z; Objects : objects;
    ObjectNames : option string; ObjectSubIds : option string;
    CatalogType : CAT_TYPES; Epoch : Z; Index : Z }.

Definition with_Index (c : catalog_t) (i : Z) : catalog_t :=
  mk_catalog (Title c) (Prefix c) (NumObjects c) (Objects c) (ObjectNames c)
             (ObjectSubIds c) (CatalogType c) (Epoch c) i.

(** The eight typed views declared before [CatMgr::select]. *)
Record views : Type := mk_views
  { _genStarCatalog : objects; _genStarVCompCatalog : objects;
    _dblStarCatalog : objects; _dblStarCompCatalog : objects;
    _varStarCatalog : objects; _dsoCatalog : objects;
    _dsoCompCatalog : objects; _dsoVCompCatalog : objects }.

(** Observer members of [CatMgr]. *)
Record observer : Type := mk_observer
  { _lat : R; _cosLat : R; _sinLat : R; _lstT0 : R; _lstMillisT0 : Z;
    _lastTeleRA : R; _lastTeleDec : R }.

(** Filter members of [CatMgr]. *)
Record filter : Type := mk_filter
  { _fm : Z; _fm_con : Z; _fm_mag_limit : R; _fm_nearby_dist : R;
    _fm_obj_type : Z; _fm_dbl_min : R; _fm_dbl_max : R; _fm_var_max : R }.

Record state : Type := mk_state
  { catalog : list catalog_t; _selected : Z; view : views;
    obs : observer; filt : filter; millis : Z }.

Definition with_catalog (st : state) (c : list catalog_t) : state :=
  mk_state c (_selected st) (view st) (obs st) (filt st) (millis st).
Definition with_selected (st : state) (n : Z) : state :=
  mk_state (catalog st) n (view st) (obs st) (filt st) (millis st).
Definition with_view (st : state) (v : views) : state :=
  mk_state (catalog st) (_selected st) v (obs st) (filt st) (millis st).
Definition with_obs (st : state) (o : observer) : state :=
  mk_state (catalog st) (_selected st) (view st) o (filt st) (millis st).
Definition with_filt (st : state) (f : filter) : state :=
  mk_state (catalog st) (_selected st) (view st) (obs st) f (millis st).

Definition set_genStarCatalog (v : views) (p : objects) : views :=
  mk_views p (_genStarVCompCatalog v) (_dblStarCatalog v) (_dblStarCompCatalog v)
           (_varStarCatalog v) (_dsoCatalog v) (_dsoCompCatalog v) (_dsoVCompCatalog v).
Definition set_genStarVCompCatalog (v : views) (p : objects) : views :=
  mk_views (_genStarCatalog v) p (_dblStarCatalog v) (_dblStarCompCatalog v)
           (_varStarCatalog v) (_dsoCatalog v) (_dsoCompCatalog v) (_dsoVCompCatalog v).
Definition set_dblStarCatalog (v : views) (p : objects) : views :=
  mk_views (_genStarCatalog v) (_genStarVCompCatalog v) p (_dblStarCompCatalog v)
           (_varStarCatalog v) (_dsoCatalog v) (_dsoCompCatalog v) (_dsoVCompCatalog v).
Definition set_dblStarCompCatalog (v : views) (p : objects) : views :=
  mk_views (_genStarCatalog v) (_genStarVCompCatalog v) (_dblStarCatalog v) p
           (_varStarCatalog v) (_dsoCatalog v) (_dsoCompCatalog v) (_dsoVCompCatalog v).
Definition set_varStarCatalog (v : views) (p : objects) : views :=
  mk_views (_genStarCatalog v) (_genStarVCompCatalog v) (_dblStarCatalog v)
           (_dblStarCompCatalog v) p (_dsoCatalog v) (_dsoCompCatalog v) (_dsoVCompCatalog v).
Definition set_dsoCatalog (v : views) (p : objects) : views :=
  mk_views (_genStarCatalog v) (_genStarVCompCatalog v) (_dblStarCatalog v)
           (_dblStarCompCatalog v) (_varStarCatalog v) p (_dsoCompCatalog v) (_dsoVCompCatalog v).
Definition set_dsoCompCatalog (v : views) (p : objects) : views :=
  mk_views (_genStarCatalog v) (_genStarVCompCatalog v) (_dblStarCatalog v)
           (_dblStarCompCatalog v) (_varStarCatalog v) (_dsoCatalog v) p (_dsoVCompCatalog v).
Definition set_dsoVCompCatalog (v : views) (p : objects) : views :=
  mk_views (_genStarCatalog v) (_genStarVCompCatalog v) (_dblStarCatalog v)
           (_dblStarCompCatalog v) (_varStarCatalog v) (_dsoCatalog v) (_dsoCompCatalog v) p.

(** Modelled from the spec: the filter kinds of Catalog.h, "a bitmask of
    active filter kinds"; [FM_NONE] is the empty mask and every other kind
    is one bit of its own. *)
Definition FM_NONE : Z := 0.
Definition FM_ABOVE_HORIZON : Z := 1.
Definition FM_ALIGN_ALL_SKY : Z := 2.
Definition FM_CONSTELLATION : Z := 4.
Definition FM_OBJ_TYPE : Z := 8.
Definition FM_BY_MAG : Z := 16.
Definition FM_NEARBY : Z := 32.
Definition FM_DBL_MIN_SEP : Z := 64.
Definition FM_DBL_MAX_SEP : Z := 128.
Definition FM_VAR_MAX_PER : Z := 256.

(** The C test [a & b] used as a condition. *)
Definition has_bit (a b : Z) : bool := negb (Z.land a b =? 0).

(** ** libm on the idealised numbers *)

Definition atan2 (y x : R) : R :=
  if flt 0 x then atan (y / x)
  else if flt x 0 then (if fle 0 y then atan (y / x) + PI else atan (y / x) - PI)%R
  else if flt 0 y then (PI / 2)%R
  else if flt y 0 then (- PI / 2)%R
  else 0%R.

(** [while (c(x)) x = f(x);] run for at most [fuel] iterations. *)
Fixpoint while_R (fuel : nat) (c : R -> bool) (f : R -> R) (x : R) : R :=
  match fuel with
  | O => x
  | S k => if c x then while_R k c f (f x) else x
  end.

(** [while (x<0.0) x=x+360.0;] - the iteration count is bounded by the
    integer above [-x/360] (see [add360_while_neg_exit]).  This is the
    loop over real numbers; on doubles it need not exit, see
    [EquToHor_HA_double]. *)
Definition add360_while_neg (x : R) : R :=
  while_R (Z.to_nat (up (- x / 360))) (fun h => flt h 0) (fun h => h + 360)%R x.

(** [while (x>=360.0) x=x-360.0;] - bounded by the integer above [x/360]
    (see [sub360_while_ge_exit]).  Over real numbers, as above. *)
Definition sub360_while_ge (x : R) : R :=
  while_R (Z.to_nat (up (x / 360))) (fun h => fge h 360) (fun h => h - 360)%R x.

Section CatMgr.

(** Constants of headers that are not part of the sources at hand: the
    bound of the registry scan and the degrees-per-radian constant. *)
Variable MaxCatalogs : Z.
Variable Rad : R.

(** *** Initialization *)

Definition setLat (lat : R) (st : state) : state :=
  let o := obs st in
  if flt lat 9999
  then with_obs st (mk_observer lat (cos (lat / Rad)) (sin (lat / Rad)) (_lstT0 o)
                                (_lstMillisT0 o) (_lastTeleRA o) (_lastTeleDec o))
  else with_obs st (mk_observer lat (_cosLat o) (_sinLat o) (_lstT0 o)
                                (_lstMillisT0 o) (_lastTeleRA o) (_lastTeleDec o)).

Definition setLstT0 (lstT0 : R) (st : state) : state :=
  let o := obs st in
  with_obs st (mk_observer (_lat o) (_cosLat o) (_sinLat o) lstT0 (millis st)
                           (_lastTeleRA o) (_lastTeleDec o)).

Definition setLastTeleEqu (RA Dec : R) (st : state) : state :=
  let o := obs st in
  with_obs st (mk_observer (_lat o) (_cosLat o) (_sinLat o) (_lstT0 o)
                           (_lstMillisT0 o) RA Dec).

Definition isInitialized (st : state) : bool :=
  flt (_lat (obs st)) 9999 && fne (_lstT0 (obs st)) 0.

Definition lstHours (st : state) : R :=
  let msSinceT0 := IZR (wrap_ulong (millis st - _lstMillisT0 (obs st))) in
  let siderealSecondsSinceT0 := (msSinceT0 / 1000 * 1.00277778)%R in
  (_lstT0 (obs st) + siderealSecondsSinceT0 / 3600)%R.

Definition lstDegs (st : state) : R := (lstHours st * 15)%R.

(** *** Selection *)

(** [for (int i=0; i<MaxCatalogs; i++)] of [numCatalogs]: [k] iterations
    remain, [i] is the loop variable. *)
Fixpoint numCatalogs_from (k : nat) (i : Z) (cat : list catalog_t) : option Z :=
  match k with
  | O => Some 32
  | S k' =>
      c <- at_index cat i ;;
      if NumObjects c =? 0 then Some i else numCatalogs_from k' (i + 1) cat
  end.

Definition numCatalogs (st : state) : option Z :=
  numCatalogs_from (Z.to_nat MaxCatalogs) 0 (catalog st).

(** [catalog[_selected]] *)
Definition cur (st : state) : option catalog_t :=
  at_index (catalog st) (_selected st).

Definition select (number : Z) (st : state) : option state :=
  let v := view st in
  let v := set_genStarCatalog v NULL in
  let v := set_genStarVCompCatalog v NULL in
  let v := set_dblStarCatalog v NULL in
  let v := set_dsoCatalog v NULL in
  let v := set_dsoCompCatalog v NULL in
  let v := set_dsoVCompCatalog v NULL in
  let st := with_view st v in
  invalid <- (if number <? 0 then Some true
              else n <- numCatalogs st ;; Some (n <=? number)) ;;
  let number := if invalid then -1 else number in
  let st := with_selected st number in
  if 0 <=? _selected st then
    c <- cur st ;;
    match CatalogType c with
    | CAT_GEN_STAR => Some (with_view st (set_genStarCatalog v (Objects c)))
    | CAT_GEN_STAR_VCOMP => Some (with_view st (set_genStarVCompCatalog v (Objects c)))
    | CAT_DBL_STAR => Some (with_view st (set_dblStarCatalog v (Objects c)))
    | CAT_DBL_STAR_COMP => Some (with_view st (set_dblStarCompCatalog v (Objects c)))
    | CAT_VAR_STAR => Some (with_view st (set_varStarCatalog v (Objects c)))
    | CAT_DSO => Some (with_view st (set_dsoCatalog v (Objects c)))
    | CAT_DSO_COMP => Some (with_view st (set_dsoCompCatalog v (Objects c)))
    | CAT_DSO_VCOMP => Some (with_view st (set_dsoVCompCatalog v (Objects c)))
    | CAT_NONE => Some (with_selected st (-1))
    end
  else Some st.

Definition catalogType (st : state) : option CAT_TYPES :=
  c <- cur st ;; Some (CatalogType c).

Definition isStarCatalog (st : state) : option bool :=
  t <- catalogType st ;;
  Some (CAT_TYPES_eqb t CAT_GEN_STAR || CAT_TYPES_eqb t CAT_GEN_STAR_VCOMP ||
        CAT_TYPES_eqb t CAT_DBL_STAR || CAT_TYPES_eqb t CAT_DBL_STAR_COMP ||
        CAT_TYPES_eqb t CAT_VAR_STAR).

Definition isDblStarCatalog (st : state) : option bool :=
  t <- catalogType st ;;
  if CAT_TYPES_eqb t CAT_DBL_STAR then Some true
  else if CAT_TYPES_eqb t CAT_DBL_STAR_COMP then Some true
  else Some false.

Definition isVarStarCatalog (st : state) : option bool :=
  t <- catalogType st ;; Some (CAT_TYPES_eqb t CAT_VAR_STAR).

Definition isDsoCatalog (st : state) : option bool :=
  t <- catalogType st ;;
  Some (CAT_TYPES_eqb t CAT_DSO || CAT_TYPES_eqb t CAT_DSO_COMP ||
        CAT_TYPES_eqb t CAT_DSO_VCOMP).

Definition catalogTitle (st : state) : option string :=
  if _selected st <? 0 then Some EmptyString
  else c <- cur st ;; Some (Title c).

Definition catalogPrefix (st : state) : option string :=
  if _selected st <? 0 then Some EmptyString
  else c <- cur st ;; Some (Prefix c).

(** *** Filter configuration *)

Definition filtersClear (st : state) : state :=
  let f := filt st in
  with_filt st (mk_filter FM_NONE (_fm_con f) (_fm_mag_limit f) (_fm_nearby_dist f)
                          (_fm_obj_type f) (_fm_dbl_min f) (_fm_dbl_max f) (_fm_var_max f)).

Definition filterAdd (fm : Z) (st : state) : state :=
  let f := filt st in
  with_filt st (mk_filter (Z.lor (_fm f) fm) (_fm_con f) (_fm_mag_limit f)
                          (_fm_nearby_dist f) (_fm_obj_type f) (_fm_dbl_min f)
                          (_fm_dbl_max f) (_fm_var_max f)).

Definition filterAdd_param (fm param : Z) (st : state) : state :=
  let f := filt st in
  let con := if has_bit fm FM_CONSTELLATION then param else _fm_con f in
  let mag :=
    if has_bit fm FM_BY_MAG then
      (if param =? 0 then 10 else if param =? 1 then 12 else
      if param =? 2 then 13 else if param =? 3 then 14 else
      if param =? 4 then 15 else if param =? 5 then 16 else
      if param =? 6 then 17 else 100)%R
    else _fm_mag_limit f in
  let nearby :=
    if has_bit fm FM_NEARBY then
      (if param =? 0 then 1 else if param =? 1 then 5 else
      if param =? 2 then 10 else if param =? 3 then 15 else 9999)%R
    else _fm_nearby_dist f in
  let obj := if has_bit fm FM_OBJ_TYPE then param else _fm_obj_type f in
  let dmin :=
    if has_bit fm FM_DBL_MIN_SEP then
      (if param =? 0 then 0.2 else if param =? 1 then 0.5 else
      if param =? 2 then 1 else if param =? 3 then 1.5 else
      if param =? 4 then 2 else if param =? 5 then 3 else
      if param =? 6 then 5 else if param =? 7 then 10 else
      if param =? 8 then 20 else if param =? 9 then 50 else 0)%R
    else _fm_dbl_min f in
  let dmax :=
    if has_bit fm FM_DBL_MAX_SEP then
      (if param =? 0 then 0.5 else if param =? 1 then 1 else
      if param =? 2 then 1.5 else if param =? 3 then 2 else
      if param =? 4 then 3 else if param =? 5 then 5 else
      if param =? 6 then 10 else if param =? 7 then 20 else
      if param =? 8 then 50 else if param =? 9 then 100 else 0)%R
    else _fm_dbl_max f in
  let vmax :=
    if has_bit fm FM_VAR_MAX_PER then
      (if param =? 0 then 0.5 else if param =? 1 then 1 else
      if param =? 2 then 2 else if param =? 3 then 5 else
      if param =? 4 then 10 else if param =? 5 then 20 else
      if param =? 6 then 50 else if param =? 7 then 100 else 0)%R
    else _fm_var_max f in
  with_filt st (mk_filter (Z.lor (_fm f) fm) con mag nearby obj dmin dmax vmax).

(** *** Cursor *)

Definition getIndex (st : state) : option Z :=
  c <- cur st ;; Some (Index c).

Definition getMaxIndex (st : state) : option Z :=
  c <- cur st ;; Some (wrap_long (NumObjects c - 1)).

(** [catalog[_selected].Index = i] *)
Definition set_Index (i : Z) (st : state) : option state :=
  c <- cur st ;;
  Some (with_catalog st (store_nat (catalog st) (Z.to_nat (_selected st)) (with_Index c i))).

(** The record under the cursor, through each typed view. *)
Definition genStar (st : state) : option gen_star_t.t :=
  c <- cur st ;; gen_star_at (_genStarCatalog (view st)) (Index c).
Definition genStarVComp (st : state) : option gen_star_vcomp_t.t :=
  c <- cur st ;; gen_star_vcomp_at (_genStarVCompCatalog (view st)) (Index c).
Definition dblStar (st : state) : option dbl_star_t.t :=
  c <- cur st ;; dbl_star_at (_dblStarCatalog (view st)) (Index c).
Definition dblStarComp (st : state) : option dbl_star_comp_t.t :=
  c <- cur st ;; dbl_star_comp_at (_dblStarCompCatalog (view st)) (Index c).
Definition varStar (st : state) : option var_star_t.t :=
  c <- cur st ;; var_star_at (_varStarCatalog (view st)) (Index c).
Definition dso (st : state) : option dso_t.t :=
  c <- cur st ;; dso_at (_dsoCatalog (view st)) (Index c).
Definition dsoComp (st : state) : option dso_comp_t.t :=
  c <- cur st ;; dso_comp_at (_dsoCompCatalog (view st)) (Index c).
Definition dsoVComp (st : state) : option dso_vcomp_t.t :=
  c <- cur st ;; dso_vcomp_at (_dsoVCompCatalog (view st)) (Index c).

(** *** Record decoders *)

Definition rah (st : state) : option R :=
  if _selected st <? 0 then Some 0%R else
  t <- catalogType st ;;
  match t with
  | CAT_GEN_STAR => r <- genStar st ;; Some (gen_star_t.RA r)
  | CAT_GEN_STAR_VCOMP =>
      r <- genStarVComp st ;; Some (IZR (gen_star_vcomp_t.RA r) / 2730.6666666666666)%R
  | CAT_DBL_STAR => r <- dblStar st ;; Some (dbl_star_t.RA r)
  | CAT_DBL_STAR_COMP =>
      r <- dblStarComp st ;; Some (IZR (dbl_star_comp_t.RA r) / 2730.6666666666666)%R
  | CAT_VAR_STAR => r <- varStar st ;; Some (var_star_t.RA r)
  | CAT_DSO => r <- dso st ;; Some (dso_t.RA r)
  | CAT_DSO_COMP =>
      r <- dsoComp st ;; Some (IZR (dso_comp_t.RA r) / 2730.6666666666666)%R
  | CAT_DSO_VCOMP =>
      r <- dsoVComp st ;; Some (IZR (dso_vcomp_t.RA r) / 2730.6666666666666)%R
  | CAT_NONE => Some 0%R
  end.

Definition ra (st : state) : option R :=
  h <- rah st ;; Some (h * 15)%R.

Definition dec (st : state) : option R :=
  t <- catalogType st ;;
  match t with
  | CAT_GEN_STAR => r <- genStar st ;; Some (gen_star_t.DE r)
  | CAT_GEN_STAR_VCOMP =>
      r <- genStarVComp st ;; Some (IZR (gen_star_vcomp_t.DE r) / 364.07777777777777)%R
  | CAT_DBL_STAR => r <- dblStar st ;; Some (dbl_star_t.DE r)
  | CAT_DBL_STAR_COMP =>
      r <- dblStarComp st ;; Some (IZR (dbl_star_comp_t.DE r) / 364.07777777777777)%R
  | CAT_VAR_STAR => r <- varStar st ;; Some (var_star_t.DE r)
  | CAT_DSO => r <- dso st ;; Some (dso_t.DE r)
  | CAT_DSO_COMP =>
      r <- dsoComp st ;; Some (IZR (dso_comp_t.DE r) / 364.07777777777777)%R
  | CAT_DSO_VCOMP =>
      r <- dsoVComp st ;; Some (IZR (dso_vcomp_t.DE r) / 364.07777777777777)%R
  | CAT_NONE => Some 0%R
  end.

Definition epoch (st : state) : option Z :=
  if _selected st <? 0 then Some (-1)
  else c <- cur st ;; Some (Epoch c).

Definition period (st : state) : option R :=
  if _selected st <? 0 then Some (-1)%R else
  t <- catalogType st ;;
  match t with
  | CAT_VAR_STAR =>
      r <- varStar st ;;
      let p := IZR (var_star_t.Period r) in
      if flt 0 p && fle p 999 then Some (p / 100)%R
      else if flt 999 p && fle p 32766 then Some ((p - 900) / 10)%R
      else Some (-1)%R
  | _ => Some (-1)%R
  end.

Definition positionAngle (st : state) : option Z :=
  if _selected st <? 0 then Some (-1) else
  t <- catalogType st ;;
  match t with
  | CAT_DBL_STAR => r <- dblStar st ;; Some (dbl_star_t.PA r)
  | CAT_DBL_STAR_COMP => r <- dblStarComp st ;; Some (dbl_star_comp_t.PA r)
  | _ => Some (-1)
  end.

Definition separation (st : state) : option R :=
  if _selected st <? 0 then Some 999.9%R else
  t <- catalogType st ;;
  match t with
  | CAT_DBL_STAR => r <- dblStar st ;; Some (IZR (dbl_star_t.Sep r) / 10)%R
  | CAT_DBL_STAR_COMP => r <- dblStarComp st ;; Some (IZR (dbl_star_comp_t.Sep r) / 10)%R
  | _ => Some 999.9%R
  end.

(** [{ int m=...Mag; if (m==255) return 99.9; else return (m/10.0)-2.5; }] *)
Definition compact_mag (m : Z) : R :=
  if m =? 255 then 99.9%R else (IZR m / 10 - 2.5)%R.

Definition magnitude (st : state) : option R :=
  if _selected st <? 0 then Some 99.9%R else
  t <- catalogType st ;;
  match t with
  | CAT_GEN_STAR => r <- genStar st ;; Some (IZR (gen_star_t.Mag r) / 100)%R
  | CAT_GEN_STAR_VCOMP => r <- genStarVComp st ;; Some (compact_mag (gen_star_vcomp_t.Mag r))
  | CAT_DBL_STAR => r <- dblStar st ;; Some (IZR (dbl_star_t.Mag r) / 100)%R
  | CAT_DBL_STAR_COMP => r <- dblStarComp st ;; Some (compact_mag (dbl_star_comp_t.Mag r))
  | CAT_VAR_STAR => r <- varStar st ;; Some (IZR (var_star_t.Mag r) / 100)%R
  | CAT_DSO => r <- dso st ;; Some (IZR (dso_t.Mag r) / 100)%R
  | CAT_DSO_COMP => r <- dsoComp st ;; Some (compact_mag (dso_comp_t.Mag r))
  | CAT_DSO_VCOMP => r <- dsoVComp st ;; Some (compact_mag (dso_vcomp_t.Mag r))
  | CAT_NONE => Some 99.9%R
  end.

Definition magnitude2 (st : state) : option R :=
  if _selected st <? 0 then Some 99.9%R else
  t <- catalogType st ;;
  match t with
  | CAT_DBL_STAR => r <- dblStar st ;; Some (IZR (dbl_star_t.Mag2 r) / 100)%R
  | CAT_DBL_STAR_COMP => r <- dblStarComp st ;; Some (compact_mag (dbl_star_comp_t.Mag2 r))
  | CAT_VAR_STAR => r <- varStar st ;; Some (IZR (var_star_t.Mag2 r) / 100)%R
  | _ => Some 99.9%R
  end.

Definition constellation (st : state) : option Z :=
  if _selected st <? 0 then Some 89 else
  t <- catalogType st ;;
  match t with
  | CAT_GEN_STAR => r <- genStar st ;; Some (to_byte (gen_star_t.Cons r))
  | CAT_GEN_STAR_VCOMP => r <- genStarVComp st ;; Some (to_byte (gen_star_vcomp_t.Cons r))
  | CAT_DBL_STAR => r <- dblStar st ;; Some (to_byte (dbl_star_t.Cons r))
  | CAT_DBL_STAR_COMP => r <- dblStarComp st ;; Some (to_byte (dbl_star_comp_t.Cons r))
  | CAT_VAR_STAR => r <- varStar st ;; Some (to_byte (var_star_t.Cons r))
  | CAT_DSO => r <- dso st ;; Some (to_byte (dso_t.Cons r))
  | CAT_DSO_COMP => r <- dsoComp st ;; Some (to_byte (dso_comp_t.Cons r))
  | CAT_DSO_VCOMP => r <- dsoVComp st ;; Some (to_byte (dso_vcomp_t.Cons r))
  | CAT_NONE => Some 0
  end.

Definition objectType (st : state) : option Z :=
  if _selected st <? 0 then Some (to_byte (-1)) else
  t <- catalogType st ;;
  match t with
  | CAT_GEN_STAR => Some 2
  | CAT_GEN_STAR_VCOMP => Some 2
  | CAT_DBL_STAR => Some 2
  | CAT_DBL_STAR_COMP => Some 2
  | CAT_DSO => r <- dso st ;; Some (to_byte (dso_t.Obj_type r))
  | CAT_DSO_COMP => r <- dsoComp st ;; Some (to_byte (dso_comp_t.Obj_type r))
  | CAT_DSO_VCOMP => r <- dsoVComp st ;; Some (to_byte (dso_vcomp_t.Obj_type r))
  | _ => Some (to_byte (-1))
  end.

Definition primaryId (st : state) : option Z :=
  if _selected st <? 0 then Some (-1) else
  t <- catalogType st ;;
  match t with
  | CAT_GEN_STAR => r <- genStar st ;; Some (gen_star_t.Obj_id r)
  | CAT_GEN_STAR_VCOMP => c <- cur st ;; Some (wrap_long (Index c + 1))
  | CAT_DBL_STAR => r <- dblStar st ;; Some (dbl_star_t.Obj_id r)
  | CAT_DBL_STAR_COMP => r <- dblStarComp st ;; Some (dbl_star_comp_t.Obj_id r)
  | CAT_VAR_STAR => r <- varStar st ;; Some (var_star_t.Obj_id r)
  | CAT_DSO => r <- dso st ;; Some (dso_t.Obj_id r)
  | CAT_DSO_COMP => r <- dsoComp st ;; Some (dso_comp_t.Obj_id r)
  | CAT_DSO_VCOMP => c <- cur st ;; Some (wrap_long (Index c + 1))
  | CAT_NONE => Some (-1)
  end.

(** *** Coordinate transforms *)

Definition cot (n : R) : R := (1 / tan n)%R.

Definition TrueRefrac (Alt Pressure Temperature : R) : R :=
  let TPC := (Pressure / 1010 * (283 / (273 + Temperature)))%R in
  let r := (1.02 * cot ((Alt + 10.3 / (Alt + 5.11)) / Rad) * TPC)%R in
  if flt r 0 then 0%R else r.


(** Returns [(Alt, Azm)]. *)
Definition EquToHor (st : state) (RA Dec : R) : R * R :=
  let HA := (lstDegs st - RA)%R in
  let HA := add360_while_neg HA in
  let HA := sub360_while_ge HA in
  let HA := (HA / Rad)%R in
  let Dec := (Dec / Rad)%R in
  let SinAlt := (sin Dec * _sinLat (obs st) + cos Dec * _cosLat (obs st) * cos HA)%R in
  let Alt := asin SinAlt in
  let t1 := sin HA in
  let t2 := (cos HA * _sinLat (obs st) - tan Dec * _cosLat (obs st))%R in
  let Azm := (atan2 t1 t2 * Rad)%R in
  let Azm := (Azm + 180)%R in
  let Alt := (Alt * Rad)%R in
  (Alt, Azm).

(** Returns [(RA, Dec)]. *)
Definition HorToEqu (st : state) (Alt Azm : R) : R * R :=
  let Azm := add360_while_neg Azm in
  let Azm := sub360_while_ge Azm in
  let Alt := (Alt / Rad)%R in
  let Azm := (Azm / Rad)%R in
  let SinDec := (sin Alt * _sinLat (obs st) + cos Alt * _cosLat (obs st) * cos Azm)%R in
  let Dec := asin SinDec in
  let t1 := sin Azm in
  let t2 := (cos Azm * _sinLat (obs st) - tan Alt * _cosLat (obs st))%R in
  let HA := (atan2 t1 t2 * Rad)%R in
  let HA := (HA + 180)%R in
  let Dec := (Dec * Rad)%R in
  let HA := add360_while_neg HA in
  let HA := sub360_while_ge HA in
  ((lstDegs st - HA)%R, Dec).

Definition alt (st : state) : option R :=
  r <- ra st ;; d <- dec st ;; Some (fst (EquToHor st r d)).

Definition azm (st : state) : option R :=
  r <- ra st ;; d <- dec st ;; Some (snd (EquToHor st r d)).


Definition DistFromEqu (st : state) (RA Dec : R) : option R :=
  let RA := (RA / Rad)%R in
  let Dec := (Dec / Rad)%R in
  d <- dec st ;;
  r <- ra st ;;
  Some (acos (sin (d / Rad) * sin Dec + cos (d / Rad) * cos Dec * cos (r / Rad - RA)) * Rad)%R.

(** *** Filter evaluator *)

(** [if (enabled) { if (test) return true; } rest] *)
Definition reject_when (enabled : bool) (test : option bool) (rest : option bool)
  : option bool :=
  if enabled then (b <- test ;; if b then Some true else rest) else rest.

Definition isFiltered (st : state) : option bool :=
  let f := filt st in
  if negb (isInitialized st) then Some false else
  if _fm f =? FM_NONE then Some false else
  reject_when (has_bit (_fm f) FM_ABOVE_HORIZON)
    (a <- alt st ;; Some (flt a 0)) (
  reject_when (has_bit (_fm f) FM_ALIGN_ALL_SKY)
    (a <- alt st ;;
     if flt a 10 then Some true else
     d <- dec st ;; Some (fgt (Rabs d) 85)) (
  reject_when (has_bit (_fm f) FM_CONSTELLATION)
    (c <- constellation st ;; Some (negb (c =? _fm_con f))) (
  isDso <- isDsoCatalog st ;;
  reject_when (isDso && has_bit (_fm f) FM_OBJ_TYPE)
    (t <- objectType st ;; Some (negb (t =? _fm_obj_type f))) (
  reject_when (has_bit (_fm f) FM_BY_MAG)
    (m <- magnitude st ;; Some (fge m (_fm_mag_limit f))) (
  reject_when (has_bit (_fm f) FM_NEARBY)
    (d <- DistFromEqu st (_lastTeleRA (obs st)) (_lastTeleDec (obs st)) ;;
     Some (fge d (_fm_nearby_dist f))) (
  reject_when (has_bit (_fm f) FM_DBL_MAX_SEP)
    (s <- separation st ;;
     isDbl <- isDblStarCatalog st ;;
     Some (isDbl && fgt s (_fm_dbl_max f))) (
  reject_when (has_bit (_fm f) FM_DBL_MIN_SEP)
    (s <- separation st ;;
     isDbl <- isDblStarCatalog st ;;
     Some (isDbl && flt s (_fm_dbl_min f))) (
  reject_when (has_bit (_fm f) FM_VAR_MAX_PER)
    (p <- period st ;;
     isVar <- isVarStarCatalog st ;;
     Some (isVar && fgt p (_fm_var_max f))) (
  Some false))))))))).

(** *** Navigation *)

(** [catalog[_selected].Index++; if (Index>getMaxIndex()) Index=0;] *)
Definition inc_step (st : state) : option state :=
  c <- cur st ;;
  st <- set_Index (wrap_long (Index c + 1)) st ;;
  c <- cur st ;;
  m <- getMaxIndex st ;;
  if m <? Index c then set_Index 0 st else Some st.

(** [catalog[_selected].Index--; if (Index<0) Index=getMaxIndex();] *)
Definition dec_step (st : state) : option state :=
  c <- cur st ;;
  st <- set_Index (wrap_long (Index c - 1)) st ;;
  c <- cur st ;;
  if Index c <? 0 then (m <- getMaxIndex st ;; set_Index m st) else Some st.

(** [do { i--; step; } while (isFiltered() && (i>0));] where [k] bounds
    the iterations that may follow the current one. *)
Fixpoint nav_loop (step : state -> option state) (k : nat) (i : Z) (st : state)
  {struct k} : option state :=
  let i := wrap_long (i - 1) in
  st <- step st ;;
  f <- isFiltered st ;;
  if f && (0 <? i) then
    match k with
    | O => None
    | S k' => nav_loop step k' i st
    end
  else Some st.

Definition incIndex (st : state) : option (bool * state) :=
  m <- getMaxIndex st ;;
  let i := wrap_long (m + 1) in
  st <- nav_loop inc_step (Z.to_nat i) i st ;;
  f <- isFiltered st ;;
  if f then Some (false, st) else Some (true, st).

Definition decIndex (st : state) : option (bool * state) :=
  m <- getMaxIndex st ;;
  let i := wrap_long (m + 1) in
  st <- nav_loop dec_step (Z.to_nat i) i st ;;
  f <- isFiltered st ;;
  if f then Some (false, st) else Some (true, st).

Definition setIndex (index : Z) (st : state) : option (bool * state) :=
  if _selected st <? 0 then Some (false, st) else
  st <- set_Index index st ;;
  '(_, st) <- decIndex st ;;
  incIndex st.

(** *** Names *)

(** [view[i].Has_name] through the view of catalog type [t]. *)
Definition Has_name_at (t : CAT_TYPES) (st : state) (i : Z) : option bool :=
  match t with
  | CAT_GEN_STAR =>
      r <- gen_star_at (_genStarCatalog (view st)) i ;; Some (gen_star_t.Has_name r)
  | CAT_GEN_STAR_VCOMP =>
      r <- gen_star_vcomp_at (_genStarVCompCatalog (view st)) i ;;
      Some (gen_star_vcomp_t.Has_name r)
  | CAT_DBL_STAR =>
      r <- dbl_star_at (_dblStarCatalog (view st)) i ;; Some (dbl_star_t.Has_name r)
  | CAT_DBL_STAR_COMP =>
      r <- dbl_star_comp_at (_dblStarCompCatalog (view st)) i ;;
      Some (dbl_star_comp_t.Has_name r)
  | CAT_VAR_STAR =>
      r <- var_star_at (_varStarCatalog (view st)) i ;; Some (var_star_t.Has_name r)
  | CAT_DSO =>
      r <- dso_at (_dsoCatalog (view st)) i ;; Some (dso_t.Has_name r)
  | CAT_DSO_COMP =>
      r <- dso_comp_at (_dsoCompCatalog (view st)) i ;; Some (dso_comp_t.Has_name r)
  | CAT_DSO_VCOMP =>
      r <- dso_vcomp_at (_dsoVCompCatalog (view st)) i ;; Some (dso_vcomp_t.Has_name r)
  | CAT_NONE => None
  end.

(** [for (long i=...; i<=j; i++) { if (flag(i)) result++; }] with [k]
    iterations left. *)
Fixpoint count_flagged (flag : Z -> option bool) (k : nat) (i : Z) (result : Z)
  : option Z :=
  match k with
  | O => Some result
  | S k' =>
      b <- flag i ;;
      count_flagged flag k' (i + 1) (if b then wrap_long (result + 1) else result)
  end.

Definition objectName (st : state) : option Z :=
  if _selected st <? 0 then Some (-1) else
  t <- catalogType st ;;
  match t with
  | CAT_NONE => Some (-1)
  | _ =>
      c <- cur st ;;
      named <- Has_name_at t st (Index c) ;;
      if negb named then Some (-1) else
      let result := -1 in
      let j := Index c in
      m <- getMaxIndex st ;;
      let j := if m <? j then -1 else j in
      if j <? 0 then Some (-1) else
      count_flagged (Has_name_at t st) (Z.to_nat (j + 1)) 0 result
  end.

Definition is_semicolon (c : ascii) : bool := Ascii.eqb c ";"%char.

(** First loop of [getElementFromString]: [s] is [data] from position [i]
    on; the result is [Some j] when [found] is set. *)
Fixpoint find_start (s : string) (i n : Z) : option Z :=
  match s with
  | EmptyString => None
  | String c s' =>
      if n =? 0 then Some i
      else find_start s' (i + 1) (if is_semicolon c then wrap_long (n - 1) else n)
  end.

Fixpoint string_from (j : nat) (s : string) : string :=
  match j, s with
  | O, _ => s
  | S j', String _ s' => string_from j' s'
  | S _, EmptyString => EmptyString
  end.

(** Second loop of [getElementFromString]: [s] is [data] from position [i]
    on, [k] the write position in [result[40]].  The outer [option] is
    [None] for a write behind the buffer; the inner one is [None] when the
    loop ends without writing a terminator (not reached from
    [getElementFromString], where [j < len]). *)
Fixpoint copy_element (s : string) (k : Z) : option (option string) :=
  match s with
  | EmptyString => Some None
  | String c s' =>
      if 40 <=? k then None
      else if is_semicolon c then Some (Some EmptyString)
      else
        match s' with
        | EmptyString =>
            if 40 <=? k + 1 then None else Some (Some (String c EmptyString))
        | String _ _ =>
            r <- copy_element s' (k + 1) ;;
            match r with
            | Some e => Some (Some (String c e))
            | None => Some None
            end
        end
  end.

(** [data] is the C string's text, [None] for a null pointer; the value
    returned is the text then found in the static buffer [result]. *)
Definition getElementFromString (data : option string) (elementNum : Z)
  : option string :=
  data <- data ;;
  match find_start data 0 elementNum with
  | Some j =>
      r <- copy_element (string_from (Z.to_nat j) data) 0 ;;
      r
  | None => Some EmptyString
  end.

Definition objectNameStr (st : state) : option string :=
  if _selected st <? 0 then Some EmptyString else
  elementNum <- objectName st ;;
  if 0 <=? elementNum then
    c <- cur st ;; getElementFromString (ObjectNames c) elementNum
  else Some EmptyString.

End CatMgr.

(** ** Specification-side notions *)

Definition is_null (p : objects) : bool :=
  match p with NULL => true | _ => false end.

(** The eight typed views, in declaration order. *)
Definition view_list (v : views) : list objects :=
  [ _genStarCatalog v; _genStarVCompCatalog v; _dblStarCatalog v;
    _dblStarCompCatalog v; _varStarCatalog v; _dsoCatalog v;
    _dsoCompCatalog v; _dsoVCompCatalog v ].

(** Number of views that are bound (not null). *)
Definition bound_views (v : views) : nat :=
  List.length (List.filter (fun p => negb (is_null p)) (view_list v)).

(** The view that belongs to a catalog type. *)
Definition view_of (t : CAT_TYPES) (v : views) : objects :=
  match t with
  | CAT_NONE => NULL
  | CAT_GEN_STAR => _genStarCatalog v
  | CAT_GEN_STAR_VCOMP => _genStarVCompCatalog v
  | CAT_DBL_STAR => _dblStarCatalog v
  | CAT_DBL_STAR_COMP => _dblStarCompCatalog v
  | CAT_VAR_STAR => _varStarCatalog v
  | CAT_DSO => _dsoCatalog v
  | CAT_DSO_COMP => _dsoCompCatalog v
  | CAT_DSO_VCOMP => _dsoVCompCatalog v
  end.

(** The record type an array holds, and its length. *)
Definition objects_type (p : objects) : CAT_TYPES :=
  match p with
  | NULL => CAT_NONE
  | GenStars _ => CAT_GEN_STAR
  | GenStarsVComp _ => CAT_GEN_STAR_VCOMP
  | DblStars _ => CAT_DBL_STAR
  | DblStarsComp _ => CAT_DBL_STAR_COMP
  | VarStars _ => CAT_VAR_STAR
  | Dsos _ => CAT_DSO
  | DsosComp _ => CAT_DSO_COMP
  | DsosVComp _ => CAT_DSO_VCOMP
  end.

Definition objects_length (p : objects) : Z :=
  match p with
  | NULL => 0
  | GenStars a => Z.of_nat (List.length a)
  | GenStarsVComp a => Z.of_nat (List.length a)
  | DblStars a => Z.of_nat (List.length a)
  | DblStarsComp a => Z.of_nat (List.length a)
  | VarStars a => Z.of_nat (List.length a)
  | Dsos a => Z.of_nat (List.length a)
  | DsosComp a => Z.of_nat (List.length a)
  | DsosVComp a => Z.of_nat (List.length a)
  end.

(** The has-name flags of an array, record by record. *)
Definition name_flags (p : objects) : list bool :=
  match p with
  | NULL => []
  | GenStars a => List.map gen_star_t.Has_name a
  | GenStarsVComp a => List.map gen_star_vcomp_t.Has_name a
  | DblStars a => List.map dbl_star_t.Has_name a
  | DblStarsComp a => List.map dbl_star_comp_t.Has_name a
  | VarStars a => List.map var_star_t.Has_name a
  | Dsos a => List.map dso_t.Has_name a
  | DsosComp a => List.map dso_comp_t.Has_name a
  | DsosVComp a => List.map dso_vcomp_t.Has_name a
  end.

(** A catalog is selected: [_selected] names a registry entry [c] whose
    view is bound to its record array, the array has the entry's type and
    [NumObjects] records, and the cursor is inside it. *)
Record selected (st : state) (c : catalog_t) : Prop := mk_selected
  { sel_nonneg : 0 <= _selected st;
    sel_entry : nth_error (catalog st) (Z.to_nat (_selected st)) = Some c;
    sel_type : CatalogType c <> CAT_NONE;
    sel_objects : objects_type (Objects c) = CatalogType c;
    sel_view : view_of (CatalogType c) (view st) = Objects c;
    sel_length : objects_length (Objects c) = NumObjects c;
    sel_max : NumObjects c <= LONG_MAX;
    sel_cursor : 0 <= Index c < NumObjects c }.

(** The state with the cursor of the selected catalog moved to [i]. *)
Definition at_cursor (st : state) (c : catalog_t) (i : Z) : state :=
  with_catalog st (store_nat (catalog st) (Z.to_nat (_selected st)) (with_Index c i)).

(** ** A small registry for concrete runs *)

Definition demo_stars : objects :=
  GenStarsVComp
    [ gen_star_vcomp_t.mk false 5 0 false 200 1000 2000;
      gen_star_vcomp_t.mk false 5 1 false 255 1100 2100;
      gen_star_vcomp_t.mk true 52 0 false 25 50800 14100;
      gen_star_vcomp_t.mk false 7 2 false 180 1300 (-2300);
      gen_star_vcomp_t.mk false 7 3 false 190 1400 2400;
      gen_star_vcomp_t.mk true 83 0 false 45 6900 32500;
      gen_star_vcomp_t.mk false 9 4 false 60 1600 2600 ].

Definition demo_messier : objects :=
  DsosComp
    [ dso_comp_t.mk false 77 5 false 1 109 15200 8000;
      dso_comp_t.mk false 3 2 false 2 90 58800 (-300) ].

Definition demo_stf : objects :=
  DblStarsComp
    [ dbl_star_comp_t.mk false 18 24 false 2 131 275 98 96 350 20900;
      dbl_star_comp_t.mk false 18 24 false 3 19 82 102 90 420 21300 ].

Definition demo_registry : list catalog_t :=
  [ mk_catalog "Stars" "Star " 7 demo_stars (Some "Vega;Polaris"%string) (Some EmptyString)
               CAT_GEN_STAR_VCOMP 2000 0;
    mk_catalog "Messier" "M" 2 demo_messier (Some EmptyString) (Some EmptyString)
               CAT_DSO_COMP 2000 0;
    mk_catalog "Slct STF**" "STF" 2 demo_stf (Some EmptyString) (Some EmptyString)
               CAT_DBL_STAR_COMP 2000 0;
    mk_catalog EmptyString EmptyString 0 NULL None None CAT_NONE 0 0 ].

Definition no_views : views := mk_views NULL NULL NULL NULL NULL NULL NULL NULL.

(** Power-on state: nothing selected, no observer data, no filter. *)
Definition demo_state : state :=
  mk_state demo_registry (-1) no_views
           (mk_observer 9999 0 0 0 0 0 0)
           (mk_filter FM_NONE 0 100 9999 0 0 0 0)
           0.

Definition demo_Rad : R := 57.29577951%R.

(** The star catalog selected, cursor on record [i]. *)
Definition demo_stars_entry (i : Z) : catalog_t :=
  mk_catalog "Stars" "Star " 7 demo_stars (Some "Vega;Polaris"%string) (Some EmptyString)
             CAT_GEN_STAR_VCOMP 2000 i.

Definition demo_selected (i : Z) (o : observer) (f : filter) : state :=
  mk_state (demo_stars_entry i :: List.tl demo_registry) 0
           (set_genStarVCompCatalog no_views demo_stars) o f 0.

Definition demo_observer_unset : observer := mk_observer 9999 0 0 0 0 0 0.

(** Latitude 0 and sidereal time 1 h set at tick 0. *)
Definition demo_observer_set : observer := mk_observer 0 1 0 1 0 0 0.

Definition demo_filter_none : filter := mk_filter FM_NONE 0 100 9999 0 0 0 0.

(** Magnitude ceiling 10, as set by [filterAdd(FM_BY_MAG, 0)]. *)
Definition demo_filter_mag : filter := mk_filter FM_BY_MAG 0 10 9999 0 0 0 0.

(** ** Specification-side notions of navigation, filtering and names *)

(** Cursor successor and predecessor with wraparound in a catalog of [N]
    records. *)
Definition next_inc (N p : Z) : Z := if p =? N - 1 then 0 else p + 1.
Definition next_dec (N p : Z) : Z := if p =? 0 then N - 1 else p - 1.

Definition is_dso (t : CAT_TYPES) : bool :=
  match t with CAT_DSO | CAT_DSO_COMP | CAT_DSO_VCOMP => true | _ => false end.
Definition is_dbl (t : CAT_TYPES) : bool :=
  match t with CAT_DBL_STAR | CAT_DBL_STAR_COMP => true | _ => false end.
Definition is_var (t : CAT_TYPES) : bool :=
  match t with CAT_VAR_STAR => true | _ => false end.
Definition is_compact (t : CAT_TYPES) : bool :=
  match t with
  | CAT_GEN_STAR_VCOMP | CAT_DBL_STAR_COMP | CAT_DSO_COMP | CAT_DSO_VCOMP => true
  | _ => false
  end.
Definition is_full (t : CAT_TYPES) : bool :=
  match t with
  | CAT_GEN_STAR | CAT_DBL_STAR | CAT_VAR_STAR | CAT_DSO => true
  | _ => false
  end.

(** What the filter reads from the record under the cursor. *)
Record readings : Type := mk_readings
  { r_alt : R; r_dec : R; r_constellation : Z; r_objectType : Z;
    r_magnitude : R; r_dist : R; r_separation : R; r_period : R }.

Definition read_all (Rad : R) (st : state) : option readings :=
  a <- alt Rad st ;;
  d <- dec st ;;
  c <- constellation st ;;
  t <- objectType st ;;
  m <- magnitude st ;;
  n <- DistFromEqu Rad st (_lastTeleRA (obs st)) (_lastTeleDec (obs st)) ;;
  s <- separation st ;;
  p <- period st ;;
  Some (mk_readings a d c t m n s p).

(** The filter criteria in the order of the specification; each is a pair
    (enabled and applicable to catalog type [t], fails on the readings). *)
Definition criteria (f : filter) (t : CAT_TYPES) (v : readings) : list (bool * bool) :=
  [ (has_bit (_fm f) FM_ABOVE_HORIZON, flt (r_alt v) 0);
    (has_bit (_fm f) FM_ALIGN_ALL_SKY,
     negb (fle 10 (r_alt v) && fle (Rabs (r_dec v)) 85));
    (has_bit (_fm f) FM_CONSTELLATION, negb (r_constellation v =? _fm_con f));
    (has_bit (_fm f) FM_OBJ_TYPE && is_dso t, negb (r_objectType v =? _fm_obj_type f));
    (has_bit (_fm f) FM_BY_MAG, negb (flt (r_magnitude v) (_fm_mag_limit f)));
    (has_bit (_fm f) FM_NEARBY, negb (flt (r_dist v) (_fm_nearby_dist f)));
    (has_bit (_fm f) FM_DBL_MAX_SEP && is_dbl t,
     negb (fle (r_separation v) (_fm_dbl_max f)));
    (has_bit (_fm f) FM_DBL_MIN_SEP && is_dbl t,
     negb (fle (_fm_dbl_min f) (r_separation v)));
    (has_bit (_fm f) FM_VAR_MAX_PER && is_var t,
     negb (fle (r_period v) (_fm_var_max f))) ].

Definition isFiltered_spec (st : state) (t : CAT_TYPES) (v : readings) : bool :=
  if negb (isInitialized st) || (_fm (filt st) =? FM_NONE) then false
  else List.existsb (fun c => fst c && snd c) (criteria (filt st) t v).

(** The record under the cursor of a selected catalog, seen through the
    view of the catalog's type. *)
Inductive under_cursor (st : state) (c : catalog_t) : Prop :=
| uc_gen_star a r :
    CatalogType c = CAT_GEN_STAR -> Objects c = GenStars a ->
    nth_error a (Z.to_nat (Index c)) = Some r -> genStar st = Some r ->
    under_cursor st c
| uc_gen_star_vcomp a r :
    CatalogType c = CAT_GEN_STAR_VCOMP -> Objects c = GenStarsVComp a ->
    nth_error a (Z.to_nat (Index c)) = Some r -> genStarVComp st = Some r ->
    under_cursor st c
| uc_dbl_star a r :
    CatalogType c = CAT_DBL_STAR -> Objects c = DblStars a ->
    nth_error a (Z.to_nat (Index c)) = Some r -> dblStar st = Some r ->
    under_cursor st c
| uc_dbl_star_comp a r :
    CatalogType c = CAT_DBL_STAR_COMP -> Objects c = DblStarsComp a ->
    nth_error a (Z.to_nat (Index c)) = Some r -> dblStarComp st = Some r ->
    under_cursor st c
| uc_var_star a r :
    CatalogType c = CAT_VAR_STAR -> Objects c = VarStars a ->
    nth_error a (Z.to_nat (Index c)) = Some r -> varStar st = Some r ->
    under_cursor st c
| uc_dso a r :
    CatalogType c = CAT_DSO -> Objects c = Dsos a ->
    nth_error a (Z.to_nat (Index c)) = Some r -> dso st = Some r ->
    under_cursor st c
| uc_dso_comp a r :
    CatalogType c = CAT_DSO_COMP -> Objects c = DsosComp a ->
    nth_error a (Z.to_nat (Index c)) = Some r -> dsoComp st = Some r ->
    under_cursor st c
| uc_dso_vcomp a r :
    CatalogType c = CAT_DSO_VCOMP -> Objects c = DsosVComp a ->
    nth_error a (Z.to_nat (Index c)) = Some r -> dsoVComp st = Some r ->
    under_cursor st c.

(** The stored primary and secondary magnitude of record [i]. *)
Definition stored_Mag (p : objects) (i : nat) : option Z :=
  match p with
  | NULL => None
  | GenStars a => option_map gen_star_t.Mag (nth_error a i)
  | GenStarsVComp a => option_map gen_star_vcomp_t.Mag (nth_error a i)
  | DblStars a => option_map dbl_star_t.Mag (nth_error a i)
  | DblStarsComp a => option_map dbl_star_comp_t.Mag (nth_error a i)
  | VarStars a => option_map var_star_t.Mag (nth_error a i)
  | Dsos a => option_map dso_t.Mag (nth_error a i)
  | DsosComp a => option_map dso_comp_t.Mag (nth_error a i)
  | DsosVComp a => option_map dso_vcomp_t.Mag (nth_error a i)
  end.

Definition stored_Mag2 (p : objects) (i : nat) : option Z :=
  match p with
  | DblStars a => option_map dbl_star_t.Mag2 (nth_error a i)
  | DblStarsComp a => option_map dbl_star_comp_t.Mag2 (nth_error a i)
  | VarStars a => option_map var_star_t.Mag2 (nth_error a i)
  | _ => None
  end.

(** Number of set flags. *)
Definition count_set (l : list bool) : Z :=
  Z.of_nat (List.length (List.filter (fun b => b) l)).

(** The elements of a semicolon-delimited table. *)
Fixpoint split_semicolon (s : string) : list string :=
  match s with
  | EmptyString => [EmptyString]
  | String c s' =>
      if is_semicolon c then EmptyString :: split_semicolon s'
      else
        match split_semicolon s' with
        | e :: l => String c e :: l
        | [] => [String c EmptyString]
        end
  end.

Definition element (table : string) (n : Z) : string :=
  List.nth (Z.to_nat n) (split_semicolon table) EmptyString.

(** The suffix of [s] at which element [n] starts, if the scan of
    [getElementFromString] reaches it. *)
Fixpoint element_suffix (s : string) (n : Z) : option string :=
  match s with
  | EmptyString => None
  | String c s' =>
      if n =? 0 then Some s
      else element_suffix s' (if is_semicolon c then n - 1 else n)
  end.


(** What the registry has to provide for an entry to be selectable: a type
    tag other than [CAT_NONE], a record array of that type with
    [NumObjects] records, and the cursor inside it. *)
Definition registry_entry_ok (c : catalog_t) : Prop :=
  CatalogType c <> CAT_NONE /\
  objects_type (Objects c) = CatalogType c /\
  objects_length (Objects c) = NumObjects c /\
  NumObjects c <= LONG_MAX /\
  0 <= Index c < NumObjects c.

(** A one-record catalog whose only name has 40 characters. *)
Definition demo_long_name : string := "Great Orion Nebula and Trapezium Cluster".

Definition demo_named_entry : catalog_t :=
  mk_catalog "Named" "X" 1 (Dsos [dso_t.mk true 59 7 false 1 400 5.588 (-5.39)])
             (Some demo_long_name) (Some EmptyString) CAT_DSO 2000 0.

Definition demo_named_state : state :=
  mk_state [ demo_named_entry;
             mk_catalog EmptyString EmptyString 0 NULL None None CAT_NONE 0 0 ] 0
           (set_dsoCatalog no_views (Objects demo_named_entry))
           demo_observer_unset demo_filter_none 0.

(** ** The rest of the catalog manager *)

Definition wrap_short (z : Z) : Z := (z + 32768) mod 65536 - 32768.

(** [floor(x)] *)
Definition ffloor (x : R) : R := IZR (Int_part x).

(** [(int)x]: truncation toward zero; the conversion is undefined when
    the truncated value is outside the range of [int]. *)
Definition to_int (x : R) : option Z :=
  let z := if flt x 0 then - Int_part (- x) else Int_part x in
  if (-2147483648 <=? z) && (z <=? 2147483647) then Some z else None.

(** [sprintf(buf,"%d",n)] into a buffer of [size] bytes: the decimal text
    of [n]; writing it with its terminator behind the buffer is
    undefined. *)
Definition sprintf_d (size : Z) (n : Z) : option string :=
  let text := NilZero.string_of_int (Z.to_int n) in
  if Z.of_nat (String.length text) + 1 <=? size then Some text else None.



(** The body shared by [raHMS] and [azmDMS]: [f] split in whole units,
    minutes and seconds, before the narrowing to the output types. *)
Definition split_unsigned (f : R) : option (Z * Z * Z) :=
  let h1 := ffloor f in
  let m1 := ((f - h1) * 60)%R in
  let s1 := ((m1 - ffloor m1) * 60)%R in
  h <- to_int h1 ;;
  m <- to_int m1 ;;
  s <- to_int s1 ;;
  Some (h, m, s).

(** The body shared by [decDMS] and [altDMS]: the sign is taken off [f]
    first and multiplied back on the whole degrees. *)
Definition split_signed (f : R) : option (Z * Z * Z) :=
  let sign := if flt f 0 then -1 else 1 in
  let f := (f * IZR sign)%R in
  let d1 := ffloor f in
  let m1 := ((f - d1) * 60)%R in
  let s1 := ((m1 - ffloor m1) * 60)%R in
  d <- to_int d1 ;;
  m <- to_int m1 ;;
  s <- to_int s1 ;;
  Some (wrap_long (d * sign), m, s).

Section CatMgrRest.

Variable MaxCatalogs : Z.
Variable Rad : R.

(** The name tables of an absent header. *)
Variable Txt_Constellations : list string.
Variable Txt_Object_Type : list string.

(** [for (int i=0; i<MaxCatalogs; i++)] of [hasDblStarCatalog]. *)
Fixpoint hasDblStarCatalog_from (k : nat) (i : Z) (cat : list catalog_t)
  : option bool :=
  match k with
  | O => Some false
  | S k' =>
      c <- at_index cat i ;;
      if CAT_TYPES_eqb (CatalogType c) CAT_DBL_STAR then Some true
      else if CAT_TYPES_eqb (CatalogType c) CAT_DBL_STAR_COMP then Some true
      else if CAT_TYPES_eqb (CatalogType c) CAT_NONE then Some false
      else hasDblStarCatalog_from k' (i + 1) cat
  end.

Definition hasDblStarCatalog (st : state) : option bool :=
  hasDblStarCatalog_from (Z.to_nat MaxCatalogs) 0 (catalog st).

(** [for (int i=0; i<MaxCatalogs; i++)] of [hasVarStarCatalog]. *)
Fixpoint hasVarStarCatalog_from (k : nat) (i : Z) (cat : list catalog_t)
  : option bool :=
  match k with
  | O => Some false
  | S k' =>
      c <- at_index cat i ;;
      if CAT_TYPES_eqb (CatalogType c) CAT_VAR_STAR then Some true
      else if CAT_TYPES_eqb (CatalogType c) CAT_NONE then Some false
      else hasVarStarCatalog_from k' (i + 1) cat
  end.

Definition hasVarStarCatalog (st : state) : option bool :=
  hasVarStarCatalog_from (Z.to_nat MaxCatalogs) 0 (catalog st).



(** The triples are [(h, m, s)] and [(d, m, s)] as stored through the
    reference parameters ([uint8_t] and [short]). *)
Definition raHMS (st : state) : option (Z * Z * Z) :=
  f <- rah st ;;
  '(h, m, s) <- split_unsigned f ;;
  Some (to_byte h, to_byte m, to_byte s).

Definition decDMS (st : state) : option (Z * Z * Z) :=
  f <- dec st ;;
  '(d, m, s) <- split_signed f ;;
  Some (wrap_short d, to_byte m, to_byte s).

Definition altDMS (st : state) : option (Z * Z * Z) :=
  f <- alt Rad st ;;
  '(d, m, s) <- split_signed f ;;
  Some (wrap_short d, to_byte m, to_byte s).

Definition azmDMS (st : state) : option (Z * Z * Z) :=
  f <- azm Rad st ;;
  '(d, m, s) <- split_unsigned f ;;
  Some (wrap_short d, to_byte m, to_byte s).

Definition constellationStr (st : state) : option string :=
  c <- constellation st ;; at_index Txt_Constellations c.

Definition constellationCodeToStr (code : Z) : option string :=
  if (0 <=? code) && (code <=? 87) then at_index Txt_Constellations code
  else Some EmptyString.

Definition objectTypeStr (st : state) : option string :=
  t <- objectType st ;;
  if (0 <=? t) && (t <=? 20) then at_index Txt_Object_Type t else Some EmptyString.

Definition objectTypeCodeToStr (code : Z) : option string :=
  if (0 <=? code) && (code <=? 20) then at_index Txt_Object_Type code
  else Some EmptyString.

(** [view[i].Has_subId] through the view of catalog type [t]. *)
Definition Has_subId_at (t : CAT_TYPES) (st : state) (i : Z) : option bool :=
  match t with
  | CAT_GEN_STAR =>
      r <- gen_star_at (_genStarCatalog (view st)) i ;; Some (gen_star_t.Has_subId r)
  | CAT_GEN_STAR_VCOMP =>
      r <- gen_star_vcomp_at (_genStarVCompCatalog (view st)) i ;;
      Some (gen_star_vcomp_t.Has_subId r)
  | CAT_DBL_STAR =>
      r <- dbl_star_at (_dblStarCatalog (view st)) i ;; Some (dbl_star_t.Has_subId r)
  | CAT_DBL_STAR_COMP =>
      r <- dbl_star_comp_at (_dblStarCompCatalog (view st)) i ;;
      Some (dbl_star_comp_t.Has_subId r)
  | CAT_VAR_STAR =>
      r <- var_star_at (_varStarCatalog (view st)) i ;; Some (var_star_t.Has_subId r)
  | CAT_DSO =>
      r <- dso_at (_dsoCatalog (view st)) i ;; Some (dso_t.Has_subId r)
  | CAT_DSO_COMP =>
      r <- dso_comp_at (_dsoCompCatalog (view st)) i ;; Some (dso_comp_t.Has_subId r)
  | CAT_DSO_VCOMP =>
      r <- dso_vcomp_at (_dsoVCompCatalog (view st)) i ;; Some (dso_vcomp_t.Has_subId r)
  | CAT_NONE => None
  end.

Definition subId (st : state) : option Z :=
  if _selected st <? 0 then Some (-1) else
  t <- catalogType st ;;
  match t with
  | CAT_NONE => Some (-1)
  | _ =>
      c <- cur st ;;
      noted <- Has_subId_at t st (Index c) ;;
      if negb noted then Some (-1) else
      let result := -1 in
      let j := Index c in
      m <- getMaxIndex st ;;
      let j := if m <? j then -1 else j in
      if j <? 0 then Some (-1) else
      count_flagged (Has_subId_at t st) (Z.to_nat (j + 1)) 0 result
  end.

Definition subIdStr (st : state) : option string :=
  if _selected st <? 0 then Some EmptyString else
  elementNum <- subId st ;;
  if 0 <=? elementNum then
    c <- cur st ;; getElementFromString (ObjectSubIds c) elementNum
  else Some EmptyString.

Definition bayerFlam (st : state) : option Z :=
  if _selected st <? 0 then Some (-1) else
  t <- catalogType st ;;
  bf <- match t with
        | CAT_GEN_STAR => r <- genStar st ;; Some (Some (gen_star_t.BayerFlam r))
        | CAT_GEN_STAR_VCOMP =>
            r <- genStarVComp st ;; Some (Some (gen_star_vcomp_t.BayerFlam r))
        | CAT_DBL_STAR => r <- dblStar st ;; Some (Some (dbl_star_t.BayerFlam r))
        | CAT_DBL_STAR_COMP =>
            r <- dblStarComp st ;; Some (Some (dbl_star_comp_t.BayerFlam r))
        | CAT_VAR_STAR => r <- varStar st ;; Some (Some (var_star_t.BayerFlam r))
        | _ => Some None
        end ;;
  match bf with
  | None => Some (-1)
  | Some bf => if bf =? 24 then Some (-1) else Some bf
  end.

(** [bfStr] is a [static char[3]]. *)
Definition bayerFlamStr (st : state) : option string :=
  if _selected st <? 0 then Some EmptyString else
  bfNum <- bayerFlam st ;;
  if (0 <=? bfNum) && (bfNum <? 24) then sprintf_d 3 bfNum
  else if 24 <? bfNum then sprintf_d 3 (bfNum - 24)
  else Some EmptyString.

End CatMgrRest.

(** ** Specification-side notions for the rest *)

(** The has-sub-id flags of an array, record by record. *)
Definition subId_flags (p : objects) : list bool :=
  match p with
  | NULL => []
  | GenStars a => List.map gen_star_t.Has_subId a
  | GenStarsVComp a => List.map gen_star_vcomp_t.Has_subId a
  | DblStars a => List.map dbl_star_t.Has_subId a
  | DblStarsComp a => List.map dbl_star_comp_t.Has_subId a
  | VarStars a => List.map var_star_t.Has_subId a
  | Dsos a => List.map dso_t.Has_subId a
  | DsosComp a => List.map dso_comp_t.Has_subId a
  | DsosVComp a => List.map dso_vcomp_t.Has_subId a
  end.

(** The Bayer/Flamsteed code stored in record [i] of a star array. *)
Definition stored_BayerFlam (p : objects) (i : nat) : option Z :=
  match p with
  | GenStars a => option_map gen_star_t.BayerFlam (nth_error a i)
  | GenStarsVComp a => option_map gen_star_vcomp_t.BayerFlam (nth_error a i)
  | DblStars a => option_map dbl_star_t.BayerFlam (nth_error a i)
  | DblStarsComp a => option_map dbl_star_comp_t.BayerFlam (nth_error a i)
  | VarStars a => option_map var_star_t.BayerFlam (nth_error a i)
  | _ => None
  end.

(** The stored period of record [i] of a variable-star array. *)
Definition stored_Period (p : objects) (i : nat) : option Z :=
  match p with
  | VarStars a => option_map var_star_t.Period (nth_error a i)
  | _ => None
  end.

(** A table written with semicolons between its elements. *)
Fixpoint join_semicolon (l : list string) : string :=
  match l with
  | [] => EmptyString
  | [e] => e
  | e :: l' => (e ++ String ";" (join_semicolon l'))%string
  end.

Fixpoint has_semicolon (s : string) : bool :=
  match s with
  | EmptyString => false
  | String c s' => is_semicolon c || has_semicolon s'
  end.

(** ** A variable-star catalog for concrete runs *)

(** Three records: periods 5.43 d, 160 d and unknown; Bayer letter 3,
    Flamsteed numbers 61 and 100; the first declination is half a degree
    south; records 0 and 2 carry a sub-id. *)
Definition demo_var_stars : objects :=
  VarStars
    [ var_star_t.mk false 20 3 true 1 543 900 850 1.5 (-0.5);
      var_star_t.mk false 30 85 false 2 2500 1100 700 2.5 10;
      var_star_t.mk false 30 124 true 3 32767 1200 800 3.5 20 ].

Definition demo_var_entry (i : Z) : catalog_t :=
  mk_catalog "GCVS" "V" 3 demo_var_stars (Some EmptyString) (Some "AB;AC"%string)
             CAT_VAR_STAR 2000 i.

Definition demo_var_state (i : Z) : state :=
  mk_state [ demo_var_entry i;
             mk_catalog EmptyString EmptyString 0 NULL None None CAT_NONE 0 0 ] 0
           (set_varStarCatalog no_views demo_var_stars)
           demo_observer_unset demo_filter_none 0.

(** The tick counter 296 ms before it wraps around. *)
Definition demo_late_state : state :=
  mk_state demo_registry (-1) no_views demo_observer_unset demo_filter_none 4294967000.

(** The stored separation (tenths of an arc-second) and position angle of
    record [i] of a double-star array. *)
Definition stored_Sep (p : objects) (i : nat) : option Z :=
  match p with
  | DblStars a => option_map dbl_star_t.Sep (nth_error a i)
  | DblStarsComp a => option_map dbl_star_comp_t.Sep (nth_error a i)
  | _ => None
  end.

Definition stored_PA (p : objects) (i : nat) : option Z :=
  match p with
  | DblStars a => option_map dbl_star_t.PA (nth_error a i)
  | DblStarsComp a => option_map dbl_star_comp_t.PA (nth_error a i)
  | _ => None
  end.

(** The double-star catalog of the demonstration registry selected,
    cursor on record [i]. *)
Definition demo_stf_entry (i : Z) : catalog_t :=
  mk_catalog "Slct STF**" "STF" 2 demo_stf (Some EmptyString) (Some EmptyString)
             CAT_DBL_STAR_COMP 2000 i.

Definition demo_stf_state (i : Z) : state :=
  mk_state [ List.nth 0 demo_registry (demo_stf_entry 0);
             List.nth 1 demo_registry (demo_stf_entry 0);
             demo_stf_entry i;
             List.nth 3 demo_registry (demo_stf_entry 0) ] 2
           (set_dblStarCompCatalog no_views demo_stf)
           demo_observer_unset demo_filter_none 0.

(** ** Navigation when [alt()] may not return *)

(** [isFiltered] with its callee [alt()] as a parameter: [altitude st] is
    what [alt()] returns in state [st], [None] when the call does not
    return.  Everything else is as in [isFiltered]. *)
Definition isFiltered_by (Rad : R) (altitude : state -> option R) (st : state)
  : option bool :=
  let f := filt st in
  if negb (isInitialized st) then Some false else
  if _fm f =? FM_NONE then Some false else
  reject_when (has_bit (_fm f) FM_ABOVE_HORIZON)
    (a <- altitude st ;; Some (flt a 0)) (
  reject_when (has_bit (_fm f) FM_ALIGN_ALL_SKY)
    (a <- altitude st ;;
     if flt a 10 then Some true else
     d <- dec st ;; Some (fgt (Rabs d) 85)) (
  reject_when (has_bit (_fm f) FM_CONSTELLATION)
    (c <- constellation st ;; Some (negb (c =? _fm_con f))) (
  isDso <- isDsoCatalog st ;;
  reject_when (isDso && has_bit (_fm f) FM_OBJ_TYPE)
    (t <- objectType st ;; Some (negb (t =? _fm_obj_type f))) (
  reject_when (has_bit (_fm f) FM_BY_MAG)
    (m <- magnitude st ;; Some (fge m (_fm_mag_limit f))) (
  reject_when (has_bit (_fm f) FM_NEARBY)
    (d <- DistFromEqu Rad st (_lastTeleRA (obs st)) (_lastTeleDec (obs st)) ;;
     Some (fge d (_fm_nearby_dist f))) (
  reject_when (has_bit (_fm f) FM_DBL_MAX_SEP)
    (s <- separation st ;;
     isDbl <- isDblStarCatalog st ;;
     Some (isDbl && fgt s (_fm_dbl_max f))) (
  reject_when (has_bit (_fm f) FM_DBL_MIN_SEP)
    (s <- separation st ;;
     isDbl <- isDblStarCatalog st ;;
     Some (isDbl && flt s (_fm_dbl_min f))) (
  reject_when (has_bit (_fm f) FM_VAR_MAX_PER)
    (p <- period st ;;
     isVar <- isVarStarCatalog st ;;
     Some (isVar && fgt p (_fm_var_max f))) (
  Some false))))))))).

(** The loop of [incIndex] and [decIndex], and the two functions, with
    the filter evaluator as a parameter: [filtered st] is what
    [isFiltered()] returns in state [st], [None] when it does not
    return. *)
Fixpoint nav_loop_by (filtered : state -> option bool) (step : state -> option state)
         (k : nat) (i : Z) (st : state) {struct k} : option state :=
  let i := wrap_long (i - 1) in
  st <- step st ;;
  f <- filtered st ;;
  if f && (0 <? i) then
    match k with
    | O => None
    | S k' => nav_loop_by filtered step k' i st
    end
  else Some st.

Definition incIndex_by (filtered : state -> option bool) (st : state)
  : option (bool * state) :=
  m <- getMaxIndex st ;;
  let i := wrap_long (m + 1) in
  st <- nav_loop_by filtered inc_step (Z.to_nat i) i st ;;
  f <- filtered st ;;
  if f then Some (false, st) else Some (true, st).

Definition decIndex_by (filtered : state -> option bool) (st : state)
  : option (bool * state) :=
  m <- getMaxIndex st ;;
  let i := wrap_long (m + 1) in
  st <- nav_loop_by filtered dec_step (Z.to_nat i) i st ;;
  f <- filtered st ;;
  if f then Some (false, st) else Some (true, st).


(** ** The hour angle of [EquToHor] in binary64 *)

(** [double] as IEEE binary64 with rounding to nearest, the kernel's
    floating-point numbers; decimal constants are rounded as a compiler
    rounds them. *)
Set Warnings "-inexact-float".









(** ** Basic facts *)

Lemma flt_true_iff (x y : R) : flt x y = true <-> (x < y)%R.
Proof. unfold flt; destruct (Rlt_dec x y); split; intros; try easy. Qed.

Lemma flt_false_iff (x y : R) : flt x y = false <-> (y <= x)%R.
Proof. unfold flt; destruct (Rlt_dec x y); split; intros; try easy; lra. Qed.

Lemma fle_true_iff (x y : R) : fle x y = true <-> (x <= y)%R.
Proof. unfold fle; destruct (Rle_dec x y); split; intros; try easy. Qed.

Lemma fle_false_iff (x y : R) : fle x y = false <-> (y < x)%R.
Proof. unfold fle; destruct (Rle_dec x y); split; intros; try easy; lra. Qed.

Lemma feq_false_iff (x y : R) : feq x y = false <-> x <> y.
Proof. unfold feq; destruct (Req_dec_T x y); split; intros; try easy. Qed.

Lemma wrap_long_small (z : Z) :
  -2147483648 <= z <= 2147483647 -> wrap_long z = z.
Proof.
  intros H; unfold wrap_long.
  rewrite Z.mod_small by lia; lia.
Qed.

Lemma at_index_nth {A : Type} (a : list A) (i : Z) :
  0 <= i -> at_index a i = nth_error a (Z.to_nat i).
Proof.
  intros H; unfold at_index.
  destruct (i <? 0) eqn:E; [apply Z.ltb_lt in E; lia | reflexivity].
Qed.

Lemma at_index_neg {A : Type} (a : list A) (i : Z) :
  i < 0 -> at_index a i = None.
Proof.
  intros H; unfold at_index.
  destruct (i <? 0) eqn:E; [reflexivity | apply Z.ltb_ge in E; lia].
Qed.

Lemma store_nat_same {A : Type} (a : list A) (i : nat) (v w : A) :
  nth_error a i = Some w -> nth_error (store_nat a i v) i = Some v.
Proof.
  revert i; induction a as [|h t IH]; intros [|j] H; simpl in *; try discriminate; auto.
Qed.

Lemma store_nat_twice {A : Type} (a : list A) (i : nat) (v w : A) :
  store_nat (store_nat a i v) i w = store_nat a i w.
Proof.
  revert i; induction a as [|h t IH]; intros [|i]; simpl; auto; now rewrite IH.
Qed.

Lemma store_nat_unchanged {A : Type} (a : list A) (i : nat) (v : A) :
  nth_error a i = Some v -> store_nat a i v = a.
Proof.
  revert i; induction a as [|h t IH]; intros [|i] H; simpl in *; auto.
  - congruence.
  - now rewrite IH.
Qed.

(** ** Selection *)

Section Selection.

Variable MaxCatalogs : Z.
Variable Rad : R.

Lemma select_invalid (n : Z) (st st' : state) :
  (n < 0 \/ exists k, numCatalogs MaxCatalogs st = Some k /\ k <= n) ->
  select MaxCatalogs n st = Some st' ->
  _selected st' = -1.
Proof.
  intros Hinv Hsel. unfold select in Hsel.
  destruct (n <? 0) eqn:En.
  - simpl in Hsel. injection Hsel as <-. reflexivity.
  - apply Z.ltb_ge in En.
    destruct Hinv as [Hneg | [k [Hk Hle]]]; [lia |].
    unfold numCatalogs in *. simpl in Hsel. rewrite Hk in Hsel. simpl in Hsel.
    apply Z.leb_le in Hle. rewrite Hle in Hsel. simpl in Hsel.
    injection Hsel as <-. reflexivity.
Qed.

(** [select] never writes NULL to [_dblStarCompCatalog] or
    [_varStarCatalog]: each keeps its old value unless the catalog now
    selected is of its type. *)
Lemma select_keeps_two_views (n : Z) (st st' : state) :
  select MaxCatalogs n st = Some st' ->
  (_dblStarCompCatalog (view st') = _dblStarCompCatalog (view st) \/
   exists c, cur st' = Some c /\ CatalogType c = CAT_DBL_STAR_COMP /\
             _dblStarCompCatalog (view st') = Objects c) /\
  (_varStarCatalog (view st') = _varStarCatalog (view st) \/
   exists c, cur st' = Some c /\ CatalogType c = CAT_VAR_STAR /\
             _varStarCatalog (view st') = Objects c).
Proof.
  unfold select. intros H.
  destruct (n <? 0).
  { cbn in H. injection H as <-. cbn. auto. }
  destruct (numCatalogs MaxCatalogs _) as [k|]; [| discriminate].
  cbn [bind] in H.
  destruct (k <=? n).
  { cbn in H. injection H as <-. cbn. auto. }
  cbn [_selected with_selected] in H.
  destruct (0 <=? n); [| injection H as <-; cbn; auto].
  destruct (cur _) as [c|] eqn:Ec; [| discriminate].
  cbn [bind] in H.
  destruct (CatalogType c) eqn:Et; injection H as <-; cbn; auto.
  - split; [right | left; reflexivity]. exists c. auto.
  - split; [left; reflexivity | right]. exists c. auto.
Qed.

(** What [select] does establish for a valid number: the entry is
    selected, its own view is bound to its record array, and
    [catalogType()] is the registry's tag. *)
Lemma select_selected (n k : Z) (st : state) (c : catalog_t) :
  numCatalogs MaxCatalogs st = Some k ->
  0 <= n < k ->
  at_index (catalog st) n = Some c ->
  registry_entry_ok c ->
  exists st',
    select MaxCatalogs n st = Some st' /\
    selected st' c /\
    _selected st' = n /\
    view_of (CatalogType c) (view st') = Objects c /\
    catalogType st' = Some (CatalogType c).
Proof.
  intros Hk Hn Hc (Ht & Ho & Hl & Hm & Hi).
  assert (He : nth_error (catalog st) (Z.to_nat n) = Some c).
  { rewrite <- at_index_nth by lia. exact Hc. }
  unfold select.
  replace (n <? 0) with false by (symmetry; apply Z.ltb_ge; lia).
  unfold numCatalogs in *. cbn [catalog with_view]. rewrite Hk. cbn [bind].
  replace (k <=? n) with false by (symmetry; apply Z.leb_gt; lia).
  cbn [_selected with_selected].
  replace (0 <=? n) with true by (symmetry; apply Z.leb_le; lia).
  unfold cur. cbn [catalog _selected with_selected with_view]. rewrite Hc. cbn [bind].
  destruct (CatalogType c) eqn:Et; [congruence | | | | | | | |];
    (eexists; split; [reflexivity |]; split; [| split; [reflexivity |]; split]);
    try (constructor; cbn; rewrite ?Et; auto; lia);
    try (cbn; reflexivity);
    try (unfold catalogType, cur; cbn; rewrite Hc; cbn; now rewrite Et).
Qed.

(** C1 (as coded): [select] resets six of the eight typed views only;
    [_dblStarCompCatalog] and [_varStarCatalog] keep their previous value.
    On the registry [demo_registry], selecting the double-star catalog
    (entry 2) and then the star catalog (entry 0) leaves two views bound,
    and selecting the double-star catalog and then the invalid number -1
    leaves one view bound although nothing is selected. *)
Theorem select_keeps_stale_views :
  exists st1 st2 st3,
    select 64 2 demo_state = Some st1 /\
    bound_views (view st1) = 1%nat /\
    select 64 0 st1 = Some st2 /\
    _selected st2 = 0 /\
    _genStarVCompCatalog (view st2) = demo_stars /\
    _dblStarCompCatalog (view st2) = demo_stf /\
    bound_views (view st2) = 2%nat /\
    select 64 (-1) st1 = Some st3 /\
    _selected st3 = -1 /\
    _dblStarCompCatalog (view st3) = demo_stf /\
    bound_views (view st3) = 1%nat.
Proof.
  do 3 eexists.
  repeat (split; [reflexivity |]).
  reflexivity.
Qed.

(** C2 (as coded): after [select(n)] with an invalid [n] the selection is
    -1 and the guarded accessors return their sentinels, but
    [catalogType()] and [dec()] have no guard: they read [catalog[-1]],
    outside the registry, and have no defined result. *)
Theorem unselected_accessors (n : Z) (st st' : state) :
  (n < 0 \/ exists k, numCatalogs MaxCatalogs st = Some k /\ k <= n) ->
  select MaxCatalogs n st = Some st' ->
  _selected st' = -1 /\
  magnitude st' = Some 99.9%R /\
  magnitude2 st' = Some 99.9%R /\
  positionAngle st' = Some (-1) /\
  separation st' = Some 999.9%R /\
  period st' = Some (-1)%R /\
  primaryId st' = Some (-1) /\
  catalogTitle st' = Some EmptyString /\
  catalogPrefix st' = Some EmptyString /\
  epoch st' = Some (-1) /\
  cur st' = None /\
  catalogType st' = None /\
  dec st' = None.
Proof.
  intros Hinv Hsel.
  pose proof (select_invalid n st st' Hinv Hsel) as Hs.
  assert (Hcur : cur st' = None).
  { unfold cur. rewrite Hs. apply at_index_neg. lia. }
  unfold magnitude, magnitude2, positionAngle, separation, period, primaryId,
    catalogTitle, catalogPrefix, epoch, dec, catalogType.
  rewrite Hs, Hcur. simpl. repeat split; reflexivity.
Qed.

End Selection.

(** ** The selected catalog and its cursor *)

Lemma with_Index_same (c : catalog_t) : with_Index c (Index c) = c.
Proof. destruct c; reflexivity. Qed.

Lemma selected_cur (st : state) (c : catalog_t) :
  selected st c -> cur st = Some c.
Proof.
  intros H. unfold cur.
  rewrite at_index_nth by apply (sel_nonneg _ _ H).
  apply (sel_entry _ _ H).
Qed.

Lemma cur_inv (st : state) (c : catalog_t) :
  cur st = Some c ->
  0 <= _selected st /\ nth_error (catalog st) (Z.to_nat (_selected st)) = Some c.
Proof.
  unfold cur, at_index. intros H.
  destruct (_selected st <? 0) eqn:E; [discriminate |].
  apply Z.ltb_ge in E. auto.
Qed.

Lemma cur_at_cursor (st : state) (c : catalog_t) (i : Z) :
  cur st = Some c -> cur (at_cursor st c i) = Some (with_Index c i).
Proof.
  intros H. destruct (cur_inv _ _ H) as [Hn He].
  unfold cur, at_cursor. simpl.
  rewrite at_index_nth by assumption.
  eapply store_nat_same; eassumption.
Qed.

Lemma set_Index_cur (i : Z) (st : state) (c : catalog_t) :
  cur st = Some c -> set_Index i st = Some (at_cursor st c i).
Proof. intros H. unfold set_Index. rewrite H. reflexivity. Qed.

Lemma at_cursor_twice (st : state) (c : catalog_t) (i j : Z) :
  at_cursor (at_cursor st c i) (with_Index c i) j = at_cursor st c j.
Proof.
  unfold at_cursor. simpl. rewrite store_nat_twice. reflexivity.
Qed.

Lemma at_cursor_same (st : state) (c : catalog_t) :
  selected st c -> at_cursor st c (Index c) = st.
Proof.
  intros H. unfold at_cursor.
  rewrite with_Index_same, store_nat_unchanged by apply (sel_entry _ _ H).
  destruct st; reflexivity.
Qed.

Lemma selected_at_cursor (st : state) (c : catalog_t) (i : Z) :
  selected st c -> 0 <= i < NumObjects c ->
  selected (at_cursor st c i) (with_Index c i).
Proof.
  intros H Hi. destruct H.
  constructor; simpl; auto.
  eapply store_nat_same; eassumption.
Qed.

Lemma selected_getMaxIndex (st : state) (c : catalog_t) :
  selected st c -> getMaxIndex st = Some (NumObjects c - 1).
Proof.
  intros H. unfold getMaxIndex. rewrite (selected_cur _ _ H). simpl.
  pose proof (sel_cursor _ _ H). pose proof (sel_max _ _ H). unfold LONG_MAX in *.
  rewrite wrap_long_small by lia. reflexivity.
Qed.

Lemma selected_catalogType (st : state) (c : catalog_t) :
  selected st c -> catalogType st = Some (CatalogType c).
Proof. intros H. unfold catalogType. rewrite (selected_cur _ _ H). reflexivity. Qed.

Lemma selected_not_negative (st : state) (c : catalog_t) :
  selected st c -> (_selected st <? 0) = false.
Proof. intros H. apply Z.ltb_ge. apply (sel_nonneg _ _ H). Qed.

Lemma nth_error_in_range {A : Type} (a : list A) (i : Z) :
  0 <= i < Z.of_nat (List.length a) -> exists r, nth_error a (Z.to_nat i) = Some r.
Proof.
  intros H. destruct (nth_error a (Z.to_nat i)) eqn:E; [eauto |].
  apply nth_error_None in E. lia.
Qed.

Ltac read_through f Hc Hv Hr :=
  unfold f; rewrite Hc, Hv; simpl; unfold at_index;
  destruct (Index _ <? 0) eqn:E; [apply Z.ltb_lt in E; lia | exact Hr].

Lemma selected_under_cursor (st : state) (c : catalog_t) :
  selected st c -> under_cursor st c.
Proof.
  intros H. pose proof (selected_cur _ _ H) as Hc.
  destruct H as [Hn He Ht Ho Hv Hl Hm Hi].
  destruct (Objects c) as [|a|a|a|a|a|a|a|a] eqn:EO; simpl in Ho, Hl;
    try (exfalso; apply Ht; symmetry; exact Ho);
    rewrite <- Ho in Hv; simpl in Hv;
    rewrite <- Hl in Hi;
    destruct (nth_error_in_range a (Index c) Hi) as [r Hr].
  - apply (uc_gen_star st c a r); auto. read_through genStar Hc Hv Hr.
  - apply (uc_gen_star_vcomp st c a r); auto. read_through genStarVComp Hc Hv Hr.
  - apply (uc_dbl_star st c a r); auto. read_through dblStar Hc Hv Hr.
  - apply (uc_dbl_star_comp st c a r); auto. read_through dblStarComp Hc Hv Hr.
  - apply (uc_var_star st c a r); auto. read_through varStar Hc Hv Hr.
  - apply (uc_dso st c a r); auto. read_through dso Hc Hv Hr.
  - apply (uc_dso_comp st c a r); auto. read_through dsoComp Hc Hv Hr.
  - apply (uc_dso_vcomp st c a r); auto. read_through dsoVComp Hc Hv Hr.
Qed.

(** ** The filter evaluator *)

Lemma fge_negb_flt (x y : R) : fge x y = negb (flt x y).
Proof.
  unfold fge, fle, flt.
  destruct (Rle_dec y x), (Rlt_dec x y); simpl; try reflexivity; lra.
Qed.

Lemma fgt_negb_fle (x y : R) : fgt x y = negb (fle x y).
Proof.
  unfold fgt, fle, flt.
  destruct (Rlt_dec y x), (Rle_dec x y); simpl; try reflexivity; lra.
Qed.

Lemma flt_negb_fle (x y : R) : flt x y = negb (fle y x).
Proof.
  unfold fle, flt.
  destruct (Rlt_dec x y), (Rle_dec y x); simpl; try reflexivity; lra.
Qed.

Lemma reject_when_Some (e t r : bool) :
  reject_when e (Some t) (Some r) = Some (e && t || r).
Proof. destruct e, t, r; reflexivity. Qed.

Section Filter.

Variable Rad : R.

Ltac by_type H :=
  let Ht := fresh "Ht" in
  let Hrec := fresh "Hrec" in
  destruct (selected_under_cursor _ _ H) as
    [a r Ht _ _ Hrec | a r Ht _ _ Hrec | a r Ht _ _ Hrec | a r Ht _ _ Hrec
    |a r Ht _ _ Hrec | a r Ht _ _ Hrec | a r Ht _ _ Hrec | a r Ht _ _ Hrec];
  rewrite Ht; simpl; rewrite ?Hrec; simpl.

Lemma selected_is_catalog (st : state) (c : catalog_t) :
  selected st c ->
  isDsoCatalog st = Some (is_dso (CatalogType c)) /\
  isDblStarCatalog st = Some (is_dbl (CatalogType c)) /\
  isVarStarCatalog st = Some (is_var (CatalogType c)).
Proof.
  intros H. unfold isDsoCatalog, isDblStarCatalog, isVarStarCatalog.
  rewrite (selected_catalogType _ _ H). simpl.
  destruct (CatalogType c); simpl; auto.
Qed.

Lemma read_all_selected (st : state) (c : catalog_t) :
  selected st c -> exists v, read_all Rad st = Some v.
Proof.
  intros H.
  unfold read_all, alt, DistFromEqu, ra, rah, dec, constellation, objectType,
    magnitude, separation, period.
  rewrite (selected_not_negative _ _ H), (selected_catalogType _ _ H). simpl.
  by_type H; try (eexists; reflexivity).
  repeat match goal with
         | |- context [if ?b then _ else _] => destruct b
         end; eexists; reflexivity.
Qed.

Lemma read_all_inv (st : state) (v : readings) :
  read_all Rad st = Some v ->
  alt Rad st = Some (r_alt v) /\
  dec st = Some (r_dec v) /\
  constellation st = Some (r_constellation v) /\
  objectType st = Some (r_objectType v) /\
  magnitude st = Some (r_magnitude v) /\
  DistFromEqu Rad st (_lastTeleRA (obs st)) (_lastTeleDec (obs st)) = Some (r_dist v) /\
  separation st = Some (r_separation v) /\
  period st = Some (r_period v).
Proof.
  unfold read_all. intros H.
  destruct (alt Rad st); [| discriminate].
  destruct (dec st); [| discriminate].
  destruct (constellation st); [| discriminate].
  destruct (objectType st); [| discriminate].
  destruct (magnitude st); [| discriminate].
  destruct (DistFromEqu Rad st _ _); [| discriminate].
  destruct (separation st); [| discriminate].
  destruct (period st); [| discriminate].
  simpl in H. injection H as <-. simpl. repeat split; reflexivity.
Qed.

Lemma isFiltered_selected (st : state) (c : catalog_t) (v : readings) :
  selected st c -> read_all Rad st = Some v ->
  isFiltered Rad st = Some (isFiltered_spec st (CatalogType c) v).
Proof.
  intros H Hv.
  destruct (read_all_inv _ _ Hv) as (Ha & Hd & Hc & Ho & Hm & Hn & Hs & Hp).
  destruct (selected_is_catalog _ _ H) as (Hdso & Hdbl & Hvar).
  unfold isFiltered, isFiltered_spec.
  destruct (negb (isInitialized st)); [reflexivity |].
  destruct (_fm (filt st) =? FM_NONE); [reflexivity |].
  rewrite Ha, Hd, Hc, Ho, Hm, Hn, Hs, Hp, Hdso, Hdbl, Hvar. simpl.
  rewrite !fge_negb_flt, !fgt_negb_fle, (flt_negb_fle (r_separation v)).
  replace (if flt (r_alt v) 10 then Some true
           else Some (negb (fle (Rabs (r_dec v)) 85)))
    with (Some (negb (fle 10 (r_alt v) && fle (Rabs (r_dec v)) 85))).
  2:{ rewrite (flt_negb_fle (r_alt v)). destruct (fle 10 (r_alt v)); reflexivity. }
  rewrite !reject_when_Some.
  f_equal.
  destruct (is_dso (CatalogType c)), (is_dbl (CatalogType c)), (is_var (CatalogType c));
    simpl; rewrite ?andb_true_r, ?andb_false_r; reflexivity.
Qed.

Lemma isFiltered_uninitialized (st : state) :
  isInitialized st = false -> isFiltered Rad st = Some false.
Proof. intros H. unfold isFiltered. rewrite H. reflexivity. Qed.

Lemma isFiltered_no_filter (st : state) :
  _fm (filt st) = FM_NONE -> isFiltered Rad st = Some false.
Proof.
  intros H. unfold isFiltered. rewrite H. simpl.
  destruct (negb (isInitialized st)); reflexivity.
Qed.

Lemma isFiltered_defined (st : state) (c : catalog_t) :
  selected st c -> exists b, isFiltered Rad st = Some b.
Proof.
  intros H. destruct (read_all_selected _ _ H) as [v Hv].
  eexists. apply (isFiltered_selected _ _ _ H Hv).
Qed.


End Filter.

(** ** Navigation *)

Section Navigation.

Variable Rad : R.

Lemma inc_step_selected (st : state) (c : catalog_t) :
  selected st c ->
  inc_step st = Some (at_cursor st c (next_inc (NumObjects c) (Index c))).
Proof.
  intros H. pose proof (selected_cur _ _ H) as Hc.
  pose proof (sel_cursor _ _ H) as Hi. pose proof (sel_max _ _ H) as Hm.
  unfold LONG_MAX in Hm.
  unfold inc_step. rewrite Hc. simpl.
  rewrite (set_Index_cur _ _ _ Hc). simpl.
  rewrite (cur_at_cursor _ _ _ Hc). simpl.
  unfold getMaxIndex. rewrite (cur_at_cursor _ _ _ Hc). simpl.
  rewrite !wrap_long_small by lia.
  unfold next_inc.
  destruct (Index c =? NumObjects c - 1) eqn:E.
  - apply Z.eqb_eq in E.
    replace (NumObjects c - 1 <? Index c + 1) with true by (symmetry; apply Z.ltb_lt; lia).
    rewrite (set_Index_cur _ _ _ (cur_at_cursor _ _ _ Hc)).
    rewrite at_cursor_twice. reflexivity.
  - apply Z.eqb_neq in E.
    replace (NumObjects c - 1 <? Index c + 1) with false by (symmetry; apply Z.ltb_ge; lia).
    reflexivity.
Qed.

Lemma dec_step_selected (st : state) (c : catalog_t) :
  selected st c ->
  dec_step st = Some (at_cursor st c (next_dec (NumObjects c) (Index c))).
Proof.
  intros H. pose proof (selected_cur _ _ H) as Hc.
  pose proof (sel_cursor _ _ H) as Hi. pose proof (sel_max _ _ H) as Hm.
  unfold LONG_MAX in Hm.
  unfold dec_step. rewrite Hc. simpl.
  rewrite (set_Index_cur _ _ _ Hc). simpl.
  rewrite (cur_at_cursor _ _ _ Hc). simpl.
  rewrite !wrap_long_small by lia.
  unfold next_dec.
  destruct (Index c =? 0) eqn:E.
  - apply Z.eqb_eq in E.
    replace (Index c - 1 <? 0) with true by (symmetry; apply Z.ltb_lt; lia).
    unfold getMaxIndex. rewrite (cur_at_cursor _ _ _ Hc). simpl.
    rewrite !wrap_long_small by lia.
    rewrite (set_Index_cur _ _ _ (cur_at_cursor _ _ _ Hc)).
    rewrite at_cursor_twice. reflexivity.
  - apply Z.eqb_neq in E.
    replace (Index c - 1 <? 0) with false by (symmetry; apply Z.ltb_ge; lia).
    reflexivity.
Qed.

Lemma next_inc_range (N p : Z) : 0 <= p < N -> 0 <= next_inc N p < N.
Proof. unfold next_inc. destruct (p =? N - 1) eqn:E; [| apply Z.eqb_neq in E]; lia. Qed.

Lemma next_dec_range (N p : Z) : 0 <= p < N -> 0 <= next_dec N p < N.
Proof. unfold next_dec. destruct (p =? 0) eqn:E; [| apply Z.eqb_neq in E]; lia. Qed.

Lemma next_inc_mod (N p : Z) : 0 <= p < N -> next_inc N p = (p + 1) mod N.
Proof.
  intros H. unfold next_inc. destruct (p =? N - 1) eqn:E.
  - apply Z.eqb_eq in E. replace (p + 1) with N by lia.
    now rewrite Z.mod_same by lia.
  - apply Z.eqb_neq in E. now rewrite Z.mod_small by lia.
Qed.

Lemma next_dec_mod (N p : Z) : 0 <= p < N -> next_dec N p = (p - 1) mod N.
Proof.
  intros H. unfold next_dec. destruct (p =? 0) eqn:E.
  - apply Z.eqb_eq in E. subst p.
    replace (0 - 1) with (N - 1 + (-1) * N) by lia.
    rewrite Z.mod_add by lia. now rewrite Z.mod_small by lia.
  - apply Z.eqb_neq in E. now rewrite Z.mod_small by lia.
Qed.

Lemma next_dec_inc (N p : Z) : 0 <= p < N -> next_dec N (next_inc N p) = p.
Proof.
  intros H. unfold next_dec, next_inc.
  destruct (p =? N - 1) eqn:E.
  - apply Z.eqb_eq in E. simpl. lia.
  - apply Z.eqb_neq in E.
    destruct (p + 1 =? 0) eqn:E'; [apply Z.eqb_eq in E' | ]; lia.
Qed.

Section Loop.

Variable step : state -> option state.
Variable next : Z -> Z -> Z.

Hypothesis step_next : forall st c,
  selected st c ->
  step st = Some (at_cursor st c (next (NumObjects c) (Index c))).

Hypothesis next_range : forall N p, 0 <= p < N -> 0 <= next N p < N.

Lemma nav_loop_spec (k : nat) :
  forall (i : Z) (st : state) (c : catalog_t),
    selected st c -> 1 <= i <= LONG_MAX -> (Z.to_nat i <= S k)%nat ->
    exists j : nat,
      (1 <= j <= Z.to_nat i)%nat /\
      nav_loop Rad step k i st =
        Some (at_cursor st c (Nat.iter j (next (NumObjects c)) (Index c))) /\
      (forall j', (1 <= j' < j)%nat ->
         isFiltered Rad (at_cursor st c (Nat.iter j' (next (NumObjects c)) (Index c)))
         = Some true) /\
      ((j < Z.to_nat i)%nat ->
         isFiltered Rad (at_cursor st c (Nat.iter j (next (NumObjects c)) (Index c)))
         = Some false).
Proof.
  induction k as [|k IH]; intros i st c H Hi Hk; unfold LONG_MAX in Hi;
    pose proof (step_next _ _ H) as Hs;
    pose proof (next_range _ _ (sel_cursor _ _ H)) as Hr;
    pose proof (selected_at_cursor _ _ _ H Hr) as H1;
    destruct (isFiltered_defined Rad _ _ H1) as [f Hf];
    cbn [nav_loop]; rewrite wrap_long_small by lia; rewrite Hs;
    cbn [bind]; rewrite Hf; cbn [bind].
  - assert (i = 1) by lia. subst i.
    replace (0 <? 1 - 1) with false by reflexivity. rewrite andb_false_r.
    exists 1%nat. cbn [Nat.iter nat_rect].
    split; [lia |]. split; [reflexivity |]. split; intros; lia.
  - destruct (f && (0 <? i - 1)) eqn:E.
    + apply andb_true_iff in E. destruct E as [-> E]. apply Z.ltb_lt in E.
      destruct (IH (i - 1) _ _ H1) as (j & Hj & Hres & Hskip & Hlast);
        [unfold LONG_MAX; lia | lia |].
      cbn [NumObjects Index with_Index] in Hres, Hskip, Hlast.
      exists (S j). rewrite Nat.iter_succ_r.
      split; [lia |]. split.
      { rewrite Hres. now rewrite at_cursor_twice. }
      split.
      { intros j' Hj'. destruct j' as [|j']; [lia |].
        rewrite Nat.iter_succ_r.
        destruct (Nat.eq_dec j' 0) as [-> | Hne].
        - exact Hf.
        - rewrite <- (at_cursor_twice st c (next (NumObjects c) (Index c))).
          apply Hskip. lia. }
      { intros Hlt.
        rewrite <- (at_cursor_twice st c (next (NumObjects c) (Index c))).
        apply Hlast. lia. }
    + exists 1%nat. cbn [Nat.iter nat_rect].
      split; [lia |]. split; [reflexivity |]. split; [intros; lia |].
      intros Hlt. apply andb_false_iff in E. destruct E as [-> | E]; [exact Hf |].
      apply Z.ltb_ge in E. lia.
Qed.

End Loop.

Lemma iter_next_inc (N p : Z) (j : nat) :
  0 <= p < N -> Nat.iter j (next_inc N) p = (p + Z.of_nat j) mod N.
Proof.
  intros H. induction j as [|j IH].
  - cbn [Nat.iter nat_rect]. rewrite Z.add_0_r. now rewrite Z.mod_small by lia.
  - cbn [Nat.iter nat_rect]. fold (Nat.iter j (next_inc N) p). rewrite IH.
    rewrite next_inc_mod by (apply Z.mod_pos_bound; lia).
    rewrite Zplus_mod_idemp_l. f_equal. lia.
Qed.

Lemma iter_next_dec (N p : Z) (j : nat) :
  0 <= p < N -> Nat.iter j (next_dec N) p = (p - Z.of_nat j) mod N.
Proof.
  intros H. induction j as [|j IH].
  - cbn [Nat.iter nat_rect]. rewrite Z.sub_0_r. now rewrite Z.mod_small by lia.
  - cbn [Nat.iter nat_rect]. fold (Nat.iter j (next_dec N) p). rewrite IH.
    rewrite next_dec_mod by (apply Z.mod_pos_bound; lia).
    rewrite Zminus_mod_idemp_l. f_equal. lia.
Qed.

(** The common shape of [incIndex] and [decIndex]. *)
Lemma index_nav_spec (step : state -> option state) (next : Z -> Z -> Z)
      (st : state) (c : catalog_t) :
  (forall st c, selected st c ->
     step st = Some (at_cursor st c (next (NumObjects c) (Index c)))) ->
  (forall N p, 0 <= p < N -> 0 <= next N p < N) ->
  selected st c ->
  exists (j : nat) (b : bool),
    (1 <= j <= Z.to_nat (NumObjects c))%nat /\
    (m <- getMaxIndex st ;;
     let i := wrap_long (m + 1) in
     st <- nav_loop Rad step (Z.to_nat i) i st ;;
     f <- isFiltered Rad st ;;
     if f then Some (false, st) else Some (true, st))
    = Some (b, at_cursor st c (Nat.iter j (next (NumObjects c)) (Index c))) /\
    isFiltered Rad (at_cursor st c (Nat.iter j (next (NumObjects c)) (Index c)))
    = Some (negb b) /\
    (forall j', (1 <= j' < j)%nat ->
       isFiltered Rad (at_cursor st c (Nat.iter j' (next (NumObjects c)) (Index c)))
       = Some true) /\
    ((j < Z.to_nat (NumObjects c))%nat -> b = true).
Proof.
  intros Hstep Hrange H.
  pose proof (sel_cursor _ _ H) as Hi. pose proof (sel_max _ _ H) as Hm.
  rewrite (selected_getMaxIndex _ _ H). cbn [bind].
  unfold LONG_MAX in Hm.
  rewrite wrap_long_small by lia.
  replace (NumObjects c - 1 + 1) with (NumObjects c) by lia.
  destruct (nav_loop_spec step next Hstep Hrange (Z.to_nat (NumObjects c))
              (NumObjects c) st c H) as (j & Hj & Hres & Hskip & Hlast);
    [unfold LONG_MAX; lia | lia |].
  assert (Hin : forall n, 0 <= Nat.iter n (next (NumObjects c)) (Index c) < NumObjects c).
  { induction n as [|n IHn]; cbn [Nat.iter nat_rect]; [lia |]. now apply Hrange. }
  destruct (isFiltered_defined Rad _ _ (selected_at_cursor _ _ _ H (Hin j))) as [f Hf].
  exists j, (negb f). rewrite Hres. cbn [bind]. rewrite Hf. cbn [bind].
  split; [lia |]. split; [destruct f; reflexivity |].
  split; [rewrite negb_involutive; reflexivity |].
  split; [exact Hskip |].
  intros Hlt. specialize (Hlast Hlt). rewrite Hf in Hlast.
  injection Hlast as ->. reflexivity.
Qed.

Lemma incIndex_spec (st : state) (c : catalog_t) :
  selected st c ->
  exists (k : Z) (b : bool),
    1 <= k <= NumObjects c /\
    incIndex Rad st = Some (b, at_cursor st c ((Index c + k) mod NumObjects c)) /\
    isFiltered Rad (at_cursor st c ((Index c + k) mod NumObjects c)) = Some (negb b) /\
    (forall j, 1 <= j < k ->
       isFiltered Rad (at_cursor st c ((Index c + j) mod NumObjects c)) = Some true) /\
    (k < NumObjects c -> b = true).
Proof.
  intros H. pose proof (sel_cursor _ _ H) as Hi.
  destruct (index_nav_spec inc_step next_inc st c inc_step_selected next_inc_range H)
    as (j & b & Hj & Hres & Hf & Hskip & Hlast).
  exists (Z.of_nat j), b.
  rewrite iter_next_inc in Hres, Hf by lia.
  split; [lia |]. split; [exact Hres |]. split; [exact Hf |]. split.
  - intros j' Hj'. specialize (Hskip (Z.to_nat j')).
    rewrite iter_next_inc in Hskip by lia.
    rewrite Z2Nat.id in Hskip by lia. apply Hskip. lia.
  - intros Hlt. apply Hlast. lia.
Qed.

Lemma decIndex_spec (st : state) (c : catalog_t) :
  selected st c ->
  exists (k : Z) (b : bool),
    1 <= k <= NumObjects c /\
    decIndex Rad st = Some (b, at_cursor st c ((Index c - k) mod NumObjects c)) /\
    isFiltered Rad (at_cursor st c ((Index c - k) mod NumObjects c)) = Some (negb b) /\
    (forall j, 1 <= j < k ->
       isFiltered Rad (at_cursor st c ((Index c - j) mod NumObjects c)) = Some true) /\
    (k < NumObjects c -> b = true).
Proof.
  intros H. pose proof (sel_cursor _ _ H) as Hi.
  destruct (index_nav_spec dec_step next_dec st c dec_step_selected next_dec_range H)
    as (j & b & Hj & Hres & Hf & Hskip & Hlast).
  exists (Z.of_nat j), b.
  rewrite iter_next_dec in Hres, Hf by lia.
  split; [lia |]. split; [exact Hres |]. split; [exact Hf |]. split.
  - intros j' Hj'. specialize (Hskip (Z.to_nat j')).
    rewrite iter_next_dec in Hskip by lia.
    rewrite Z2Nat.id in Hskip by lia. apply Hskip. lia.
  - intros Hlt. apply Hlast. lia.
Qed.

Lemma incIndex_next_unfiltered (st : state) (c : catalog_t) :
  selected st c ->
  isFiltered Rad (at_cursor st c (next_inc (NumObjects c) (Index c))) = Some false ->
  incIndex Rad st = Some (true, at_cursor st c (next_inc (NumObjects c) (Index c))).
Proof.
  intros H Hf. pose proof (sel_cursor _ _ H) as Hi.
  destruct (incIndex_spec st c H) as (k & b & Hk & Hres & Hfin & Hskip & _).
  rewrite next_inc_mod in * by lia.
  assert (k = 1).
  { destruct (Z.eq_dec k 1) as [|Hne]; [assumption |].
    specialize (Hskip 1 ltac:(lia)). rewrite Hf in Hskip. discriminate. }
  subst k. rewrite Hf in Hfin. injection Hfin as Hb.
  destruct b; [exact Hres | discriminate].
Qed.

Lemma decIndex_next_unfiltered (st : state) (c : catalog_t) :
  selected st c ->
  isFiltered Rad (at_cursor st c (next_dec (NumObjects c) (Index c))) = Some false ->
  decIndex Rad st = Some (true, at_cursor st c (next_dec (NumObjects c) (Index c))).
Proof.
  intros H Hf. pose proof (sel_cursor _ _ H) as Hi.
  destruct (decIndex_spec st c H) as (k & b & Hk & Hres & Hfin & Hskip & _).
  rewrite next_dec_mod in * by lia.
  assert (k = 1).
  { destruct (Z.eq_dec k 1) as [|Hne]; [assumption |].
    specialize (Hskip 1 ltac:(lia)). rewrite Hf in Hskip. discriminate. }
  subst k. rewrite Hf in Hfin. injection Hfin as Hb.
  destruct b; [exact Hres | discriminate].
Qed.

(** C3: with no filter criterion enabled, [incIndex()] moves the cursor of
    a selected catalog from [p] to [p+1], or to 0 from the last index;
    [decIndex()] moves it to [p-1], or to the last index from 0; and
    [decIndex()] after [incIndex()] restores the state, hence the cursor. *)
Theorem empty_filter_round_trip (st : state) (c : catalog_t) :
  selected st c ->
  _fm (filt st) = FM_NONE ->
  incIndex Rad st
    = Some (true, at_cursor st c
                    (if Index c =? NumObjects c - 1 then 0 else Index c + 1)) /\
  decIndex Rad st
    = Some (true, at_cursor st c
                    (if Index c =? 0 then NumObjects c - 1 else Index c - 1)) /\
  (forall b st1, incIndex Rad st = Some (b, st1) ->
     decIndex Rad st1 = Some (true, st) /\ getIndex st1 = Some (next_inc (NumObjects c) (Index c))).
Proof.
  intros H Hfm. pose proof (sel_cursor _ _ H) as Hi.
  pose proof (selected_cur _ _ H) as Hc.
  assert (Hnone : forall i, isFiltered Rad (at_cursor st c i) = Some false).
  { intros i. apply isFiltered_no_filter. exact Hfm. }
  pose proof (incIndex_next_unfiltered st c H (Hnone _)) as Hinc.
  pose proof (decIndex_next_unfiltered st c H (Hnone _)) as Hdec.
  split; [exact Hinc |]. split; [exact Hdec |].
  intros b st1 Hst1. rewrite Hinc in Hst1. injection Hst1 as <- <-.
  pose proof (selected_at_cursor _ _ _ H (next_inc_range _ _ Hi)) as H1.
  split.
  - rewrite (decIndex_next_unfiltered _ _ H1).
    + cbn [NumObjects Index with_Index].
      rewrite at_cursor_twice, next_dec_inc by lia.
      now rewrite (at_cursor_same _ _ H).
    + cbn [NumObjects Index with_Index]. rewrite at_cursor_twice. apply Hnone.
  - unfold getIndex. now rewrite (cur_at_cursor _ _ _ Hc).
Qed.

(** C6 (amended): when the observer state is initialized and the
    magnitude ceiling is enabled, every position at which [incIndex()] or
    [decIndex()] returns [true] has a magnitude below the ceiling. *)
Theorem magnitude_ceiling_respected (st st' : state) (c : catalog_t) :
  selected st c ->
  isInitialized st = true ->
  has_bit (_fm (filt st)) FM_BY_MAG = true ->
  incIndex Rad st = Some (true, st') \/ decIndex Rad st = Some (true, st') ->
  exists m, magnitude st' = Some m /\ (m < _fm_mag_limit (filt st))%R.
Proof.
  intros H Hinit Hbit Hnav. pose proof (sel_cursor _ _ H) as Hi.
  assert (Hst' : exists q, 0 <= q < NumObjects c /\ st' = at_cursor st c q /\
                           isFiltered Rad st' = Some false).
  { destruct Hnav as [Hnav | Hnav].
    - destruct (incIndex_spec st c H) as (k & b & Hk & Hres & Hf & _).
      rewrite Hres in Hnav. injection Hnav as -> <-.
      eexists. split; [apply Z.mod_pos_bound; lia |]. split; [reflexivity | exact Hf].
    - destruct (decIndex_spec st c H) as (k & b & Hk & Hres & Hf & _).
      rewrite Hres in Hnav. injection Hnav as -> <-.
      eexists. split; [apply Z.mod_pos_bound; lia |]. split; [reflexivity | exact Hf]. }
  destruct Hst' as (q & Hq & -> & Hf).
  pose proof (selected_at_cursor _ _ _ H Hq) as H1.
  destruct (read_all_selected Rad _ _ H1) as [v Hv].
  rewrite (isFiltered_selected Rad _ _ _ H1 Hv) in Hf. injection Hf as Hf.
  destruct (read_all_inv Rad _ _ Hv) as (_ & _ & _ & _ & Hm & _).
  exists (r_magnitude v). split; [exact Hm |].
  unfold isFiltered_spec in Hf.
  replace (isInitialized (at_cursor st c q)) with true in Hf by (symmetry; exact Hinit).
  replace (filt (at_cursor st c q)) with (filt st) in Hf by reflexivity.
  destruct (_fm (filt st) =? FM_NONE) eqn:E.
  { apply Z.eqb_eq in E. rewrite E in Hbit. discriminate. }
  cbn [negb orb criteria List.existsb fst snd] in Hf.
  rewrite Hbit in Hf.
  repeat (apply orb_false_iff in Hf; destruct Hf as [? Hf]).
  match goal with
  | Hx : true && negb (flt _ _) = false |- _ =>
      cbn [andb] in Hx; apply negb_false_iff in Hx; apply flt_true_iff in Hx; exact Hx
  end.
Qed.

End Navigation.

(** ** Navigation is bounded *)

Lemma nav_loop_by_isFiltered (Rad : R) (step : state -> option state) (k : nat) :
  forall i st, nav_loop_by (isFiltered Rad) step k i st = nav_loop Rad step k i st.
Proof.
  induction k as [|k IH]; intros i st; cbn [nav_loop_by nav_loop]; [reflexivity |].
  destruct (step st) as [st1|]; [| reflexivity]. cbn [bind].
  destruct (isFiltered Rad st1) as [f|]; [| reflexivity]. cbn [bind].
  destruct (f && (0 <? wrap_long (i - 1))); [apply IH | reflexivity].
Qed.

(** The functions with [alt()] as a parameter are those of the model over
    real numbers when the parameter is that model's [alt]. *)
Lemma incIndex_by_isFiltered (Rad : R) (st : state) :
  incIndex_by (isFiltered_by Rad (alt Rad)) st = incIndex Rad st /\
  decIndex_by (isFiltered_by Rad (alt Rad)) st = decIndex Rad st.
Proof.
  change (isFiltered_by Rad (alt Rad)) with (isFiltered Rad).
  unfold incIndex_by, decIndex_by, incIndex, decIndex.
  destruct (getMaxIndex st) as [m|]; [| split; reflexivity]. cbn [bind].
  rewrite !nav_loop_by_isFiltered. split; reflexivity.
Qed.

Section NavigationBy.

Variable Rad : R.
Variable altitude : state -> option R.




Section LoopBy.

Variable filtered : state -> option bool.
Variable step : state -> option state.
Variable next : Z -> Z -> Z.

Hypothesis step_next : forall st c,
  selected st c ->
  step st = Some (at_cursor st c (next (NumObjects c) (Index c))).

Hypothesis next_range : forall N p, 0 <= p < N -> 0 <= next N p < N.



End LoopBy.





End NavigationBy.



(** ** Magnitude decoding *)

Section Decoding.

Ltac by_objects H :=
  let Ht := fresh "Ht" in
  let Ho := fresh "Ho" in
  let Hn := fresh "Hn" in
  let Hrec := fresh "Hrec" in
  destruct (selected_under_cursor _ _ H) as
    [a r Ht Ho Hn Hrec | a r Ht Ho Hn Hrec | a r Ht Ho Hn Hrec | a r Ht Ho Hn Hrec
    |a r Ht Ho Hn Hrec | a r Ht Ho Hn Hrec | a r Ht Ho Hn Hrec | a r Ht Ho Hn Hrec];
  rewrite Ht, Ho; simpl; rewrite ?Hrec, ?Hn; simpl.

Lemma magnitude_selected (st : state) (c : catalog_t) (m : Z) :
  selected st c ->
  stored_Mag (Objects c) (Z.to_nat (Index c)) = Some m ->
  magnitude st =
  Some (if is_compact (CatalogType c) then compact_mag m else (IZR m / 100)%R).
Proof.
  intros H. unfold magnitude.
  rewrite (selected_not_negative _ _ H), (selected_catalogType _ _ H). cbn [bind].
  by_objects H; intros Hm; injection Hm as <-; reflexivity.
Qed.

Lemma magnitude2_selected (st : state) (c : catalog_t) (m : Z) :
  selected st c ->
  stored_Mag2 (Objects c) (Z.to_nat (Index c)) = Some m ->
  magnitude2 st =
  Some (if is_compact (CatalogType c) then compact_mag m else (IZR m / 100)%R).
Proof.
  intros H. unfold magnitude2.
  rewrite (selected_not_negative _ _ H), (selected_catalogType _ _ H). cbn [bind].
  by_objects H; intros Hm; try discriminate; injection Hm as <-; reflexivity.
Qed.

(** C10: in the compact catalog types a stored magnitude byte 255 decodes
    to 99.9, which is not the scaled value 255/10-2.5, and any other byte
    [m] to [m/10-2.5]; in the full-precision types the stored value is
    divided by 100.  This holds for [magnitude()] and, where the record
    has a secondary magnitude, for [magnitude2()], which is 99.9 for the
    record types without one. *)
Theorem magnitude_decoding (st : state) (c : catalog_t) :
  selected st c ->
  (forall m, stored_Mag (Objects c) (Z.to_nat (Index c)) = Some m ->
     (is_compact (CatalogType c) = true -> m = 255 -> magnitude st = Some 99.9%R) /\
     (is_compact (CatalogType c) = true -> m <> 255 ->
      magnitude st = Some (IZR m / 10 - 2.5)%R) /\
     (is_full (CatalogType c) = true -> magnitude st = Some (IZR m / 100)%R)) /\
  (forall m, stored_Mag2 (Objects c) (Z.to_nat (Index c)) = Some m ->
     (is_compact (CatalogType c) = true -> m = 255 -> magnitude2 st = Some 99.9%R) /\
     (is_compact (CatalogType c) = true -> m <> 255 ->
      magnitude2 st = Some (IZR m / 10 - 2.5)%R) /\
     (is_full (CatalogType c) = true -> magnitude2 st = Some (IZR m / 100)%R)) /\
  (stored_Mag2 (Objects c) (Z.to_nat (Index c)) = None ->
   magnitude2 st = Some 99.9%R) /\
  (99.9 <> 255 / 10 - 2.5)%R.
Proof.
  intros H.
  assert (Hfull : is_full (CatalogType c) = true -> is_compact (CatalogType c) = false).
  { destruct (CatalogType c); simpl; congruence. }
  split; [| split; [| split; [| lra]]].
  3:{ unfold magnitude2.
      rewrite (selected_not_negative _ _ H), (selected_catalogType _ _ H). cbn [bind].
      by_objects H; intros Hm; try discriminate; reflexivity. }
  - intros m Hm. rewrite (magnitude_selected _ _ _ H Hm).
    split; [| split].
    + intros -> ->. reflexivity.
    + intros -> Hne. unfold compact_mag.
      destruct (m =? 255) eqn:E; [apply Z.eqb_eq in E; contradiction | reflexivity].
    + intros Hf. now rewrite (Hfull Hf).
  - intros m Hm. rewrite (magnitude2_selected _ _ _ H Hm).
    split; [| split].
    + intros -> ->. reflexivity.
    + intros -> Hne. unfold compact_mag.
      destruct (m =? 255) eqn:E; [apply Z.eqb_eq in E; contradiction | reflexivity].
    + intros Hf. now rewrite (Hfull Hf).
Qed.

End Decoding.

(** ** Name lookup *)

Section Names.

Lemma split_semicolon_cons (s : string) :
  exists e l, split_semicolon s = e :: l.
Proof.
  destruct s as [|c s]; simpl; [eauto |].
  destruct (is_semicolon c); [eauto |].
  destruct (split_semicolon s); eauto.
Qed.

Lemma find_start_suffix (s : string) :
  forall i n, 0 <= n <= LONG_MAX ->
    match find_start s i n with
    | Some j => i <= j /\ element_suffix s n = Some (string_from (Z.to_nat (j - i)) s)
    | None => element_suffix s n = None
    end.
Proof.
  unfold LONG_MAX.
  induction s as [|c s IH]; intros i n Hn; cbn [find_start element_suffix]; [reflexivity |].
  destruct (n =? 0) eqn:E.
  - split; [lia |]. now rewrite Z.sub_diag.
  - apply Z.eqb_neq in E. rewrite wrap_long_small by lia.
    specialize (IH (i + 1) (if is_semicolon c then n - 1 else n)).
    destruct (find_start s (i + 1) (if is_semicolon c then n - 1 else n)) as [j|].
    + destruct IH as [Hj Hs]; [destruct (is_semicolon c); lia |].
      split; [lia |]. rewrite Hs. f_equal.
      replace (Z.to_nat (j - i)) with (S (Z.to_nat (j - (i + 1)))) by lia.
      reflexivity.
    + apply IH. destruct (is_semicolon c); lia.
Qed.

Lemma element_suffix_spec (s : string) :
  forall n, 0 <= n ->
    match element_suffix s n with
    | Some t => t <> EmptyString /\ element s n = List.hd EmptyString (split_semicolon t)
    | None => element s n = EmptyString
    end.
Proof.
  induction s as [|c s IH]; intros n Hn; cbn [element_suffix].
  - unfold element. cbn [split_semicolon].
    destruct (Z.to_nat n) as [|[|k]]; reflexivity.
  - destruct (n =? 0) eqn:E.
    + apply Z.eqb_eq in E. subst n. split; [discriminate |].
      unfold element. cbn [Z.to_nat].
      destruct (split_semicolon_cons (String c s)) as (e & l & ->). reflexivity.
    + apply Z.eqb_neq in E.
      assert (Hel : element (String c s) n
                    = element s (if is_semicolon c then n - 1 else n)).
      { unfold element. cbn [split_semicolon].
        destruct (is_semicolon c).
        - replace (Z.to_nat n) with (S (Z.to_nat (n - 1))) by lia. reflexivity.
        - destruct (split_semicolon_cons s) as (e & l & ->).
          replace (Z.to_nat n) with (S (Z.to_nat (n - 1))) by lia. reflexivity. }
      rewrite Hel. apply IH. destruct (is_semicolon c); lia.
Qed.

Lemma copy_element_spec (t : string) :
  forall k, t <> EmptyString -> 0 <= k ->
    k + Z.of_nat (String.length (List.hd EmptyString (split_semicolon t))) < 40 ->
    copy_element t k = Some (Some (List.hd EmptyString (split_semicolon t))).
Proof.
  induction t as [|c t IH]; intros k Hne Hk Hlen; [congruence |].
  cbn [copy_element split_semicolon] in *.
  replace (40 <=? k) with false by (symmetry; apply Z.leb_gt; lia).
  destruct (is_semicolon c); [reflexivity |].
  destruct t as [|c' t'].
  - cbn [split_semicolon List.hd String.length] in *.
    replace (40 <=? k + 1) with false by (symmetry; apply Z.leb_gt; lia).
    reflexivity.
  - destruct (split_semicolon_cons (String c' t')) as (e & l & He).
    rewrite He in *. cbn [List.hd String.length] in *.
    rewrite (IH (k + 1)) by (try discriminate; lia).
    reflexivity.
Qed.

Lemma getElementFromString_spec (data : string) (n : Z) :
  0 <= n <= LONG_MAX ->
  (String.length (element data n) < 40)%nat ->
  getElementFromString (Some data) n = Some (element data n).
Proof.
  intros Hn Hlen. unfold getElementFromString. cbn [bind].
  pose proof (find_start_suffix data 0 n Hn) as Hf.
  destruct (find_start data 0 n) as [j|].
  - destruct Hf as [Hj Hs]. rewrite Z.sub_0_r in Hs.
    pose proof (element_suffix_spec data n (proj1 Hn)) as He.
    rewrite Hs in He. destruct He as [Hne He].
    rewrite copy_element_spec; [| exact Hne | lia | rewrite <- He; lia].
    cbn [bind]. now rewrite He.
  - pose proof (element_suffix_spec data n (proj1 Hn)) as He.
    rewrite Hf in He. now rewrite He.
Qed.

Lemma Has_name_at_flags (st : state) (c : catalog_t) (i : Z) :
  selected st c ->
  Has_name_at (CatalogType c) st i = at_index (name_flags (Objects c)) i.
Proof.
  intros [Hn He Ht Ho Hv Hl Hm Hi].
  destruct (Objects c) as [|a|a|a|a|a|a|a|a] eqn:EO; simpl in Ho;
    try (exfalso; apply Ht; symmetry; exact Ho);
    rewrite <- Ho in Hv |- *; simpl in Hv |- *; rewrite Hv; simpl;
    unfold at_index; destruct (i <? 0); simpl; try reflexivity;
    rewrite nth_error_map; destruct (nth_error a (Z.to_nat i)); reflexivity.
Qed.

Lemma count_set_cons (b : bool) (l : list bool) :
  count_set (b :: l) = (if b then 1 else 0) + count_set l.
Proof. unfold count_set. destruct b; simpl List.filter; simpl List.length; lia. Qed.

Lemma count_set_firstn_bounds (l : list bool) (k : nat) :
  0 <= count_set (firstn k l) <= Z.of_nat k.
Proof.
  revert l; induction k as [|k IH]; intros [|b l]; simpl firstn;
    try (unfold count_set; simpl; lia).
  rewrite count_set_cons. specialize (IH l). destruct b; lia.
Qed.

Lemma count_set_firstn_flagged (l : list bool) (p : nat) :
  nth_error l p = Some true -> 1 <= count_set (firstn (S p) l).
Proof.
  revert l; induction p as [|p IH]; intros [|b l] H; simpl in H; try discriminate.
  - injection H as ->. change (firstn 1 (true :: l)) with (true :: firstn 0 l).
    rewrite count_set_cons.
    pose proof (count_set_firstn_bounds l 0). lia.
  - change (firstn (S (S p)) (b :: l)) with (b :: firstn (S p) l).
    rewrite count_set_cons. specialize (IH l H). destruct b; lia.
Qed.

Lemma skipn_nth_error {A : Type} (l : list A) (n : nat) (x : A) :
  nth_error l n = Some x -> skipn n l = x :: skipn (S n) l.
Proof.
  revert l; induction n as [|n IH]; intros [|h t] H; simpl in H; try discriminate.
  - injection H as ->. reflexivity.
  - simpl. apply IH. exact H.
Qed.

Lemma count_flagged_spec (flags : list bool) (flag : Z -> option bool) :
  (forall i, flag i = at_index flags i) ->
  forall (k : nat) (i r : Z),
    0 <= i -> (Z.to_nat i + k <= List.length flags)%nat ->
    -2147483648 <= r -> r + Z.of_nat k <= 2147483647 ->
    count_flagged flag k i r
    = Some (r + count_set (firstn k (skipn (Z.to_nat i) flags))).
Proof.
  intros Hflag. induction k as [|k IH]; intros i r Hi Hlen Hr Hrk.
  - simpl. unfold count_set. simpl. now rewrite Z.add_0_r.
  - cbn [count_flagged]. rewrite Hflag, at_index_nth by lia.
    destruct (nth_error flags (Z.to_nat i)) as [b|] eqn:E.
    2:{ apply nth_error_None in E. lia. }
    cbn [bind]. rewrite (skipn_nth_error _ _ _ E).
    cbn [firstn]. rewrite count_set_cons.
    rewrite IH; [| lia | lia | destruct b; rewrite ?wrap_long_small; lia
                | destruct b; rewrite ?wrap_long_small; lia].
    replace (Z.to_nat (i + 1)) with (S (Z.to_nat i)) by lia.
    destruct b; rewrite ?wrap_long_small by lia; f_equal; lia.
Qed.

Lemma objectName_unfold (st : state) (c : catalog_t) :
  selected st c ->
  objectName st =
  (named <- Has_name_at (CatalogType c) st (Index c) ;;
   if negb named then Some (-1) else
   m <- getMaxIndex st ;;
   let j := if m <? Index c then -1 else Index c in
   if j <? 0 then Some (-1) else
   count_flagged (Has_name_at (CatalogType c) st) (Z.to_nat (j + 1)) 0 (-1)).
Proof.
  intros H. unfold objectName.
  rewrite (selected_not_negative _ _ H), (selected_catalogType _ _ H),
    (selected_cur _ _ H).
  cbn [bind]. pose proof (sel_type _ _ H) as Ht.
  destruct (CatalogType c); try reflexivity. congruence.
Qed.

Lemma objectName_selected (st : state) (c : catalog_t) (named : bool) :
  selected st c ->
  nth_error (name_flags (Objects c)) (Z.to_nat (Index c)) = Some named ->
  objectName st =
  Some (if named
        then count_set (firstn (S (Z.to_nat (Index c))) (name_flags (Objects c))) - 1
        else -1).
Proof.
  intros H Hnamed. pose proof (sel_cursor _ _ H) as Hi.
  pose proof (sel_max _ _ H) as Hm. unfold LONG_MAX in Hm.
  rewrite (objectName_unfold _ _ H), (Has_name_at_flags _ _ _ H).
  rewrite at_index_nth, Hnamed by lia. cbn [bind].
  destruct named; cbn [negb]; [| reflexivity].
  rewrite (selected_getMaxIndex _ _ H). cbn [bind].
  replace (NumObjects c - 1 <? Index c) with false by (symmetry; apply Z.ltb_ge; lia).
  cbv zeta.
  replace (Index c <? 0) with false by (symmetry; apply Z.ltb_ge; lia).
  assert (Hlen : (Z.to_nat (Index c) < List.length (name_flags (Objects c)))%nat).
  { apply nth_error_Some. congruence. }
  rewrite (count_flagged_spec (name_flags (Objects c))).
  - replace (Z.to_nat (Index c + 1)) with (S (Z.to_nat (Index c))) by lia.
    cbn [Z.to_nat skipn]. f_equal. lia.
  - intros i. apply (Has_name_at_flags _ _ _ H).
  - lia.
  - cbn [Z.to_nat]. lia.
  - lia.
  - lia.
Qed.

(** C7 (amended): on a selected catalog, a record without the has-name
    flag has name code -1 and the empty name; a record with the flag has
    as code the number of flagged records up to and including it, minus
    one, and as name that element of the semicolon-delimited table,
    provided the element has fewer than 40 characters (the size of the
    result buffer). *)
Theorem object_name_lookup (st : state) (c : catalog_t) :
  selected st c ->
  (nth_error (name_flags (Objects c)) (Z.to_nat (Index c)) = Some false ->
   objectName st = Some (-1) /\ objectNameStr st = Some EmptyString) /\
  (nth_error (name_flags (Objects c)) (Z.to_nat (Index c)) = Some true ->
   let ordinal :=
     count_set (firstn (S (Z.to_nat (Index c))) (name_flags (Objects c))) - 1 in
   objectName st = Some ordinal /\
   0 <= ordinal /\
   forall names,
     ObjectNames c = Some names ->
     (String.length (element names ordinal) < 40)%nat ->
     objectNameStr st = Some (element names ordinal)).
Proof.
  intros H. pose proof (sel_cursor _ _ H) as Hi.
  pose proof (sel_max _ _ H) as Hm. unfold LONG_MAX in Hm.
  split; intros Hflag.
  - pose proof (objectName_selected _ _ _ H Hflag) as Hn. cbv iota in Hn.
    split; [exact Hn |].
    unfold objectNameStr. rewrite (selected_not_negative _ _ H), Hn. reflexivity.
  - pose proof (objectName_selected _ _ _ H Hflag) as Hn. cbv iota in Hn.
    pose proof (count_set_firstn_flagged _ _ Hflag) as Hge.
    pose proof (count_set_firstn_bounds (name_flags (Objects c))
                  (S (Z.to_nat (Index c)))) as Hle.
    cbv zeta. split; [exact Hn |]. split; [lia |].
    intros names Hnames Hlen.
    unfold objectNameStr. rewrite (selected_not_negative _ _ H), Hn. cbn [bind].
    match goal with
    | |- (if 0 <=? ?o then _ else _) = _ =>
        replace (0 <=? o) with true by (symmetry; apply Z.leb_le; lia)
    end.
    rewrite (selected_cur _ _ H). cbn [bind]. rewrite Hnames.
    apply getElementFromString_spec; [unfold LONG_MAX; lia | exact Hlen].
Qed.

End Names.

(** ** Coordinate transforms *)

Lemma while_neg_exit (k : nat) :
  forall x : R, (0 <= x + 360 * INR k)%R ->
    flt (while_R k (fun h => flt h 0) (fun h => h + 360)%R x) 0 = false.
Proof.
  induction k as [|k IH]; intros x Hx; cbn [while_R].
  - simpl in Hx. apply flt_false_iff. lra.
  - destruct (flt x 0) eqn:E; [| exact E].
    apply IH. rewrite S_INR in Hx. lra.
Qed.

Lemma while_ge_exit (k : nat) :
  forall x : R, (x - 360 * INR k < 360)%R ->
    fge (while_R k (fun h => fge h 360) (fun h => h - 360)%R x) 360 = false.
Proof.
  induction k as [|k IH]; intros x Hx; cbn [while_R].
  - simpl in Hx. unfold fge. apply fle_false_iff. lra.
  - destruct (fge x 360) eqn:E; [| exact E].
    apply IH. rewrite S_INR in Hx. lra.
Qed.

Lemma while_ge_nonneg (k : nat) :
  forall x : R, (0 <= x)%R ->
    (0 <= while_R k (fun h => fge h 360) (fun h => h - 360)%R x)%R.
Proof.
  induction k as [|k IH]; intros x Hx; cbn [while_R]; [exact Hx |].
  destruct (fge x 360) eqn:E; [| exact Hx].
  apply IH. unfold fge in E. apply fle_true_iff in E. lra.
Qed.

Lemma INR_to_nat_up (r : R) : (0 <= r)%R -> (r < INR (Z.to_nat (up r)))%R.
Proof.
  intros Hr. destruct (archimed r) as [Hup _].
  assert (0 <= up r)%Z.
  { apply le_IZR. lra. }
  rewrite INR_IZR_INZ, Z2Nat.id by assumption. lra.
Qed.

(** The first normalisation loop ends by its own condition. *)
Lemma add360_while_neg_exit (x : R) : flt (add360_while_neg x) 0 = false.
Proof.
  unfold add360_while_neg. apply while_neg_exit.
  destruct (Rle_dec 0 x) as [Hx | Hx].
  - pose proof (pos_INR (Z.to_nat (up (- x / 360)))). lra.
  - pose proof (INR_to_nat_up (- x / 360) ltac:(lra)). lra.
Qed.

(** So does the second one. *)
Lemma sub360_while_ge_exit (x : R) : fge (sub360_while_ge x) 360 = false.
Proof.
  unfold sub360_while_ge. apply while_ge_exit.
  destruct (Rle_dec 0 x) as [Hx | Hx].
  - pose proof (INR_to_nat_up (x / 360) ltac:(lra)). lra.
  - pose proof (pos_INR (Z.to_nat (up (x / 360)))). lra.
Qed.

Lemma normalised_range (x : R) :
  (0 <= sub360_while_ge (add360_while_neg x) < 360)%R.
Proof.
  pose proof (add360_while_neg_exit x) as H1. apply flt_false_iff in H1.
  pose proof (sub360_while_ge_exit (add360_while_neg x)) as H2.
  unfold fge in H2. apply fle_false_iff in H2.
  split; [| exact H2].
  unfold sub360_while_ge. apply while_ge_nonneg. exact H1.
Qed.

Section Transforms.

Variable Rad : R.


(** *** Refraction *)

Local Open Scope R_scope.

Lemma INR_fact (n : nat) (z : Z) : Z.of_nat (fact n) = z -> INR (fact n) = IZR z.
Proof. intros <-. apply INR_IZR_INZ. Qed.

Lemma sin_cubic_bound (x : R) : 0 <= x <= 4 -> x - x * x * x / 6 <= sin x.
Proof.
  intros [H0 H4]. destruct (pre_sin_bound x 0 H0 H4) as [Hl _].
  change (2 * 0 + 1)%nat with 1%nat in Hl.
  unfold sin_approx, sin_term in Hl. cbn [sum_f_R0 Nat.mul Nat.add] in Hl.
  rewrite (INR_fact 1 1), (INR_fact 3 6) in Hl by reflexivity.
  eapply Rle_trans; [| exact Hl]. apply Req_le. simpl pow. field.
Qed.

Lemma cos_quadratic_bound (x : R) : -2 <= x <= 2 -> 1 - x ^ 2 / 2 <= cos x.
Proof.
  intros [H0 H4]. destruct (pre_cos_bound x 0 H0 H4) as [Hl _].
  change (2 * 0 + 1)%nat with 1%nat in Hl.
  unfold cos_approx, cos_term in Hl. cbn [sum_f_R0 Nat.mul Nat.add] in Hl.
  rewrite (INR_fact 0 1), (INR_fact 2 2) in Hl by reflexivity.
  eapply Rle_trans; [| exact Hl]. apply Req_le; field.
Qed.

Lemma cos_octic_bounds (x : R) :
  -2 <= x <= 2 ->
  1 - x ^ 2 / 2 + x ^ 4 / 24 - x ^ 6 / 720 <= cos x
  <= 1 - x ^ 2 / 2 + x ^ 4 / 24 - x ^ 6 / 720 + x ^ 8 / 40320.
Proof.
  intros [H0 H4]. destruct (pre_cos_bound x 1 H0 H4) as [Hl Hu].
  change (2 * 1 + 1)%nat with 3%nat in Hl.
  change (2 * (1 + 1))%nat with 4%nat in Hu.
  unfold cos_approx, cos_term in Hl, Hu. cbn [sum_f_R0 Nat.mul Nat.add] in Hl, Hu.
  rewrite (INR_fact 0 1), (INR_fact 2 2), (INR_fact 4 24), (INR_fact 6 720) in Hl, Hu
    by reflexivity.
  rewrite (INR_fact 8 40320) in Hu by reflexivity.
  split; [eapply Rle_trans; [| exact Hl] | eapply Rle_trans; [exact Hu |]];
    apply Req_le; field.
Qed.

Lemma TrueRefrac_Rmax (Alt Pressure Temperature : R) :
  TrueRefrac Rad Alt Pressure Temperature =
  Rmax 0 (1.02 * cot ((Alt + 10.3 / (Alt + 5.11)) / Rad)
          * (Pressure / 1010) * (283 / (273 + Temperature))).
Proof.
  unfold TrueRefrac. cbv zeta.
  set (c := cot ((Alt + 10.3 / (Alt + 5.11)) / Rad)).
  replace (1.02 * c * (Pressure / 1010) * (283 / (273 + Temperature)))
    with (1.02 * c * (Pressure / 1010 * (283 / (273 + Temperature)))) by ring.
  set (r := 1.02 * c * (Pressure / 1010 * (283 / (273 + Temperature)))).
  unfold Rmax, flt. destruct (Rlt_dec r 0), (Rle_dec 0 r); lra.
Qed.

Lemma TrueRefrac_standard_air (Alt : R) :
  sin ((Alt + 10.3 / (Alt + 5.11)) / Rad) > 0 ->
  cos ((Alt + 10.3 / (Alt + 5.11)) / Rad) > 0 ->
  TrueRefrac Rad Alt 1010 10 =
  1.02 * cos ((Alt + 10.3 / (Alt + 5.11)) / Rad)
  / sin ((Alt + 10.3 / (Alt + 5.11)) / Rad).
Proof.
  intros Hs Hc. unfold TrueRefrac, cot, tan.
  set (x := (Alt + 10.3 / (Alt + 5.11)) / Rad) in *.
  assert (Hr : 1.02 * (1 / (sin x / cos x)) * (1010 / 1010 * (283 / (273 + 10)))
               = 1.02 * cos x / sin x) by (field; lra).
  rewrite Hr.
  assert (Hpos : 0 < 1.02 * cos x / sin x).
  { apply Rdiv_lt_0_compat; lra. }
  replace (flt (1.02 * cos x / sin x) 0) with false; [reflexivity |].
  symmetry. apply flt_false_iff. lra.
Qed.

Lemma ratio_bounds (s c lo hi : R) :
  0 < s -> lo * s < 1.02 * c -> 1.02 * c < hi * s -> lo < 1.02 * c / s < hi.
Proof.
  intros Hs Hlo Hhi. split.
  - apply (Rmult_lt_reg_r s); [exact Hs |].
    replace (1.02 * c / s * s) with (1.02 * c) by (field; lra). exact Hlo.
  - apply (Rmult_lt_reg_r s); [exact Hs |].
    replace (1.02 * c / s * s) with (1.02 * c) by (field; lra). exact Hhi.
Qed.

Lemma refraction_at_horizon :
  57.29 <= Rad <= 57.30 -> 28.9 < TrueRefrac Rad 0 1010 10 < 29.1.
Proof.
  intros HRad.
  set (x := (0 + 10.3 / (0 + 5.11)) / Rad).
  assert (Hx : 0.03517 < x < 0.03519).
  { assert (Hq : x * Rad = 10.3 / 5.11) by (unfold x; field; lra).
    split; apply (Rmult_lt_reg_r Rad); try lra; rewrite Hq; nra. }
  assert (Hx2 : x ^ 2 < 0.00124) by nra.
  assert (Hx3 : x * x * x < 0.00005) by nra.
  pose proof (sin_cubic_bound x ltac:(lra)) as Hs1.
  pose proof (sin_lt_x x ltac:(lra)) as Hs2.
  pose proof (cos_quadratic_bound x ltac:(lra)) as Hc1.
  pose proof (COS_bound x) as [_ Hc2].
  rewrite TrueRefrac_standard_air; fold x; try lra.
  apply ratio_bounds; lra.
Qed.

Lemma refraction_at_89 :
  57.29 <= Rad <= 57.30 -> 0.01 < TrueRefrac Rad 89 1010 10 < 0.02.
Proof.
  intros HRad.
  set (x := (89 + 10.3 / (89 + 5.11)) / Rad).
  assert (Hx : 1.55513 < x < 1.55542).
  { assert (Hq : x * Rad = 89 + 10.3 / (89 + 5.11)) by (unfold x; field; lra).
    split; apply (Rmult_lt_reg_r Rad); try lra; rewrite Hq; nra. }
  assert (Hx2 : 2.41842 < x ^ 2 < 2.41934) by nra.
  assert (Hx4 : 5.84875 < x ^ 4 < 5.85321).
  { replace (x ^ 4) with (x ^ 2 * x ^ 2) by ring. nra. }
  assert (Hx6 : 14.1447 < x ^ 6 < 14.1609).
  { replace (x ^ 6) with (x ^ 4 * x ^ 2) by ring. nra. }
  assert (Hx8 : x ^ 8 < 34.27).
  { replace (x ^ 8) with (x ^ 4 * x ^ 4) by ring. nra. }
  assert (Hx3 : x * x * x < 3.7632).
  { replace (x * x * x) with (x ^ 2 * x) by ring. nra. }
  pose proof (cos_octic_bounds x ltac:(lra)) as [Hc1 Hc2].
  pose proof (sin_cubic_bound x ltac:(lra)) as Hs1.
  pose proof (SIN_bound x) as [_ Hs2].
  rewrite TrueRefrac_standard_air; fold x; try lra.
  apply ratio_bounds; lra.
Qed.

(** C9: [TrueRefrac] is the maximum of 0 and
    [1.02 * cot((Alt + 10.3/(Alt+5.11))/Rad) * (P/1010) * (283/(273+T))],
    hence never negative; with the degrees-per-radian constant between
    57.29 and 57.30 and the default pressure and temperature it is between
    28.9 and 29.1 arc-minutes at altitude 0 (within a factor of two of 34,
    the order of the horizon refraction) and between 0.01 and 0.02
    arc-minutes at altitude 89. *)
Theorem TrueRefrac_formula :
  (forall Alt P T,
     TrueRefrac Rad Alt P T =
     Rmax 0 (1.02 * cot ((Alt + 10.3 / (Alt + 5.11)) / Rad)
             * (P / 1010) * (283 / (273 + T)))) /\
  (forall Alt P T, 0 <= TrueRefrac Rad Alt P T) /\
  (57.29 <= Rad <= 57.30 ->
   28.9 < TrueRefrac Rad 0 1010 10 < 29.1 /\
   34 / 2 < TrueRefrac Rad 0 1010 10 < 34 * 2 /\
   0.01 < TrueRefrac Rad 89 1010 10 < 0.02).
Proof.
  split; [exact TrueRefrac_Rmax |]. split.
  - intros Alt P T. rewrite TrueRefrac_Rmax. apply Rmax_l.
  - intros HRad. pose proof (refraction_at_horizon HRad) as H0.
    split; [exact H0 |]. split; [lra |]. apply refraction_at_89. exact HRad.
Qed.

End Transforms.

(** ** Concrete runs on the demonstration registry *)

Lemma demo_selected_ok (i : Z) (o : observer) (f : filter) :
  0 <= i < 7 -> selected (demo_selected i o f) (demo_stars_entry i).
Proof.
  intros Hi. constructor; simpl; try reflexivity; try lia.
  - discriminate.
  - unfold LONG_MAX. lia.
Qed.

Lemma demo_select_stars :
  select 64 0 demo_state
  = Some (demo_selected 0 demo_observer_unset demo_filter_none).
Proof. reflexivity. Qed.

Lemma demo_filterAdd_magnitude (i : Z) (o : observer) :
  filterAdd_param FM_BY_MAG 0 (demo_selected i o demo_filter_none)
  = demo_selected i o demo_filter_mag.
Proof. reflexivity. Qed.

Lemma demo_setLstT0 (i : Z) (f : filter) :
  setLstT0 1 (demo_selected i (mk_observer 0 1 0 0 0 0 0) f)
  = demo_selected i demo_observer_set f.
Proof. reflexivity. Qed.

Lemma demo_unset_uninitialized (i : Z) (f : filter) :
  isInitialized (demo_selected i demo_observer_unset f) = false.
Proof.
  unfold isInitialized. simpl.
  replace (flt 9999 9999) with false; [reflexivity |].
  symmetry. apply flt_false_iff. lra.
Qed.

Lemma demo_set_initialized (i : Z) (f : filter) :
  isInitialized (demo_selected i demo_observer_set f) = true.
Proof.
  unfold isInitialized, fne. simpl.
  replace (flt 0 9999) with true by (symmetry; apply flt_true_iff; lra).
  replace (feq 1 0) with false by (symmetry; apply feq_false_iff; lra).
  reflexivity.
Qed.

Lemma isFiltered_magnitude_only (Rad : R) (st : state) (m : R) (d : bool) :
  isInitialized st = true ->
  _fm (filt st) = FM_BY_MAG ->
  isDsoCatalog st = Some d ->
  magnitude st = Some m ->
  isFiltered Rad st = Some (fge m (_fm_mag_limit (filt st))).
Proof.
  intros Hi Hf Hd Hm. unfold isFiltered. rewrite Hi, Hf, Hd, Hm. cbn.
  rewrite andb_false_r. cbn. destruct (fge m (_fm_mag_limit (filt st))); reflexivity.
Qed.

Lemma demo_incIndex_uninitialized :
  incIndex demo_Rad (demo_selected 0 demo_observer_unset demo_filter_mag)
  = Some (true, demo_selected 1 demo_observer_unset demo_filter_mag).
Proof.
  apply (incIndex_next_unfiltered demo_Rad _ _
           (demo_selected_ok 0 demo_observer_unset demo_filter_mag ltac:(lia))).
  apply isFiltered_uninitialized.
  apply (demo_unset_uninitialized 1 demo_filter_mag).
Qed.

Lemma demo_incIndex_magnitude :
  incIndex demo_Rad (demo_selected 1 demo_observer_set demo_filter_mag)
  = Some (true, demo_selected 2 demo_observer_set demo_filter_mag).
Proof.
  apply (incIndex_next_unfiltered demo_Rad _ _
           (demo_selected_ok 1 demo_observer_set demo_filter_mag ltac:(lia))).
  change (isFiltered demo_Rad (demo_selected 2 demo_observer_set demo_filter_mag)
          = Some false).
  rewrite (isFiltered_magnitude_only demo_Rad _ (IZR 25 / 10 - 2.5)%R false);
    try reflexivity.
  - f_equal. unfold fge. apply fle_false_iff. simpl. lra.
  - apply demo_set_initialized.
Qed.

(** C6 (as stated) fails: with the magnitude ceiling 10 enabled but the
    observer state not initialized, [incIndex()] returns [true] on a
    record of magnitude 99.9. *)
Lemma magnitude_ceiling_ignored_uninitialized :
  selected (demo_selected 0 demo_observer_unset demo_filter_mag) (demo_stars_entry 0) /\
  has_bit (_fm (filt (demo_selected 0 demo_observer_unset demo_filter_mag))) FM_BY_MAG
  = true /\
  _fm_mag_limit (filt (demo_selected 0 demo_observer_unset demo_filter_mag)) = 10%R /\
  incIndex demo_Rad (demo_selected 0 demo_observer_unset demo_filter_mag)
  = Some (true, demo_selected 1 demo_observer_unset demo_filter_mag) /\
  magnitude (demo_selected 1 demo_observer_unset demo_filter_mag) = Some 99.9%R /\
  ~ (99.9 < 10)%R.
Proof.
  split; [apply demo_selected_ok; lia |].
  split; [reflexivity |].
  split; [reflexivity |].
  split; [exact demo_incIndex_uninitialized |].
  split; [reflexivity | lra].
Qed.

Lemma unselected_accessors_witness :
  -1 < 0 /\
  magnitude (with_selected demo_state (-1)) = Some 99.9%R /\
  dec (with_selected demo_state (-1)) = None.
Proof.
  assert (Hneg : -1 < 0) by lia.
  split; [exact Hneg |].
  pose proof (unselected_accessors 64 (-1) demo_state (with_selected demo_state (-1))
                (or_introl Hneg) eq_refl) as H.
  split; [apply H | apply H].
Defined.

Lemma empty_filter_round_trip_witness :
  incIndex demo_Rad (demo_selected 6 demo_observer_unset demo_filter_none)
  = Some (true, demo_selected 0 demo_observer_unset demo_filter_none) /\
  decIndex demo_Rad (demo_selected 6 demo_observer_unset demo_filter_none)
  = Some (true, demo_selected 5 demo_observer_unset demo_filter_none) /\
  decIndex demo_Rad (demo_selected 0 demo_observer_unset demo_filter_none)
  = Some (true, demo_selected 6 demo_observer_unset demo_filter_none).
Proof.
  pose proof (empty_filter_round_trip demo_Rad
                (demo_selected 6 demo_observer_unset demo_filter_none)
                (demo_stars_entry 6)
                (demo_selected_ok 6 _ _ ltac:(lia)) eq_refl) as (Hi & Hd & Hr).
  split; [exact Hi |]. split; [exact Hd |].
  exact (proj1 (Hr _ _ Hi)).
Defined.





Lemma magnitude_ceiling_respected_witness :
  isInitialized (demo_selected 1 demo_observer_set demo_filter_mag) = true /\
  exists m,
    magnitude (demo_selected 2 demo_observer_set demo_filter_mag) = Some m /\
    (m < 10)%R.
Proof.
  split; [apply demo_set_initialized |].
  exact (magnitude_ceiling_respected demo_Rad
           (demo_selected 1 demo_observer_set demo_filter_mag)
           (demo_selected 2 demo_observer_set demo_filter_mag)
           (demo_stars_entry 1)
           (demo_selected_ok 1 _ _ ltac:(lia))
           (demo_set_initialized 1 demo_filter_mag)
           eq_refl
           (or_introl demo_incIndex_magnitude)).
Defined.

Lemma object_name_lookup_witness :
  objectNameStr (demo_selected 2 demo_observer_unset demo_filter_none)
  = Some "Vega"%string /\
  objectNameStr (demo_selected 5 demo_observer_unset demo_filter_none)
  = Some "Polaris"%string /\
  objectNameStr (demo_selected 0 demo_observer_unset demo_filter_none)
  = Some EmptyString /\
  objectNameStr (demo_selected 1 demo_observer_unset demo_filter_none)
  = Some EmptyString /\
  objectNameStr (demo_selected 3 demo_observer_unset demo_filter_none)
  = Some EmptyString /\
  objectNameStr (demo_selected 4 demo_observer_unset demo_filter_none)
  = Some EmptyString /\
  objectNameStr (demo_selected 6 demo_observer_unset demo_filter_none)
  = Some EmptyString.
Proof.
  assert (Hshort : forall n : nat, (n <? 40)%nat = true -> (n < 40)%nat).
  { intros n. apply Nat.ltb_lt. }
  assert (Hin : forall i, (0 <=? i) && (i <? 7) = true -> 0 <= i < 7).
  { intros i H. apply andb_true_iff in H. destruct H as [H1 H2].
    apply Z.leb_le in H1. apply Z.ltb_lt in H2. split; assumption. }
  split.
  { apply (proj2 (proj2 (proj2 (object_name_lookup _ _
             (demo_selected_ok 2 demo_observer_unset demo_filter_none
                (Hin 2 eq_refl))) eq_refl)) "Vega;Polaris"%string eq_refl).
    apply Hshort. reflexivity. }
  split.
  { apply (proj2 (proj2 (proj2 (object_name_lookup _ _
             (demo_selected_ok 5 demo_observer_unset demo_filter_none
                (Hin 5 eq_refl))) eq_refl)) "Vega;Polaris"%string eq_refl).
    apply Hshort. reflexivity. }
  split.
  { apply (proj1 (object_name_lookup _ _
             (demo_selected_ok 0 demo_observer_unset demo_filter_none
                (Hin 0 eq_refl)))). reflexivity. }
  split.
  { apply (proj1 (object_name_lookup _ _
             (demo_selected_ok 1 demo_observer_unset demo_filter_none
                (Hin 1 eq_refl)))). reflexivity. }
  split.
  { apply (proj1 (object_name_lookup _ _
             (demo_selected_ok 3 demo_observer_unset demo_filter_none
                (Hin 3 eq_refl)))). reflexivity. }
  split.
  { apply (proj1 (object_name_lookup _ _
             (demo_selected_ok 4 demo_observer_unset demo_filter_none
                (Hin 4 eq_refl)))). reflexivity. }
  { apply (proj1 (object_name_lookup _ _
             (demo_selected_ok 6 demo_observer_unset demo_filter_none
                (Hin 6 eq_refl)))). reflexivity. }
Defined.


Lemma TrueRefrac_formula_witness :
  (57.29 <= demo_Rad <= 57.30)%R /\
  (28.9 < TrueRefrac demo_Rad 0 1010 10 < 29.1)%R /\
  (34 / 2 < TrueRefrac demo_Rad 0 1010 10 < 34 * 2)%R /\
  (0.01 < TrueRefrac demo_Rad 89 1010 10 < 0.02)%R.
Proof.
  assert (HRad : (57.29 <= demo_Rad <= 57.30)%R) by (unfold demo_Rad; lra).
  split; [exact HRad |].
  exact (proj2 (proj2 (TrueRefrac_formula demo_Rad)) HRad).
Defined.

Lemma magnitude_decoding_witness :
  magnitude (demo_selected 1 demo_observer_unset demo_filter_none) = Some 99.9%R /\
  magnitude (demo_selected 0 demo_observer_unset demo_filter_none)
  = Some (200 / 10 - 2.5)%R.
Proof.
  assert (H0 : 0 <= 0 < 7) by lia.
  assert (H1 : 0 <= 1 < 7) by lia.
  assert (Hne : 200 <> 255) by lia.
  split.
  - exact (proj1 (proj1 (magnitude_decoding _ _
             (demo_selected_ok 1 demo_observer_unset demo_filter_none H1))
             255 eq_refl) eq_refl eq_refl).
  - exact (proj1 (proj2 (proj1 (magnitude_decoding _ _
             (demo_selected_ok 0 demo_observer_unset demo_filter_none H0))
             200 eq_refl)) eq_refl Hne).
Defined.

(** C7 (as stated) fails for long names: the only record of
    [demo_named_entry] is flagged and its name, element 0 of the table,
    has 40 characters; copying it writes [result[40]], behind the 40-byte
    buffer of [getElementFromString], so [objectNameStr()] has no defined
    result. *)
Lemma object_name_overflows_buffer :
  selected demo_named_state demo_named_entry /\
  nth_error (name_flags (Objects demo_named_entry))
            (Z.to_nat (Index demo_named_entry)) = Some true /\
  objectName demo_named_state = Some 0 /\
  ObjectNames demo_named_entry = Some demo_long_name /\
  element demo_long_name 0 = demo_long_name /\
  String.length demo_long_name = 40%nat /\
  objectNameStr demo_named_state = None.
Proof.
  split.
  { constructor; simpl; try reflexivity; try lia.
    - discriminate.
    - unfold LONG_MAX. lia. }
  repeat (split; [reflexivity |]). reflexivity.
Qed.

(** ** Further properties: the registry and selection *)

Section Registry.

Variable MaxCatalogs : Z.

Lemma numCatalogs_from_first_empty (cat : list catalog_t) (n : nat) :
  forall i k,
    0 <= i <= k -> k - i < Z.of_nat n ->
    (forall j, i <= j < k ->
       exists c, at_index cat j = Some c /\ NumObjects c <> 0) ->
    (exists c, at_index cat k = Some c /\ NumObjects c = 0) ->
    numCatalogs_from n i cat = Some k.
Proof.
  induction n as [|n IH]; intros i k Hik Hn Hfull Hempty; [lia |].
  cbn [numCatalogs_from].
  destruct (Z.eq_dec i k) as [-> | Hne].
  - destruct Hempty as (c & Hc & H0). rewrite Hc. cbn [bind].
    rewrite H0. reflexivity.
  - destruct (Hfull i ltac:(lia)) as (c & Hc & H0). rewrite Hc. cbn [bind].
    destruct (NumObjects c =? 0) eqn:E; [apply Z.eqb_eq in E; contradiction |].
    apply IH; try lia; auto.
    intros j Hj. apply Hfull. lia.
Qed.

Lemma numCatalogs_from_no_empty (cat : list catalog_t) (n : nat) :
  forall i,
    (forall j, i <= j < i + Z.of_nat n ->
       exists c, at_index cat j = Some c /\ NumObjects c <> 0) ->
    numCatalogs_from n i cat = Some 32.
Proof.
  induction n as [|n IH]; intros i Hfull; [reflexivity |].
  cbn [numCatalogs_from].
  destruct (Hfull i ltac:(lia)) as (c & Hc & H0). rewrite Hc. cbn [bind].
  destruct (NumObjects c =? 0) eqn:E; [apply Z.eqb_eq in E; contradiction |].
  apply IH. intros j Hj. apply Hfull. lia.
Qed.

(** X1: [numCatalogs()] is the index of the first registry entry with
    [NumObjects == 0] when that index is below [MaxCatalogs]; when the
    first [MaxCatalogs] entries all hold objects it is 32, whatever
    [MaxCatalogs] is. *)
Theorem numCatalogs_first_empty (st : state) :
  (forall k,
     0 <= k < MaxCatalogs ->
     (forall j, 0 <= j < k ->
        exists c, at_index (catalog st) j = Some c /\ NumObjects c <> 0) ->
     (exists c, at_index (catalog st) k = Some c /\ NumObjects c = 0) ->
     numCatalogs MaxCatalogs st = Some k) /\
  ((forall j, 0 <= j < MaxCatalogs ->
      exists c, at_index (catalog st) j = Some c /\ NumObjects c <> 0) ->
   numCatalogs MaxCatalogs st = Some 32).
Proof.
  split.
  - intros k Hk Hfull Hempty. unfold numCatalogs.
    apply numCatalogs_from_first_empty; auto; lia.
  - intros Hfull. unfold numCatalogs.
    apply numCatalogs_from_no_empty. intros j Hj. apply Hfull. lia.
Qed.

(** X2: for a number below [numCatalogs()] whose entry has a type tag,
    [select] keeps the number, binds the view of that type to the entry's
    record array, leaves every other view that it resets at NULL, and
    [catalogType()] then is the entry's tag; an entry tagged [CAT_NONE]
    ends with nothing selected.  The registry, observer and filter are
    not touched. *)
Theorem select_valid (n k : Z) (st : state) (c : catalog_t) :
  numCatalogs MaxCatalogs st = Some k ->
  0 <= n < k ->
  at_index (catalog st) n = Some c ->
  exists st',
    select MaxCatalogs n st = Some st' /\
    catalog st' = catalog st /\ obs st' = obs st /\ filt st' = filt st /\
    (CatalogType c = CAT_NONE -> _selected st' = -1) /\
    (CatalogType c <> CAT_NONE ->
     _selected st' = n /\
     view_of (CatalogType c) (view st') = Objects c /\
     catalogType st' = Some (CatalogType c)) /\
    (forall t, t <> CatalogType c -> t <> CAT_DBL_STAR_COMP -> t <> CAT_VAR_STAR ->
               view_of t (view st') = NULL).
Proof.
  intros Hk Hn Hc.
  unfold select.
  replace (n <? 0) with false by (symmetry; apply Z.ltb_ge; lia).
  unfold numCatalogs in *. cbn [catalog with_view]. rewrite Hk. cbn [bind].
  replace (k <=? n) with false by (symmetry; apply Z.leb_gt; lia).
  cbn [_selected with_selected].
  replace (0 <=? n) with true by (symmetry; apply Z.leb_le; lia).
  unfold cur. cbn [catalog _selected with_selected with_view]. rewrite Hc. cbn [bind].
  destruct (CatalogType c) eqn:Et;
    (eexists; split; [reflexivity |]);
    (split; [reflexivity |]); (split; [reflexivity |]); (split; [reflexivity |]);
    (split; [intros He; try discriminate; reflexivity |]);
    (split;
     [ intros _; split; [reflexivity |]; split; [reflexivity |];
       unfold catalogType, cur; cbn; rewrite Hc; cbn; now rewrite Et
     | intros t H1 H2 H3; destruct t; try congruence; reflexivity ])
    || (split; [intros He; congruence | intros t H1 H2 H3; destruct t; try congruence; reflexivity]).
Qed.

(** X3: selecting twice is selecting once: [select(n)] applied to the
    state [select(n)] produced gives that state again, for valid and
    invalid [n] alike. *)
Theorem select_idempotent (n : Z) (st st' : state) :
  select MaxCatalogs n st = Some st' ->
  select MaxCatalogs n st' = Some st'.
Proof.
  destruct st as [cat sel [v1 v2 v3 v4 v5 v6 v7 v8] o f ms].
  unfold select, numCatalogs, cur.
  cbn [view catalog _selected with_view with_selected set_genStarCatalog
       set_genStarVCompCatalog set_dblStarCatalog set_dsoCatalog set_dsoCompCatalog
       set_dsoVCompCatalog _genStarCatalog _genStarVCompCatalog _dblStarCatalog
       _dblStarCompCatalog _varStarCatalog _dsoCatalog _dsoCompCatalog
       _dsoVCompCatalog obs filt millis].
  destruct (n <? 0) eqn:En.
  { cbn [bind]. intros H. injection H as <-. reflexivity. }
  destruct (numCatalogs_from (Z.to_nat MaxCatalogs) 0 cat) as [k|] eqn:Ek;
    [| discriminate].
  cbn [bind].
  destruct (k <=? n) eqn:Ekn.
  { change (0 <=? -1) with false. cbv iota.
    intros H. injection H as <-.
    cbn [view catalog _selected with_view with_selected]. rewrite Ek. cbn [bind].
    rewrite Ekn. change (0 <=? -1) with false. reflexivity. }
  destruct (0 <=? n) eqn:E0; [| apply Z.ltb_ge in En; apply Z.leb_gt in E0; lia].
  destruct (at_index cat n) as [c|] eqn:Ec; [| discriminate].
  cbn [bind].
  destruct (CatalogType c) eqn:Et; intros H; injection H as <-;
    cbn [view catalog _selected with_view with_selected set_genStarCatalog
         set_genStarVCompCatalog set_dblStarCatalog set_dblStarCompCatalog
         set_varStarCatalog set_dsoCatalog set_dsoCompCatalog
         set_dsoVCompCatalog _genStarCatalog _genStarVCompCatalog _dblStarCatalog
         _dblStarCompCatalog _varStarCatalog _dsoCatalog _dsoCompCatalog
         _dsoVCompCatalog obs filt millis];
    rewrite Ek; cbn [bind]; rewrite Ekn, E0, Ec; cbn [bind]; rewrite Et; reflexivity.
Qed.

End Registry.

(** ** Further properties: navigation *)

Section NavigationMore.

Variable Rad : R.

(** X4: navigation keeps the invariant of the data model: after
    [incIndex()] or [decIndex()] on a selected catalog the catalog is
    still selected with the cursor in [0, NumObjects-1], and nothing but
    that cursor has changed. *)
Theorem navigation_keeps_selected (st st' : state) (c : catalog_t) (b : bool) :
  selected st c ->
  incIndex Rad st = Some (b, st') \/ decIndex Rad st = Some (b, st') ->
  exists q,
    0 <= q < NumObjects c /\
    st' = at_cursor st c q /\
    selected st' (with_Index c q) /\
    getIndex st' = Some q /\
    _selected st' = _selected st /\ view st' = view st /\
    obs st' = obs st /\ filt st' = filt st.
Proof.
  intros H Hnav. pose proof (sel_cursor _ _ H) as Hi.
  assert (Hq : exists q, 0 <= q < NumObjects c /\ st' = at_cursor st c q).
  { destruct Hnav as [Hnav | Hnav].
    - destruct (incIndex_spec Rad st c H) as (k & b' & Hk & Hres & _).
      rewrite Hres in Hnav. injection Hnav as _ <-.
      eexists. split; [apply Z.mod_pos_bound; lia | reflexivity].
    - destruct (decIndex_spec Rad st c H) as (k & b' & Hk & Hres & _).
      rewrite Hres in Hnav. injection Hnav as _ <-.
      eexists. split; [apply Z.mod_pos_bound; lia | reflexivity]. }
  destruct Hq as (q & Hq & ->). exists q.
  split; [exact Hq |]. split; [reflexivity |].
  split; [apply selected_at_cursor; assumption |].
  split.
  { unfold getIndex. now rewrite (cur_at_cursor _ _ _ (selected_cur _ _ H)). }
  repeat split; reflexivity.
Qed.

(** X5: under any filter, [decIndex()] undoes [incIndex()] when the
    starting record passes the filter: [incIndex()] then returns [true]
    and [decIndex()] on its result returns [true] with the original
    state. *)
Theorem filtered_round_trip (st st1 : state) (c : catalog_t) (b : bool) :
  selected st c ->
  isFiltered Rad st = Some false ->
  incIndex Rad st = Some (b, st1) ->
  b = true /\ decIndex Rad st1 = Some (true, st).
Proof.
  intros H Hp Hinc. pose proof (sel_cursor _ _ H) as Hi.
  set (N := NumObjects c) in *. set (p := Index c) in *.
  assert (Hat : at_cursor st c p = st) by (apply at_cursor_same; exact H).
  destruct (incIndex_spec Rad st c H) as (ki & bi & Hki & Hri & Hfi & Hsi & Hli).
  fold N p in Hki, Hri, Hfi, Hsi, Hli.
  rewrite Hri in Hinc. injection Hinc as <- <-.
  assert (Hw : 0 <= (p + ki) mod N < N) by (apply Z.mod_pos_bound; lia).
  assert (Hbi : bi = true).
  { destruct (Z.eq_dec ki N) as [-> | Hne]; [| apply Hli; lia].
    replace ((p + N) mod N) with p in Hfi.
    2:{ replace (p + N) with (p + 1 * N) by lia.
        rewrite Z.mod_add by lia. now rewrite Z.mod_small by lia. }
    rewrite Hat, Hp in Hfi. injection Hfi as Hfi. now destruct bi. }
  subst bi. split; [reflexivity |].
  pose proof (selected_at_cursor _ _ _ H Hw) as H1.
  destruct (decIndex_spec Rad _ _ H1) as (kd & bd & Hkd & Hrd & Hfd & Hsd & Hld).
  cbn [NumObjects Index with_Index] in Hkd, Hrd, Hfd, Hsd, Hld.
  fold N in Hkd, Hrd, Hfd, Hsd, Hld.
  rewrite at_cursor_twice in Hrd, Hfd.
  assert (Hskip : forall j, 1 <= j < kd ->
            isFiltered Rad (at_cursor st c (((p + ki) mod N - j) mod N)) = Some true).
  { intros j Hj. rewrite <- (at_cursor_twice st c ((p + ki) mod N)). now apply Hsd. }
  assert (Hmod : forall j, ((p + ki) mod N - j) mod N = (p + (ki - j)) mod N).
  { intros j. rewrite Zminus_mod_idemp_l. f_equal. lia. }
  assert (Hkk : kd = ki).
  { destruct (Z.lt_trichotomy kd ki) as [Hlt | [Heq | Hgt]]; [| exact Heq |].
    - exfalso. specialize (Hld ltac:(lia)). subst bd.
      rewrite Hmod in Hfd. rewrite (Hsi (ki - kd)) in Hfd by lia. discriminate.
    - exfalso. specialize (Hskip ki ltac:(lia)). rewrite Hmod in Hskip.
      replace (p + (ki - ki)) with p in Hskip by lia.
      rewrite Z.mod_small, Hat, Hp in Hskip by lia. discriminate. }
  subst kd. rewrite Hmod in Hrd, Hfd.
  replace (p + (ki - ki)) with p in Hrd, Hfd by lia.
  rewrite (Z.mod_small p N), Hat in Hrd, Hfd by lia.
  rewrite Hp in Hfd. injection Hfd as Hfd.
  destruct bd; [exact Hrd | discriminate].
Qed.

Lemma getMaxIndex_cur (st : state) (c : catalog_t) :
  cur st = Some c -> 1 <= NumObjects c <= LONG_MAX ->
  getMaxIndex st = Some (NumObjects c - 1).
Proof.
  intros Hc HN. unfold LONG_MAX in HN. unfold getMaxIndex. rewrite Hc. cbn [bind].
  now rewrite wrap_long_small by lia.
Qed.

Lemma dec_step_cur (st : state) (c : catalog_t) :
  cur st = Some c -> 1 <= NumObjects c <= LONG_MAX ->
  -2147483648 < Index c <= 2147483647 ->
  dec_step st
  = Some (at_cursor st c (if Index c - 1 <? 0 then NumObjects c - 1 else Index c - 1)).
Proof.
  intros Hc HN Hi. unfold dec_step. rewrite Hc. cbn [bind].
  rewrite (set_Index_cur _ _ _ Hc). cbn [bind].
  rewrite (cur_at_cursor _ _ _ Hc). cbn [bind Index with_Index].
  rewrite wrap_long_small by lia.
  destruct (Index c - 1 <? 0); [| reflexivity].
  rewrite (getMaxIndex_cur _ _ (cur_at_cursor _ _ _ Hc) HN). cbn [bind NumObjects with_Index].
  rewrite (set_Index_cur _ _ _ (cur_at_cursor _ _ _ Hc)).
  now rewrite at_cursor_twice.
Qed.

Lemma inc_step_cur (st : state) (c : catalog_t) :
  cur st = Some c -> 1 <= NumObjects c <= LONG_MAX ->
  -2147483648 <= Index c < 2147483647 ->
  inc_step st
  = Some (at_cursor st c (if NumObjects c - 1 <? Index c + 1 then 0 else Index c + 1)).
Proof.
  intros Hc HN Hi. unfold inc_step. rewrite Hc. cbn [bind].
  rewrite (set_Index_cur _ _ _ Hc). cbn [bind].
  rewrite (cur_at_cursor _ _ _ Hc). cbn [bind Index with_Index].
  rewrite (getMaxIndex_cur _ _ (cur_at_cursor _ _ _ Hc) HN). cbn [bind NumObjects with_Index].
  rewrite wrap_long_small by lia.
  destruct (NumObjects c - 1 <? Index c + 1); [| reflexivity].
  rewrite (set_Index_cur _ _ _ (cur_at_cursor _ _ _ Hc)).
  now rewrite at_cursor_twice.
Qed.

Lemma nav_loop_once (step : state -> option state) (k : nat) (i : Z)
      (st st1 : state) :
  step st = Some st1 -> isFiltered Rad st1 = Some false ->
  nav_loop Rad step k i st = Some st1.
Proof.
  intros Hs Hf. destruct k; cbn [nav_loop]; rewrite Hs; cbn [bind]; rewrite Hf;
    reflexivity.
Qed.

Lemma setIndex_clamps (st : state) (c : catalog_t) (index : Z) :
  cur st = Some c ->
  1 <= NumObjects c <= LONG_MAX ->
  _fm (filt st) = FM_NONE \/ isInitialized st = false ->
  -2147483648 < index <= 2147483647 ->
  setIndex Rad index st
  = Some (true, at_cursor st c
                  (if (0 <=? index) && (index <? NumObjects c) then index else 0)).
Proof.
  intros Hc HN Hnf Hidx.
  assert (Hnone : forall i, isFiltered Rad (at_cursor st c i) = Some false).
  { intros i. destruct Hnf as [Hf | Hu].
    - apply isFiltered_no_filter. exact Hf.
    - apply isFiltered_uninitialized. exact Hu. }
  destruct (cur_inv _ _ Hc) as [Hsel _].
  unfold setIndex.
  replace (_selected st <? 0) with false by (symmetry; apply Z.ltb_ge; lia).
  rewrite (set_Index_cur _ _ _ Hc). cbn [bind].
  pose proof (cur_at_cursor st c index Hc) as Hc1.
  set (q1 := if index - 1 <? 0 then NumObjects c - 1 else index - 1).
  assert (Hdec : decIndex Rad (at_cursor st c index) = Some (true, at_cursor st c q1)).
  { unfold decIndex. rewrite (getMaxIndex_cur _ _ Hc1 HN). cbn [bind].
    rewrite (nav_loop_once dec_step _ _ _ (at_cursor st c q1)).
    - cbn [bind]. now rewrite Hnone.
    - rewrite (dec_step_cur _ _ Hc1 HN) by (cbn [Index with_Index]; lia).
      cbn [Index NumObjects with_Index]. now rewrite at_cursor_twice.
    - apply Hnone. }
  rewrite Hdec. cbn [bind].
  pose proof (cur_at_cursor st c q1 Hc) as Hc2.
  assert (Hq1 : -2147483648 <= q1 < 2147483647).
  { unfold q1, LONG_MAX in *. destruct (index - 1 <? 0); lia. }
  set (q2 := if NumObjects c - 1 <? q1 + 1 then 0 else q1 + 1).
  assert (Hinc : incIndex Rad (at_cursor st c q1) = Some (true, at_cursor st c q2)).
  { unfold incIndex. rewrite (getMaxIndex_cur _ _ Hc2 HN). cbn [bind].
    rewrite (nav_loop_once inc_step _ _ _ (at_cursor st c q2)).
    - cbn [bind]. now rewrite Hnone.
    - rewrite (inc_step_cur _ _ Hc2 HN) by (cbn [Index with_Index]; lia).
      cbn [Index NumObjects with_Index]. now rewrite at_cursor_twice.
    - apply Hnone. }
  rewrite Hinc. do 3 f_equal.
  unfold q2, q1, LONG_MAX in *.
  destruct (index - 1 <? 0) eqn:E1; [apply Z.ltb_lt in E1 | apply Z.ltb_ge in E1].
  - replace (NumObjects c - 1 <? NumObjects c - 1 + 1) with true
      by (symmetry; apply Z.ltb_lt; lia).
    destruct (0 <=? index) eqn:E2; [apply Z.leb_le in E2 | reflexivity].
    assert (index = 0) by lia. subst index.
    replace (0 <? NumObjects c) with true by (symmetry; apply Z.ltb_lt; lia).
    reflexivity.
  - replace (index - 1 + 1) with index by lia.
    replace (0 <=? index) with true by (symmetry; apply Z.leb_le; lia).
    cbn [andb].
    destruct (index <? NumObjects c) eqn:E3; [apply Z.ltb_lt in E3 | apply Z.ltb_ge in E3].
    + replace (NumObjects c - 1 <? index) with false by (symmetry; apply Z.ltb_ge; lia).
      reflexivity.
    + replace (NumObjects c - 1 <? index) with true by (symmetry; apply Z.ltb_lt; lia).
      reflexivity.
Qed.

(** X6: with no criterion enabled, or with the observer state not
    initialized, [setIndex(index)] on a selected catalog returns [true]
    and leaves the cursor at [index] when [0 <= index < NumObjects] and at
    0 for every other [index] (above [LONG_MIN]); with nothing selected it
    returns [false] and changes nothing. *)
Theorem setIndex_without_filter (st : state) :
  (_selected st < 0 -> forall index, setIndex Rad index st = Some (false, st)) /\
  (forall c index,
     cur st = Some c ->
     1 <= NumObjects c <= LONG_MAX ->
     _fm (filt st) = FM_NONE \/ isInitialized st = false ->
     -2147483648 < index <= 2147483647 ->
     setIndex Rad index st
     = Some (true, at_cursor st c
                     (if (0 <=? index) && (index <? NumObjects c) then index else 0))).
Proof.
  split.
  - intros Hs index. unfold setIndex.
    replace (_selected st <? 0) with true by (symmetry; apply Z.ltb_lt; lia).
    reflexivity.
  - intros c index. apply setIndex_clamps.
Qed.


(** X25: going to an object by its number.  In the catalogs whose
    records carry no id of their own (the very compact star and deep-sky
    types) [primaryId()] is the cursor plus one, so with no criterion
    enabled, or with the observer state not initialized,
    [setIndex(id-1)] returns [true] and [primaryId()] is [id] afterwards,
    for every [id] from 1 to [NumObjects]. *)
Theorem goto_by_id (st : state) (c : catalog_t) (id : Z) :
  selected st c ->
  CatalogType c = CAT_GEN_STAR_VCOMP \/ CatalogType c = CAT_DSO_VCOMP ->
  _fm (filt st) = FM_NONE \/ isInitialized st = false ->
  1 <= id <= NumObjects c ->
  exists st',
    setIndex Rad (id - 1) st = Some (true, st') /\
    getIndex st' = Some (id - 1) /\
    primaryId st' = Some id.
Proof.
  intros H Ht Hnf Hid.
  pose proof (selected_cur _ _ H) as Hc.
  pose proof (sel_max _ _ H) as Hm. unfold LONG_MAX in Hm.
  exists (at_cursor st c (id - 1)).
  split.
  { rewrite (setIndex_clamps st c (id - 1) Hc); [| unfold LONG_MAX; lia | exact Hnf | lia].
    replace (0 <=? id - 1) with true by (symmetry; apply Z.leb_le; lia).
    replace (id - 1 <? NumObjects c) with true by (symmetry; apply Z.ltb_lt; lia).
    reflexivity. }
  pose proof (cur_at_cursor st c (id - 1) Hc) as Hc1.
  split.
  { unfold getIndex. rewrite Hc1. reflexivity. }
  unfold primaryId, catalogType.
  replace (_selected (at_cursor st c (id - 1)) <? 0) with false
    by (symmetry; apply (selected_not_negative _ _ H)).
  rewrite Hc1. cbn [bind CatalogType Index with_Index].
  destruct Ht as [-> | ->]; cbn [bind]; rewrite wrap_long_small by lia;
    f_equal; lia.
Qed.

End NavigationMore.

(** ** Further properties: filter configuration *)

Lemma has_bit_lor (a b c : Z) :
  has_bit (Z.lor a b) c = has_bit a c || has_bit b c.
Proof.
  unfold has_bit. rewrite Z.land_lor_distr_l.
  destruct (Z.land a c =? 0) eqn:Ea; destruct (Z.land b c =? 0) eqn:Eb; cbn [negb orb].
  - apply Z.eqb_eq in Ea, Eb. rewrite Ea, Eb. reflexivity.
  - apply Z.eqb_eq in Ea. rewrite Ea, Z.lor_0_l, Eb. reflexivity.
  - apply Z.eqb_eq in Eb. rewrite Eb, Z.lor_0_r, Ea. reflexivity.
  - apply Z.eqb_neq in Ea.
    destruct (Z.lor (Z.land a c) (Z.land b c) =? 0) eqn:E; [| reflexivity].
    apply Z.eqb_eq, Z.lor_eq_0_iff in E. tauto.
Qed.

Section FilterSetup.

Variable Rad : R.

(** X8: criteria accumulate.  After [filterAdd(fm)] or
    [filterAdd(fm,param)] a criterion bit is enabled exactly when it was
    enabled before or is part of [fm]; [filtersClear()] disables every
    criterion, keeps the parameters, and [isFiltered()] is [false]
    afterwards, whatever was added before. *)
Theorem filterAdd_accumulates (st : state) (fm param bit : Z) :
  has_bit (_fm (filt (filterAdd fm st))) bit
  = has_bit (_fm (filt st)) bit || has_bit fm bit /\
  has_bit (_fm (filt (filterAdd_param fm param st))) bit
  = has_bit (_fm (filt st)) bit || has_bit fm bit /\
  has_bit (_fm (filt (filtersClear st))) bit = false /\
  _fm_mag_limit (filt (filtersClear (filterAdd_param fm param st)))
  = _fm_mag_limit (filt (filterAdd_param fm param st)) /\
  isFiltered Rad (filtersClear (filterAdd_param fm param st)) = Some false.
Proof.
  split; [apply has_bit_lor |].
  split; [apply has_bit_lor |].
  split; [reflexivity |].
  split; [reflexivity |].
  apply isFiltered_no_filter. reflexivity.
Qed.

(** X9: the magnitude ceiling chosen by [filterAdd(FM_BY_MAG,param)].
    Starting from a cleared filter on an initialized observer state, the
    record under the cursor is filtered exactly when its magnitude is not
    below 10 for [param] 0, [param+11] for [param] 1..6, and 100 for every
    other [param]; so a record of unknown magnitude (99.9) is rejected by
    every numbered ceiling and passes the last one. *)
Theorem magnitude_limit_by_param (st : state) (c : catalog_t) (param : Z) (m : R) :
  selected st c ->
  isInitialized st = true ->
  _fm (filt st) = FM_NONE ->
  magnitude st = Some m ->
  (0 <= param <= 6 ->
   isFiltered Rad (filterAdd_param FM_BY_MAG param st)
   = Some (fge m (IZR (if param =? 0 then 10 else param + 11)))) /\
  (param < 0 \/ 6 < param ->
   isFiltered Rad (filterAdd_param FM_BY_MAG param st) = Some (fge m 100)) /\
  (m = 99.9%R ->
   isFiltered Rad (filterAdd_param FM_BY_MAG param st)
   = Some ((0 <=? param) && (param <=? 6))).
Proof.
  intros H Hi Hf Hm.
  destruct (selected_is_catalog _ _ H) as (Hdso & _).
  assert (Hgen : isFiltered Rad (filterAdd_param FM_BY_MAG param st)
                 = Some (fge m (_fm_mag_limit (filt (filterAdd_param FM_BY_MAG param st))))).
  { apply (isFiltered_magnitude_only Rad _ m (is_dso (CatalogType c))).
    - exact Hi.
    - cbn [filterAdd_param filt with_filt _fm]. rewrite Hf. reflexivity.
    - exact Hdso.
    - exact Hm. }
  assert (Hlow : 0 <= param <= 6 ->
            _fm_mag_limit (filt (filterAdd_param FM_BY_MAG param st))
            = IZR (if param =? 0 then 10 else param + 11)).
  { intros Hp.
    assert (Hc : param = 0 \/ param = 1 \/ param = 2 \/ param = 3 \/ param = 4 \/
                 param = 5 \/ param = 6) by lia.
    destruct Hc as [-> | [-> | [-> | [-> | [-> | [-> | ->]]]]]]; reflexivity. }
  assert (Hhigh : param < 0 \/ 6 < param ->
            _fm_mag_limit (filt (filterAdd_param FM_BY_MAG param st)) = 100%R).
  { intros Hp. cbn [filterAdd_param filt with_filt _fm_mag_limit].
    change (has_bit FM_BY_MAG FM_BY_MAG) with true. cbv iota.
    repeat match goal with
           | |- context [param =? ?k] =>
               replace (param =? k) with false by (symmetry; apply Z.eqb_neq; lia)
           end.
    reflexivity. }
  split; [intros Hp; rewrite Hgen, (Hlow Hp); reflexivity |].
  split; [intros Hp; rewrite Hgen, (Hhigh Hp); reflexivity |].
  intros ->. rewrite Hgen. f_equal. unfold fge.
  destruct ((0 <=? param) && (param <=? 6)) eqn:E.
  - apply andb_true_iff in E. destruct E as [E1 E2].
    apply Z.leb_le in E1. apply Z.leb_le in E2.
    rewrite (Hlow (conj E1 E2)). apply fle_true_iff.
    assert (Hc : param = 0 \/ param = 1 \/ param = 2 \/ param = 3 \/ param = 4 \/
                 param = 5 \/ param = 6) by lia.
    destruct Hc as [-> | [-> | [-> | [-> | [-> | [-> | ->]]]]]]; cbn; lra.
  - apply andb_false_iff in E.
    rewrite Hhigh.
    + apply fle_false_iff. lra.
    + destruct E as [E | E]; [apply Z.leb_gt in E | apply Z.leb_gt in E]; lia.
Qed.

End FilterSetup.

(** ** Further properties: sub-identifiers and the element tables *)

Ltac by_record H :=
  let Ht := fresh "Ht" in
  let Ho := fresh "Ho" in
  let Hn := fresh "Hn" in
  let Hrec := fresh "Hrec" in
  destruct (selected_under_cursor _ _ H) as
    [a r Ht Ho Hn Hrec | a r Ht Ho Hn Hrec | a r Ht Ho Hn Hrec | a r Ht Ho Hn Hrec
    |a r Ht Ho Hn Hrec | a r Ht Ho Hn Hrec | a r Ht Ho Hn Hrec | a r Ht Ho Hn Hrec];
  rewrite ?Ht, ?Ho;
  cbn [bind stored_Period stored_BayerFlam stored_Sep stored_PA option_map];
  rewrite ?Hrec, ?Hn; cbn [bind option_map].

Section SubIds.

Lemma Has_subId_at_flags (st : state) (c : catalog_t) (i : Z) :
  selected st c ->
  Has_subId_at (CatalogType c) st i = at_index (subId_flags (Objects c)) i.
Proof.
  intros [Hn He Ht Ho Hv Hl Hm Hi].
  destruct (Objects c) as [|a|a|a|a|a|a|a|a] eqn:EO; simpl in Ho;
    try (exfalso; apply Ht; symmetry; exact Ho);
    rewrite <- Ho in Hv |- *; simpl in Hv |- *; rewrite Hv; simpl;
    unfold at_index; destruct (i <? 0); simpl; try reflexivity;
    rewrite nth_error_map; destruct (nth_error a (Z.to_nat i)); reflexivity.
Qed.

Lemma subId_unfold (st : state) (c : catalog_t) :
  selected st c ->
  subId st =
  (noted <- Has_subId_at (CatalogType c) st (Index c) ;;
   if negb noted then Some (-1) else
   m <- getMaxIndex st ;;
   let j := if m <? Index c then -1 else Index c in
   if j <? 0 then Some (-1) else
   count_flagged (Has_subId_at (CatalogType c) st) (Z.to_nat (j + 1)) 0 (-1)).
Proof.
  intros H. unfold subId.
  rewrite (selected_not_negative _ _ H), (selected_catalogType _ _ H),
    (selected_cur _ _ H).
  cbn [bind]. pose proof (sel_type _ _ H) as Ht.
  destruct (CatalogType c); try reflexivity. congruence.
Qed.

Lemma subId_selected (st : state) (c : catalog_t) (noted : bool) :
  selected st c ->
  nth_error (subId_flags (Objects c)) (Z.to_nat (Index c)) = Some noted ->
  subId st =
  Some (if noted
        then count_set (firstn (S (Z.to_nat (Index c))) (subId_flags (Objects c))) - 1
        else -1).
Proof.
  intros H Hnoted. pose proof (sel_cursor _ _ H) as Hi.
  pose proof (sel_max _ _ H) as Hm. unfold LONG_MAX in Hm.
  rewrite (subId_unfold _ _ H), (Has_subId_at_flags _ _ _ H).
  rewrite at_index_nth, Hnoted by lia. cbn [bind].
  destruct noted; cbn [negb]; [| reflexivity].
  rewrite (selected_getMaxIndex _ _ H). cbn [bind].
  replace (NumObjects c - 1 <? Index c) with false by (symmetry; apply Z.ltb_ge; lia).
  cbv zeta.
  replace (Index c <? 0) with false by (symmetry; apply Z.ltb_ge; lia).
  assert (Hlen : (Z.to_nat (Index c) < List.length (subId_flags (Objects c)))%nat).
  { apply nth_error_Some. congruence. }
  rewrite (count_flagged_spec (subId_flags (Objects c))).
  - replace (Z.to_nat (Index c + 1)) with (S (Z.to_nat (Index c))) by lia.
    cbn [Z.to_nat skipn]. f_equal. lia.
  - intros i. apply (Has_subId_at_flags _ _ _ H).
  - lia.
  - cbn [Z.to_nat]. lia.
  - lia.
  - lia.
Qed.

(** X10: sub-identifiers are resolved like names.  On a selected catalog
    a record without the has-sub-id flag has code -1 and the empty
    string; a record with the flag has as code the number of flagged
    records up to and including it, minus one, and [subIdStr()] is that
    element of the catalog's semicolon-delimited sub-id table when the
    element has fewer than 40 characters.  A flagged record of a catalog
    whose table pointer is null has no defined string. *)
Theorem sub_id_lookup (st : state) (c : catalog_t) :
  selected st c ->
  (nth_error (subId_flags (Objects c)) (Z.to_nat (Index c)) = Some false ->
   subId st = Some (-1) /\ subIdStr st = Some EmptyString) /\
  (nth_error (subId_flags (Objects c)) (Z.to_nat (Index c)) = Some true ->
   let ordinal :=
     count_set (firstn (S (Z.to_nat (Index c))) (subId_flags (Objects c))) - 1 in
   subId st = Some ordinal /\
   0 <= ordinal <= Index c /\
   (forall ids,
      ObjectSubIds c = Some ids ->
      (String.length (element ids ordinal) < 40)%nat ->
      subIdStr st = Some (element ids ordinal)) /\
   (ObjectSubIds c = None -> subIdStr st = None)).
Proof.
  intros H. pose proof (sel_cursor _ _ H) as Hi.
  pose proof (sel_max _ _ H) as Hm. unfold LONG_MAX in Hm.
  split; intros Hflag.
  - pose proof (subId_selected _ _ _ H Hflag) as Hn. cbv iota in Hn.
    split; [exact Hn |].
    unfold subIdStr. rewrite (selected_not_negative _ _ H), Hn. reflexivity.
  - pose proof (subId_selected _ _ _ H Hflag) as Hn. cbv iota in Hn.
    pose proof (count_set_firstn_flagged _ _ Hflag) as Hge.
    pose proof (count_set_firstn_bounds (subId_flags (Objects c))
                  (S (Z.to_nat (Index c)))) as Hle.
    cbv zeta. split; [exact Hn |]. split; [lia |].
    assert (Hstr : subIdStr st
                   = getElementFromString (ObjectSubIds c)
                       (count_set (firstn (S (Z.to_nat (Index c)))
                                          (subId_flags (Objects c))) - 1)).
    { unfold subIdStr. rewrite (selected_not_negative _ _ H), Hn. cbn [bind].
      match goal with
      | |- (if 0 <=? ?o then _ else _) = _ =>
          replace (0 <=? o) with true by (symmetry; apply Z.leb_le; lia)
      end.
      rewrite (selected_cur _ _ H). reflexivity. }
    split.
    + intros ids Hids Hlen. rewrite Hstr, Hids.
      apply getElementFromString_spec; [unfold LONG_MAX; lia | exact Hlen].
    + intros Hnull. rewrite Hstr, Hnull. reflexivity.
Qed.

End SubIds.

Lemma split_semicolon_plain (e : string) :
  has_semicolon e = false -> split_semicolon e = [e].
Proof.
  induction e as [|ch e IH]; cbn [has_semicolon split_semicolon]; [reflexivity |].
  intros Hs. apply orb_false_iff in Hs. destruct Hs as [Hc He].
  rewrite Hc, (IH He). reflexivity.
Qed.

Lemma split_semicolon_app (e s : string) :
  has_semicolon e = false ->
  split_semicolon (e ++ String ";" s) = e :: split_semicolon s.
Proof.
  induction e as [|ch e IH]; cbn [has_semicolon split_semicolon String.append].
  - intros _. reflexivity.
  - intros Hs. apply orb_false_iff in Hs. destruct Hs as [Hc He].
    rewrite Hc, (IH He). reflexivity.
Qed.

Lemma split_join_semicolon (e : string) (l : list string) :
  Forall (fun x => has_semicolon x = false) (e :: l) ->
  split_semicolon (join_semicolon (e :: l)) = e :: l.
Proof.
  revert e. induction l as [|e' l IH]; intros e Hall.
  - cbn [join_semicolon]. apply split_semicolon_plain.
    now inversion Hall.
  - change (join_semicolon (e :: e' :: l))
      with (e ++ String ";" (join_semicolon (e' :: l)))%string.
    inversion Hall as [|x y Hx Hy]; subst.
    rewrite split_semicolon_app by assumption.
    now rewrite IH.
Qed.

(** X11: reading back a table.  In the text that joins the elements of a
    list with semicolons, [getElementFromString] finds element [n] of the
    list, provided no element holds a semicolon and the element asked for
    has fewer than 40 characters; for [n] past the end of the list it
    returns the empty string. *)
Theorem getElementFromString_join (l : list string) (n : Z) :
  Forall (fun x => has_semicolon x = false) l ->
  0 <= n <= LONG_MAX ->
  (String.length (List.nth (Z.to_nat n) l EmptyString) < 40)%nat ->
  getElementFromString (Some (join_semicolon l)) n
  = Some (List.nth (Z.to_nat n) l EmptyString).
Proof.
  intros Hall Hn Hlen.
  assert (Hel : element (join_semicolon l) n = List.nth (Z.to_nat n) l EmptyString).
  { unfold element. destruct l as [|e l].
    - cbn [join_semicolon split_semicolon]. destruct (Z.to_nat n) as [|[|k]]; reflexivity.
    - now rewrite split_join_semicolon. }
  rewrite <- Hel in *. now apply getElementFromString_spec.
Qed.

(** ** Further properties: record decoders *)

Lemma period_branches (P : Z) :
  (1 <= P <= 999 -> flt 0 (IZR P) && fle (IZR P) 999 = true) /\
  (1000 <= P <= 32766 ->
   flt 0 (IZR P) && fle (IZR P) 999 = false /\
   flt 999 (IZR P) && fle (IZR P) 32766 = true) /\
  (P <= 0 \/ 32767 <= P ->
   flt 0 (IZR P) && fle (IZR P) 999 = false /\
   flt 999 (IZR P) && fle (IZR P) 32766 = false).
Proof.
  split; [| split].
  - intros [H1 H2]. apply IZR_le in H1, H2. apply andb_true_iff. split.
    + apply flt_true_iff. lra.
    + apply fle_true_iff. lra.
  - intros [H1 H2]. apply IZR_le in H1, H2. split.
    + apply andb_false_iff. right. apply fle_false_iff. lra.
    + apply andb_true_iff. split; [apply flt_true_iff | apply fle_true_iff]; lra.
  - intros [H | H]; apply IZR_le in H.
    + split; apply andb_false_iff; left; apply flt_false_iff; lra.
    + split; apply andb_false_iff; right; apply fle_false_iff; lra.
Qed.

Lemma sprintf_d_two_digits (n : Z) :
  0 <= n <= 99 -> sprintf_d 3 n = Some (NilZero.string_of_int (Z.to_int n)).
Proof.
  intros Hn.
  assert (Hall : forallb (fun k => Z.of_nat (String.length
                                     (NilZero.string_of_int (Z.to_int (Z.of_nat k)))) + 1
                                   <=? 3)
                         (seq 0 100) = true) by (vm_compute; reflexivity).
  rewrite forallb_forall in Hall.
  specialize (Hall (Z.to_nat n)). rewrite Z2Nat.id in Hall by lia.
  unfold sprintf_d. cbv zeta. rewrite Hall; [reflexivity |].
  apply in_seq. lia.
Qed.

Lemma sprintf_d_three_digits (n : Z) :
  100 <= n <= 999 -> sprintf_d 3 n = None.
Proof.
  intros Hn.
  assert (Hall : forallb (fun k => negb (Z.of_nat (String.length
                                     (NilZero.string_of_int (Z.to_int (Z.of_nat k)))) + 1
                                   <=? 3))
                         (seq 100 900) = true) by (vm_compute; reflexivity).
  rewrite forallb_forall in Hall.
  specialize (Hall (Z.to_nat n)). rewrite Z2Nat.id in Hall by lia.
  unfold sprintf_d. cbv zeta.
  destruct (Z.of_nat (String.length (NilZero.string_of_int (Z.to_int n))) + 1 <=? 3);
    [| reflexivity].
  discriminate Hall. apply in_seq. lia.
Qed.

Section DecodingMore.

(** The name tables of the absent header. *)
Variable Txt_Constellations : list string.
Variable Txt_Object_Type : list string.

(** X12: the period of a variable star.  Outside a variable-star catalog
    [period()] is -1.  Inside, a stored code 1..999 is hundredths of a
    day, a code 1000..32766 is tenths of a day counted from 900 (so 1000
    is 10 days, following 999 as 9.99), and 0, negative codes and 32767
    upwards give -1; every decoded period lies in (0, 3186.6]. *)
Theorem period_decoding (st : state) (c : catalog_t) :
  selected st c ->
  (CatalogType c <> CAT_VAR_STAR -> period st = Some (-1)%R) /\
  (forall P,
     stored_Period (Objects c) (Z.to_nat (Index c)) = Some P ->
     (1 <= P <= 999 -> period st = Some (IZR P / 100)%R) /\
     (1000 <= P <= 32766 -> period st = Some ((IZR P - 900) / 10)%R) /\
     (P <= 0 \/ 32767 <= P -> period st = Some (-1)%R) /\
     (1 <= P <= 32766 ->
      exists d, period st = Some d /\ (0 < d <= 3186.6)%R)).
Proof.
  intros H. unfold period.
  rewrite (selected_not_negative _ _ H), (selected_catalogType _ _ H). cbn [bind].
  by_record H; cbn [stored_Period option_map];
    (split; [intros Hne; try reflexivity; congruence | intros P HP; try discriminate]).
  injection HP as <-.
  destruct (period_branches (var_star_t.Period r)) as (H1 & H2 & H3).
  assert (Hlow : 1 <= var_star_t.Period r <= 999 ->
            (if flt 0 (IZR (var_star_t.Period r)) && fle (IZR (var_star_t.Period r)) 999
             then Some (IZR (var_star_t.Period r) / 100)%R
             else if flt 999 (IZR (var_star_t.Period r))
                     && fle (IZR (var_star_t.Period r)) 32766
                  then Some ((IZR (var_star_t.Period r) - 900) / 10)%R
                  else Some (-1)%R)
            = Some (IZR (var_star_t.Period r) / 100)%R).
  { intros Hp. now rewrite (H1 Hp). }
  assert (Hhigh : 1000 <= var_star_t.Period r <= 32766 ->
            (if flt 0 (IZR (var_star_t.Period r)) && fle (IZR (var_star_t.Period r)) 999
             then Some (IZR (var_star_t.Period r) / 100)%R
             else if flt 999 (IZR (var_star_t.Period r))
                     && fle (IZR (var_star_t.Period r)) 32766
                  then Some ((IZR (var_star_t.Period r) - 900) / 10)%R
                  else Some (-1)%R)
            = Some ((IZR (var_star_t.Period r) - 900) / 10)%R).
  { intros Hp. destruct (H2 Hp) as [-> ->]. reflexivity. }
  split; [exact Hlow |]. split; [exact Hhigh |].
  split.
  - intros Hp. destruct (H3 Hp) as [-> ->]. reflexivity.
  - intros Hp.
    destruct (Z_le_gt_dec (var_star_t.Period r) 999) as [Hle | Hgt].
    + eexists. split; [apply Hlow; lia |].
      assert (1 <= IZR (var_star_t.Period r))%R by (apply IZR_le; lia).
      assert (IZR (var_star_t.Period r) <= 999)%R by (apply IZR_le; lia).
      lra.
    + eexists. split; [apply Hhigh; lia |].
      assert (1000 <= IZR (var_star_t.Period r))%R by (apply IZR_le; lia).
      assert (IZR (var_star_t.Period r) <= 32766)%R by (apply IZR_le; lia).
      lra.
Qed.

(** X13: the Bayer/Flamsteed designation.  In a star catalog, code 24
    (and any negative code) gives the empty string, a code 0..23 is
    printed as it is, a code 25..123 is printed less 24 (Flamsteed
    numbers 1..99); for a code 124..1023 the three digits of the
    Flamsteed number and the terminator do not fit the three bytes of
    [bfStr], so the string is not defined.  In a deep-sky catalog
    [bayerFlam()] is -1 and the string is empty. *)
Theorem bayerFlamStr_cases (st : state) (c : catalog_t) :
  selected st c ->
  (is_dso (CatalogType c) = true ->
   bayerFlam st = Some (-1) /\ bayerFlamStr st = Some EmptyString) /\
  (forall bf,
     stored_BayerFlam (Objects c) (Z.to_nat (Index c)) = Some bf ->
     bayerFlam st = Some (if bf =? 24 then -1 else bf) /\
     (bf = 24 \/ bf < 0 -> bayerFlamStr st = Some EmptyString) /\
     (0 <= bf < 24 ->
      bayerFlamStr st = Some (NilZero.string_of_int (Z.to_int bf))) /\
     (24 < bf < 124 ->
      bayerFlamStr st = Some (NilZero.string_of_int (Z.to_int (bf - 24)))) /\
     (124 <= bf <= 1023 -> bayerFlamStr st = None)).
Proof.
  intros H.
  assert (Hstr : forall bf,
            bayerFlam st = Some (if bf =? 24 then -1 else bf) ->
            (bf = 24 \/ bf < 0 -> bayerFlamStr st = Some EmptyString) /\
            (0 <= bf < 24 ->
             bayerFlamStr st = Some (NilZero.string_of_int (Z.to_int bf))) /\
            (24 < bf < 124 ->
             bayerFlamStr st = Some (NilZero.string_of_int (Z.to_int (bf - 24)))) /\
            (124 <= bf <= 1023 -> bayerFlamStr st = None)).
  { intros bf Hbf. unfold bayerFlamStr.
    rewrite (selected_not_negative _ _ H), Hbf. cbn [bind].
    split; [| split; [| split]]; intros Hc.
    - destruct Hc as [-> | Hneg]; [reflexivity |].
      replace (bf =? 24) with false by (symmetry; apply Z.eqb_neq; lia).
      replace (0 <=? bf) with false by (symmetry; apply Z.leb_gt; lia).
      replace (24 <? bf) with false by (symmetry; apply Z.ltb_ge; lia).
      reflexivity.
    - replace (bf =? 24) with false by (symmetry; apply Z.eqb_neq; lia).
      replace (0 <=? bf) with true by (symmetry; apply Z.leb_le; lia).
      replace (bf <? 24) with true by (symmetry; apply Z.ltb_lt; lia).
      apply sprintf_d_two_digits. lia.
    - replace (bf =? 24) with false by (symmetry; apply Z.eqb_neq; lia).
      replace (bf <? 24) with false by (symmetry; apply Z.ltb_ge; lia).
      rewrite andb_false_r.
      replace (24 <? bf) with true by (symmetry; apply Z.ltb_lt; lia).
      apply sprintf_d_two_digits. lia.
    - replace (bf =? 24) with false by (symmetry; apply Z.eqb_neq; lia).
      replace (bf <? 24) with false by (symmetry; apply Z.ltb_ge; lia).
      rewrite andb_false_r.
      replace (24 <? bf) with true by (symmetry; apply Z.ltb_lt; lia).
      apply sprintf_d_three_digits. lia. }
  assert (Hbf : (is_dso (CatalogType c) = true -> bayerFlam st = Some (-1)) /\
                (forall bf,
                   stored_BayerFlam (Objects c) (Z.to_nat (Index c)) = Some bf ->
                   bayerFlam st = Some (if bf =? 24 then -1 else bf))).
  { unfold bayerFlam.
    rewrite (selected_not_negative _ _ H), (selected_catalogType _ _ H). cbn [bind].
    by_record H; cbn [stored_BayerFlam option_map is_dso];
      (split; [intros Hd; try discriminate; reflexivity
              | intros bf Hs; try discriminate; injection Hs as <-]);
      match goal with
      | |- context [?x =? 24] => destruct (x =? 24); reflexivity
      end. }
  destruct Hbf as [Hdso Hstar].
  split.
  - intros Hd. split; [exact (Hdso Hd) |].
    unfold bayerFlamStr. rewrite (selected_not_negative _ _ H), (Hdso Hd). reflexivity.
  - intros bf Hs. split; [exact (Hstar bf Hs) |]. exact (Hstr bf (Hstar bf Hs)).
Qed.

(** X14: type and constellation strings.  [objectTypeStr()] is entry 2
    of the type table in the general and double star catalogs, but empty
    in a variable-star catalog, where [objectType()] is 255, and empty
    with nothing selected.  With nothing selected [constellationStr()]
    reads entry 89 of the constellation table without a range check,
    outside a table of at most 89 names, whereas
    [constellationCodeToStr] returns the empty string for every code
    outside 0..87. *)
Theorem type_and_constellation_strings (st : state) :
  (forall c, selected st c ->
     (CatalogType c = CAT_GEN_STAR \/ CatalogType c = CAT_GEN_STAR_VCOMP \/
      is_dbl (CatalogType c) = true ->
      objectType st = Some 2 /\
      objectTypeStr Txt_Object_Type st = at_index Txt_Object_Type 2) /\
     (CatalogType c = CAT_VAR_STAR ->
      objectType st = Some 255 /\
      objectTypeStr Txt_Object_Type st = Some EmptyString)) /\
  (_selected st < 0 ->
   objectTypeStr Txt_Object_Type st = Some EmptyString /\
   constellationStr Txt_Constellations st = at_index Txt_Constellations 89 /\
   (Z.of_nat (List.length Txt_Constellations) <= 89 ->
    constellationStr Txt_Constellations st = None)) /\
  (forall code, code < 0 \/ 87 < code ->
     constellationCodeToStr Txt_Constellations code = Some EmptyString).
Proof.
  split; [| split].
  - intros c H. unfold objectTypeStr, objectType.
    rewrite (selected_not_negative _ _ H), (selected_catalogType _ _ H). cbn [bind].
    split.
    + intros Ht. destruct (CatalogType c); cbn [is_dbl] in Ht;
        try (split; reflexivity);
        destruct Ht as [Ht | [Ht | Ht]]; discriminate.
    + intros ->. split; reflexivity.
  - intros Hs.
    assert (Hneg : (_selected st <? 0) = true) by (apply Z.ltb_lt; exact Hs).
    unfold objectTypeStr, objectType, constellationStr, constellation.
    rewrite Hneg. cbn [bind].
    split; [reflexivity |]. split; [reflexivity |].
    intros Hlen. unfold at_index. cbn [Z.ltb Z.compare].
    apply nth_error_None. lia.
  - intros code Hc. unfold constellationCodeToStr.
    destruct Hc as [Hc | Hc].
    + replace (0 <=? code) with false by (symmetry; apply Z.leb_gt; lia). reflexivity.
    + replace (code <=? 87) with false by (symmetry; apply Z.leb_gt; lia).
      rewrite andb_false_r. reflexivity.
Qed.

End DecodingMore.

(** ** Further properties: the observer state and hour angles *)

Lemma while_R_turns (c : R -> bool) (f : R -> R) :
  (forall h, f h = (h + 360)%R \/ f h = (h - 360)%R) ->
  forall (k : nat) (x : R), exists n : Z, while_R k c f x = (x + 360 * IZR n)%R.
Proof.
  intros Hf. induction k as [|k IH]; intros x; cbn [while_R].
  - exists 0. lra.
  - destruct (c x); [| exists 0; lra].
    destruct (IH (f x)) as [n Hn]. rewrite Hn.
    destruct (Hf x) as [-> | ->].
    + exists (n + 1). rewrite plus_IZR. lra.
    + exists (n - 1). rewrite minus_IZR. lra.
Qed.




Section ObserverState.

Variable Rad : R.

(** X15: the sidereal clock.  Right after [setLstT0(l)] the local
    sidereal time is [l]; [d] milliseconds later ([d] below 2^32) it is
    [l] plus [d] solar milliseconds converted to sidereal hours, also when
    the 32-bit tick counter has wrapped around in between. *)
Theorem sidereal_clock (l : R) (st st' : state) (d : Z) :
  obs st' = obs (setLstT0 l st) ->
  millis st' = wrap_ulong (millis st + d) ->
  0 <= d < 4294967296 ->
  lstHours (setLstT0 l st) = l /\
  lstHours st' = (l + IZR d / 1000 * 1.00277778 / 3600)%R /\
  lstDegs st' = ((l + IZR d / 1000 * 1.00277778 / 3600) * 15)%R.
Proof.
  intros Ho Hm Hd.
  assert (H0 : lstHours (setLstT0 l st) = l).
  { unfold lstHours, setLstT0.
    cbn [obs with_obs millis _lstT0 _lstMillisT0].
    rewrite Z.sub_diag. change (wrap_ulong 0) with 0. lra. }
  assert (H1 : lstHours st' = (l + IZR d / 1000 * 1.00277778 / 3600)%R).
  { unfold lstHours. rewrite Ho, Hm. unfold setLstT0.
    cbn [obs with_obs millis _lstT0 _lstMillisT0].
    unfold wrap_ulong. rewrite Zminus_mod_idemp_l.
    replace (millis st + d - millis st) with d by lia.
    rewrite Z.mod_small by lia. reflexivity. }
  split; [exact H0 |]. split; [exact H1 |].
  unfold lstDegs. now rewrite H1.
Qed.

(** X16: what makes the observer state initialized.  After [setLat] and
    [setLstT0], in either order, [isInitialized()] holds exactly when the
    latitude is below 9999 and the sidereal time is not 0, so a sidereal
    time of exactly 0 h counts as not set; [setLat] with 9999 or more
    stores the latitude but keeps the sine and cosine of the previous
    one; [setLastTeleEqu] has no influence. *)
Theorem initialized_by_setters (lat l RA Dec : R) (st : state) :
  setLat Rad lat (setLstT0 l st) = setLstT0 l (setLat Rad lat st) /\
  isInitialized (setLat Rad lat (setLstT0 l st)) = flt lat 9999 && fne l 0 /\
  isInitialized (setLstT0 0 st) = false /\
  isInitialized (setLastTeleEqu RA Dec st) = isInitialized st /\
  ((lat < 9999)%R ->
   _sinLat (obs (setLat Rad lat st)) = sin (lat / Rad) /\
   _cosLat (obs (setLat Rad lat st)) = cos (lat / Rad)) /\
  ((9999 <= lat)%R ->
   isInitialized (setLat Rad lat st) = false /\
   _sinLat (obs (setLat Rad lat st)) = _sinLat (obs st) /\
   _cosLat (obs (setLat Rad lat st)) = _cosLat (obs st)).
Proof.
  split; [| split; [| split; [| split; [| split]]]].
  - unfold setLat, setLstT0. destruct (flt lat 9999); reflexivity.
  - unfold isInitialized, setLat, setLstT0. destruct (flt lat 9999) eqn:E; cbn; rewrite E;
      reflexivity.
  - unfold isInitialized, setLstT0, fne, feq. cbn.
    destruct (Req_dec_T 0 0) as [_ | Hne]; [| contradiction].
    apply andb_false_r.
  - reflexivity.
  - intros Hlat. unfold setLat.
    replace (flt lat 9999) with true by (symmetry; apply flt_true_iff; exact Hlat).
    split; reflexivity.
  - intros Hlat. unfold setLat, isInitialized.
    replace (flt lat 9999) with false by (symmetry; apply flt_false_iff; lra).
    cbn. replace (flt lat 9999) with false by (symmetry; apply flt_false_iff; lra).
    repeat split; reflexivity.
Qed.


End ObserverState.

(** ** Further properties: the coordinate transforms *)

Lemma normalised_turns (x : R) :
  exists n : Z, sub360_while_ge (add360_while_neg x) = (x + 360 * IZR n)%R.
Proof.
  unfold sub360_while_ge, add360_while_neg.
  destruct (while_R_turns (fun h => flt h 0) (fun h => h + 360)%R
              (fun h => or_introl eq_refl) (Z.to_nat (up (- x / 360))) x) as [n Hn].
  rewrite Hn.
  destruct (while_R_turns (fun h => fge h 360) (fun h => h - 360)%R
              (fun h => or_intror eq_refl)
              (Z.to_nat (up ((x + 360 * IZR n) / 360))) (x + 360 * IZR n)%R)
    as [m Hm].
  rewrite Hm. exists (n + m). rewrite plus_IZR. lra.
Qed.

Lemma normalised_periodic (x : R) (k : Z) :
  sub360_while_ge (add360_while_neg (x + 360 * IZR k))
  = sub360_while_ge (add360_while_neg x).
Proof.
  pose proof (normalised_range x) as R1.
  pose proof (normalised_range (x + 360 * IZR k)) as R2.
  destruct (normalised_turns x) as [n Hn].
  destruct (normalised_turns (x + 360 * IZR k)) as [m Hm].
  rewrite Hn, Hm in *.
  assert (Hz : k + m - n = 0).
  { assert (H1 : (IZR (k + m - n) < IZR 1)%R).
    { rewrite minus_IZR, plus_IZR. lra. }
    assert (H2 : (IZR (-1) < IZR (k + m - n))%R).
    { rewrite minus_IZR, plus_IZR. lra. }
    apply lt_IZR in H1, H2. lia. }
  assert (Hn' : IZR n = (IZR k + IZR m)%R).
  { rewrite <- plus_IZR. f_equal. lia. }
  rewrite Hn'. lra.
Qed.

Lemma sin_alt_bound (delta phi c : R) :
  (-1 <= c <= 1)%R ->
  (-1 <= sin delta * sin phi + cos delta * cos phi * c <= 1)%R.
Proof.
  intros Hc.
  pose proof (COS_bound (delta - phi)) as H1. rewrite cos_minus in H1.
  pose proof (COS_bound (delta + phi)) as H2. rewrite cos_plus in H2.
  set (A := (sin delta * sin phi)%R) in *.
  set (B := (cos delta * cos phi)%R) in *.
  split; nra.
Qed.

Lemma atan2_bound (y x : R) : (- PI <= atan2 y x <= PI)%R.
Proof.
  pose proof PI_RGT_0 as Hpi.
  unfold atan2.
  destruct (flt 0 x) eqn:E1.
  { pose proof (atan_bound (y / x)). lra. }
  destruct (flt x 0) eqn:E2.
  { apply flt_true_iff in E2.
    set (q := (y / x)%R).
    assert (Hq : y = (q * x)%R) by (unfold q; field; lra).
    pose proof (atan_bound q) as Hb.
    destruct (fle 0 y) eqn:E3.
    - apply fle_true_iff in E3.
      assert (Hq0 : (q <= 0)%R).
      { destruct (Rle_dec q 0) as [|Hn]; [assumption | nra]. }
      assert (atan q <= 0)%R.
      { destruct (Req_dec q 0) as [-> | Hne]; [rewrite atan_0; lra |].
        pose proof (atan_increasing q 0 ltac:(lra)) as Hi. rewrite atan_0 in Hi. lra. }
      lra.
    - apply fle_false_iff in E3.
      assert (Hq0 : (0 < q)%R).
      { destruct (Rlt_dec 0 q) as [|Hn]; [assumption | nra]. }
      pose proof (atan_increasing 0 q Hq0) as Hi. rewrite atan_0 in Hi. lra. }
  destruct (flt 0 y); [lra |].
  destruct (flt y 0); lra.
Qed.

Section TransformsMore.

Variable Rad : R.

(** X18: the altitude of [EquToHor].  After [setLat(lat)] with [lat]
    below 9999 and for a positive [Rad], the altitude returned satisfies
    the spherical cosine rule
    sin(Alt) = sin(Dec) sin(lat) + cos(Dec) cos(lat) cos(H) (angles in
    degrees, converted by [Rad]), where [H] is the hour angle
    [lstDegs() - RA] brought into [0, 360) by whole turns; the altitude
    lies within a quarter turn and the azimuth within half a turn of 180
    (in units of [Rad]). *)
Theorem EquToHor_altitude (st : state) (lat RA Dec : R) :
  (0 < Rad)%R ->
  (lat < 9999)%R ->
  exists (H : R) (n : Z),
    (0 <= H < 360)%R /\
    H = (lstDegs st - RA + 360 * IZR n)%R /\
    sin (fst (EquToHor Rad (setLat Rad lat st) RA Dec) / Rad)
    = (sin (Dec / Rad) * sin (lat / Rad)
       + cos (Dec / Rad) * cos (lat / Rad) * cos (H / Rad))%R /\
    (- (PI / 2) * Rad <= fst (EquToHor Rad (setLat Rad lat st) RA Dec)
     <= PI / 2 * Rad)%R /\
    (180 - PI * Rad <= snd (EquToHor Rad (setLat Rad lat st) RA Dec)
     <= 180 + PI * Rad)%R.
Proof.
  intros HRad Hlat.
  assert (Hset : setLat Rad lat st
                 = with_obs st (mk_observer lat (cos (lat / Rad)) (sin (lat / Rad))
                                  (_lstT0 (obs st)) (_lstMillisT0 (obs st))
                                  (_lastTeleRA (obs st)) (_lastTeleDec (obs st)))).
  { unfold setLat.
    replace (flt lat 9999) with true by (symmetry; apply flt_true_iff; exact Hlat).
    reflexivity. }
  rewrite Hset. clear Hset.
  destruct (normalised_turns (lstDegs st - RA)) as [n Hn].
  exists (sub360_while_ge (add360_while_neg (lstDegs st - RA))), n.
  split; [apply normalised_range |]. split; [exact Hn |].
  unfold EquToHor. cbn [fst snd obs with_obs _sinLat _cosLat].
  change (lstDegs (with_obs st _)) with (lstDegs st).
  set (H := sub360_while_ge (add360_while_neg (lstDegs st - RA))).
  pose proof (sin_alt_bound (Dec / Rad) (lat / Rad) (cos (H / Rad))
                (COS_bound (H / Rad))) as Hb.
  set (S := (sin (Dec / Rad) * sin (lat / Rad)
             + cos (Dec / Rad) * cos (lat / Rad) * cos (H / Rad))%R) in *.
  split.
  { replace (asin S * Rad / Rad)%R with (asin S) by (field; lra).
    apply sin_asin. exact Hb. }
  split.
  { pose proof (asin_bound S) as Ha. split; nra. }
  match goal with
  | |- context [atan2 ?y ?x] => pose proof (atan2_bound y x) as Ht; set (T := atan2 y x) in *
  end.
  split; nra.
Qed.

(** X19: both transforms are periodic in their angle argument: adding
    any whole number of turns to the right ascension given to [EquToHor],
    or to the azimuth given to [HorToEqu], changes nothing in the
    result, because the normalisation loops bring the angle back into
    [0, 360). *)
Theorem transforms_periodic (st : state) (k : Z) :
  (forall RA Dec,
     EquToHor Rad st (RA + 360 * IZR k) Dec = EquToHor Rad st RA Dec) /\
  (forall Alt Azm,
     HorToEqu Rad st Alt (Azm + 360 * IZR k) = HorToEqu Rad st Alt Azm).
Proof.
  split.
  - intros RA Dec. unfold EquToHor.
    replace (lstDegs st - (RA + 360 * IZR k))%R
      with (lstDegs st - RA + 360 * IZR (- k))%R by (rewrite opp_IZR; lra).
    rewrite normalised_periodic. reflexivity.
  - intros Alt Azm. unfold HorToEqu.
    rewrite normalised_periodic. reflexivity.
Qed.

(** X20: the angular distance.  [DistFromEqu] of the coordinates of the
    record under the cursor itself is 0, and for every target the
    distance lies between 0 and half a turn ([PI * Rad]) when [Rad] is
    positive. *)
Theorem DistFromEqu_range (st : state) (r d : R) :
  ra st = Some r -> dec st = Some d ->
  DistFromEqu Rad st r d = Some 0%R /\
  ((0 < Rad)%R ->
   forall RA Dec, exists x,
     DistFromEqu Rad st RA Dec = Some x /\ (0 <= x <= PI * Rad)%R).
Proof.
  intros Hr Hd. unfold DistFromEqu. rewrite Hr, Hd. cbn [bind].
  split.
  - f_equal.
    replace (r / Rad - r / Rad)%R with 0%R by lra. rewrite cos_0.
    pose proof (sin2_cos2 (d / Rad)) as Hsc. unfold Rsqr in Hsc.
    replace (sin (d / Rad) * sin (d / Rad) + cos (d / Rad) * cos (d / Rad) * 1)%R
      with 1%R by lra.
    rewrite acos_1. lra.
  - intros HRad RA Dec. eexists. split; [reflexivity |].
    match goal with
    | |- context [acos ?x] => pose proof (acos_bound x) as Ha; set (A := acos x) in *
    end.
    split; nra.
Qed.

End TransformsMore.

(** ** Further properties: hours, minutes, seconds *)

Lemma to_int_nonneg (x : R) :
  (0 <= x < 2147483648)%R ->
  to_int x = Some (Int_part x) /\
  0 <= Int_part x /\
  (IZR (Int_part x) <= x < IZR (Int_part x) + 1)%R.
Proof.
  intros Hx. destruct (base_Int_part x) as [H1 H2].
  assert (H0 : 0 <= Int_part x).
  { assert (Hlt : (IZR (-1) < IZR (Int_part x))%R) by lra.
    apply lt_IZR in Hlt. lia. }
  assert (Hmax : Int_part x < 2147483648).
  { apply lt_IZR. lra. }
  split; [| split; [exact H0 | lra]].
  unfold to_int.
  replace (flt x 0) with false by (symmetry; apply flt_false_iff; lra).
  replace (-2147483648 <=? Int_part x) with true by (symmetry; apply Z.leb_le; lia).
  replace (Int_part x <=? 2147483647) with true by (symmetry; apply Z.leb_le; lia).
  reflexivity.
Qed.

Lemma Int_part_IZR (z : Z) : Int_part (IZR z) = z.
Proof. symmetry. apply Int_part_spec. lra. Qed.

Lemma Int_part_below (x : R) (b : Z) :
  (0 <= x < IZR b)%R -> 0 <= Int_part x < b.
Proof.
  intros Hx. destruct (base_Int_part x) as [H1 H2]. split.
  - assert (Hlt : (IZR (-1) < IZR (Int_part x))%R) by lra.
    apply lt_IZR in Hlt. lia.
  - apply lt_IZR. lra.
Qed.

(** The whole part, minutes and seconds of a non-negative [f]. *)
Lemma split_unsigned_spec (f : R) :
  (0 <= f < 2147483648)%R ->
  exists h m s,
    split_unsigned f = Some (h, m, s) /\
    h = Int_part f /\ 0 <= h /\ 0 <= m < 60 /\ 0 <= s < 60 /\
    (IZR h + IZR m / 60 + IZR s / 3600 <= f
     < IZR h + IZR m / 60 + (IZR s + 1) / 3600)%R.
Proof.
  intros Hf. unfold split_unsigned, ffloor. cbv zeta.
  destruct (to_int_nonneg f Hf) as (_ & Hh0 & Hh).
  set (h := Int_part f) in *.
  assert (Hhi : to_int (IZR h) = Some h).
  { assert (Hh0' : (0 <= IZR h)%R) by (apply IZR_le; exact Hh0).
    destruct (to_int_nonneg (IZR h)) as (E & _); [lra |].
    now rewrite Int_part_IZR in E. }
  rewrite Hhi. cbn [bind].
  set (m1 := ((f - IZR h) * 60)%R).
  assert (Hm1 : (0 <= m1 < 60)%R) by (unfold m1; lra).
  destruct (to_int_nonneg m1 ltac:(lra)) as (Em & _ & Hm).
  pose proof (Int_part_below m1 60 Hm1) as Hmr.
  rewrite Em. cbn [bind].
  set (m := Int_part m1) in *.
  set (s1 := ((m1 - IZR m) * 60)%R).
  assert (Hs1 : (0 <= s1 < 60)%R) by (unfold s1; lra).
  destruct (to_int_nonneg s1 ltac:(lra)) as (Es & _ & Hs).
  pose proof (Int_part_below s1 60 Hs1) as Hsr.
  rewrite Es. cbn [bind].
  exists h, m, (Int_part s1).
  split; [reflexivity |]. split; [reflexivity |]. split; [exact Hh0 |].
  split; [exact Hmr |]. split; [exact Hsr |].
  unfold s1, m1 in *. lra.
Qed.

Lemma split_signed_spec (f : R) :
  (Rabs f < 2147483648)%R ->
  exists d m s,
    split_unsigned (Rabs f) = Some (d, m, s) /\
    split_signed f = Some ((if flt f 0 then - d else d), m, s).
Proof.
  intros Hf.
  destruct (split_unsigned_spec (Rabs f)) as (d & m & s & Hu & Hd & Hd0 & _);
    [split; [apply Rabs_pos | exact Hf] |].
  exists d, m, s. split; [exact Hu |].
  assert (Hd31 : d < 2147483648).
  { subst d. apply (Int_part_below (Rabs f) 2147483648).
    split; [apply Rabs_pos | exact Hf]. }
  unfold split_signed. cbv zeta.
  unfold split_unsigned in Hu. cbv zeta in Hu.
  destruct (flt f 0) eqn:E.
  - apply flt_true_iff in E.
    replace (f * IZR (-1))%R with (Rabs f) by (rewrite Rabs_left by lra; lra).
    destruct (to_int (ffloor (Rabs f))) as [d'|]; [| discriminate]. cbn [bind] in *.
    destruct (to_int ((Rabs f - ffloor (Rabs f)) * 60)) as [m'|]; [| discriminate].
    cbn [bind] in *.
    destruct (to_int _) as [s'|]; [| discriminate]. cbn [bind] in *.
    injection Hu as -> -> ->.
    rewrite wrap_long_small by lia. do 3 f_equal. lia.
  - apply flt_false_iff in E.
    replace (f * IZR 1)%R with (Rabs f) by (rewrite Rabs_right by lra; lra).
    destruct (to_int (ffloor (Rabs f))) as [d'|]; [| discriminate]. cbn [bind] in *.
    destruct (to_int ((Rabs f - ffloor (Rabs f)) * 60)) as [m'|]; [| discriminate].
    cbn [bind] in *.
    destruct (to_int _) as [s'|]; [| discriminate]. cbn [bind] in *.
    injection Hu as -> -> ->.
    rewrite wrap_long_small by lia. do 3 f_equal. lia.
Qed.

Section Sexagesimal.

Variable Rad : R.

(** X21: [raHMS] splits the right ascension.  For a right ascension [f]
    hours with [0 <= f < 256] the three outputs are the whole hours,
    minutes below 60 and seconds below 60, and [f] lies in the second
    they denote: h + m/60 + s/3600 <= f < h + m/60 + (s+1)/3600. *)
Theorem raHMS_reconstructs (st : state) (f : R) :
  rah st = Some f ->
  (0 <= f < 256)%R ->
  exists h m s,
    raHMS st = Some (h, m, s) /\
    0 <= h < 256 /\ 0 <= m < 60 /\ 0 <= s < 60 /\
    (IZR h + IZR m / 60 + IZR s / 3600 <= f
     < IZR h + IZR m / 60 + (IZR s + 1) / 3600)%R.
Proof.
  intros Hr Hf.
  destruct (split_unsigned_spec f ltac:(lra)) as (h & m & s & Hu & Hh & Hh0 & Hm & Hs & Hb).
  assert (Hh256 : 0 <= h < 256).
  { subst h. apply (Int_part_below f 256). lra. }
  exists h, m, s.
  split.
  { unfold raHMS. rewrite Hr. cbn [bind]. rewrite Hu. cbn [bind].
    unfold to_byte. rewrite !Z.mod_small by lia. reflexivity. }
  split; [exact Hh256 |]. split; [exact Hm |]. split; [exact Hs |]. exact Hb.
Qed.

(** X22: [decDMS] and [altDMS] lose the sign of small angles.  For an
    angle [f] of magnitude below 32768 the minutes and seconds are those
    of [|f|] and the degrees are the whole degrees of [|f|], negated for
    negative [f]; so for [-1 < f < 0] the degrees are 0 and the three
    outputs are the same as for [-f]. *)
Theorem dms_sign_of_small_angles (st : state) (f : R) :
  (Rabs f < 32768)%R ->
  exists d m s,
    split_unsigned (Rabs f) = Some (d, m, s) /\
    0 <= d < 32768 /\ 0 <= m < 60 /\ 0 <= s < 60 /\
    ((Rabs f < 1)%R -> d = 0) /\
    (dec st = Some f ->
     decDMS st = Some ((if flt f 0 then - d else d), m, s)) /\
    (alt Rad st = Some f ->
     altDMS Rad st = Some ((if flt f 0 then - d else d), m, s)).
Proof.
  intros Hf. pose proof (Rabs_pos f) as Hpos.
  destruct (split_signed_spec f ltac:(lra)) as (d & m & s & Hu & Hsg).
  destruct (split_unsigned_spec (Rabs f) ltac:(lra))
    as (d' & m' & s' & Hu' & Hd & _ & Hm & Hs & _).
  rewrite Hu in Hu'. injection Hu' as <- <- <-.
  assert (Hd15 : 0 <= d < 32768).
  { subst d. apply (Int_part_below (Rabs f) 32768). lra. }
  exists d, m, s.
  split; [exact Hu |]. split; [exact Hd15 |]. split; [exact Hm |]. split; [exact Hs |].
  split.
  { intros H1. subst d. pose proof (Int_part_below (Rabs f) 1 ltac:(lra)). lia. }
  assert (Hnarrow : wrap_short (if flt f 0 then - d else d)
                    = (if flt f 0 then - d else d)).
  { unfold wrap_short. destruct (flt f 0); rewrite Z.mod_small by lia; lia. }
  split.
  - intros Hdec. unfold decDMS. rewrite Hdec. cbn [bind]. rewrite Hsg. cbn [bind].
    rewrite Hnarrow. unfold to_byte. rewrite !Z.mod_small by lia. reflexivity.
  - intros Halt. unfold altDMS. rewrite Halt. cbn [bind]. rewrite Hsg. cbn [bind].
    rewrite Hnarrow. unfold to_byte. rewrite !Z.mod_small by lia. reflexivity.
Qed.

End Sexagesimal.

(** ** Further properties: catalogs of a kind *)

Section Kinds.

Variable MaxCatalogs : Z.

Lemma hasDblStarCatalog_from_spec (cat : list catalog_t) (n : nat) :
  forall i k,
    0 <= i <= k -> k - i < Z.of_nat n ->
    (forall j, i <= j < k ->
       exists c, at_index cat j = Some c /\ CatalogType c <> CAT_NONE) ->
    (exists c, at_index cat k = Some c /\ CatalogType c = CAT_NONE) ->
    hasDblStarCatalog_from n i cat
    = Some (existsb (fun c => is_dbl (CatalogType c))
                    (firstn (Z.to_nat (k - i)) (skipn (Z.to_nat i) cat))).
Proof.
  induction n as [|n IH]; intros i k Hik Hn Hfull Hend; [lia |].
  cbn [hasDblStarCatalog_from].
  destruct (Z.eq_dec i k) as [-> | Hne].
  - destruct Hend as (c & Hc & Ht). rewrite Hc. cbn [bind]. rewrite Ht.
    rewrite Z.sub_diag. reflexivity.
  - destruct (Hfull i ltac:(lia)) as (c & Hc & Ht). rewrite Hc. cbn [bind].
    rewrite at_index_nth in Hc by lia.
    rewrite (skipn_nth_error _ _ _ Hc).
    replace (Z.to_nat (k - i)) with (S (Z.to_nat (k - (i + 1)))) by lia.
    cbn [firstn existsb].
    destruct (CatalogType c) eqn:Et; cbn [CAT_TYPES_eqb is_dbl orb];
      try reflexivity; try congruence;
      (rewrite (IH (i + 1) k); [| lia | lia | intros j Hj; apply Hfull; lia | exact Hend]);
      replace (Z.to_nat (i + 1)) with (S (Z.to_nat i)) by lia; reflexivity.
Qed.

Lemma hasVarStarCatalog_from_spec (cat : list catalog_t) (n : nat) :
  forall i k,
    0 <= i <= k -> k - i < Z.of_nat n ->
    (forall j, i <= j < k ->
       exists c, at_index cat j = Some c /\ CatalogType c <> CAT_NONE) ->
    (exists c, at_index cat k = Some c /\ CatalogType c = CAT_NONE) ->
    hasVarStarCatalog_from n i cat
    = Some (existsb (fun c => is_var (CatalogType c))
                    (firstn (Z.to_nat (k - i)) (skipn (Z.to_nat i) cat))).
Proof.
  induction n as [|n IH]; intros i k Hik Hn Hfull Hend; [lia |].
  cbn [hasVarStarCatalog_from].
  destruct (Z.eq_dec i k) as [-> | Hne].
  - destruct Hend as (c & Hc & Ht). rewrite Hc. cbn [bind]. rewrite Ht.
    rewrite Z.sub_diag. reflexivity.
  - destruct (Hfull i ltac:(lia)) as (c & Hc & Ht). rewrite Hc. cbn [bind].
    rewrite at_index_nth in Hc by lia.
    rewrite (skipn_nth_error _ _ _ Hc).
    replace (Z.to_nat (k - i)) with (S (Z.to_nat (k - (i + 1)))) by lia.
    cbn [firstn existsb].
    destruct (CatalogType c) eqn:Et; cbn [CAT_TYPES_eqb is_var orb];
      try reflexivity; try congruence;
      (rewrite (IH (i + 1) k); [| lia | lia | intros j Hj; apply Hfull; lia | exact Hend]);
      replace (Z.to_nat (i + 1)) with (S (Z.to_nat i)) by lia; reflexivity.
Qed.

(** X23: [hasDblStarCatalog()] and [hasVarStarCatalog()] look at the
    registry entries before the first one tagged [CAT_NONE] (at an index
    [k] below [MaxCatalogs]): they return whether one of those [k]
    entries is a double-star catalog (full or compact), respectively a
    variable-star catalog. *)
Theorem has_catalog_of_kind (st : state) (k : Z) :
  0 <= k < MaxCatalogs ->
  (forall j, 0 <= j < k ->
     exists c, at_index (catalog st) j = Some c /\ CatalogType c <> CAT_NONE) ->
  (exists c, at_index (catalog st) k = Some c /\ CatalogType c = CAT_NONE) ->
  hasDblStarCatalog MaxCatalogs st
  = Some (existsb (fun c => is_dbl (CatalogType c)) (firstn (Z.to_nat k) (catalog st))) /\
  hasVarStarCatalog MaxCatalogs st
  = Some (existsb (fun c => is_var (CatalogType c)) (firstn (Z.to_nat k) (catalog st))).
Proof.
  intros Hk Hfull Hend. unfold hasDblStarCatalog, hasVarStarCatalog.
  rewrite (hasDblStarCatalog_from_spec _ _ 0 k), (hasVarStarCatalog_from_spec _ _ 0 k);
    try assumption; try lia.
  rewrite Z.sub_0_r. cbn [Z.to_nat skipn]. split; reflexivity.
Qed.

End Kinds.

(** ** Further properties: kinds of catalog *)

(** X24: every selected catalog is either a star catalog or a deep-sky
    catalog and never both; double-star and variable-star catalogs are
    star catalogs and exclude each other. *)
Theorem catalog_kinds (st : state) (c : catalog_t) :
  selected st c ->
  isDsoCatalog st = Some (is_dso (CatalogType c)) /\
  isStarCatalog st = Some (negb (is_dso (CatalogType c))) /\
  isDblStarCatalog st = Some (is_dbl (CatalogType c)) /\
  isVarStarCatalog st = Some (is_var (CatalogType c)) /\
  (is_dbl (CatalogType c) || is_var (CatalogType c) = true ->
   isStarCatalog st = Some true) /\
  is_dbl (CatalogType c) && is_var (CatalogType c) = false.
Proof.
  intros H. pose proof (sel_type _ _ H) as Ht.
  unfold isDsoCatalog, isStarCatalog, isDblStarCatalog, isVarStarCatalog.
  rewrite (selected_catalogType _ _ H). cbn [bind].
  destruct (CatalogType c); try congruence; cbn; repeat split; try reflexivity;
    intros; discriminate.
Qed.

(** ** Further properties: double stars, azimuth, and the way back *)

(** X26: the double-star fields.  In a double-star catalog (full or
    compact) [separation()] is the stored number of tenths of an
    arc-second divided by 10 and [positionAngle()] the stored angle; in
    every other catalog they are 999.9 and -1. *)
Theorem double_star_fields (st : state) (c : catalog_t) :
  selected st c ->
  (is_dbl (CatalogType c) = false ->
   separation st = Some 999.9%R /\ positionAngle st = Some (-1)) /\
  (forall sep pa,
     stored_Sep (Objects c) (Z.to_nat (Index c)) = Some sep ->
     stored_PA (Objects c) (Z.to_nat (Index c)) = Some pa ->
     is_dbl (CatalogType c) = true /\
     separation st = Some (IZR sep / 10)%R /\ positionAngle st = Some pa).
Proof.
  intros H. unfold separation, positionAngle.
  rewrite (selected_not_negative _ _ H), (selected_catalogType _ _ H). cbn [bind].
  by_record H; cbn [is_dbl];
    (split; [intros Hd; try discriminate; split; reflexivity
            | intros sep pa Hs Hp; try discriminate;
              injection Hs as <-; injection Hp as <-; repeat split; reflexivity]).
Qed.

Section WayBack.

Variable Rad : R.

(** X27: [azmDMS] splits the azimuth.  For an azimuth [f] degrees with
    [0 <= f < 32768] the three outputs are the whole degrees, minutes
    below 60 and seconds below 60, and [f] lies in the second they
    denote. *)
Theorem azmDMS_reconstructs (st : state) (f : R) :
  azm Rad st = Some f ->
  (0 <= f < 32768)%R ->
  exists d m s,
    azmDMS Rad st = Some (d, m, s) /\
    0 <= d < 32768 /\ 0 <= m < 60 /\ 0 <= s < 60 /\
    (IZR d + IZR m / 60 + IZR s / 3600 <= f
     < IZR d + IZR m / 60 + (IZR s + 1) / 3600)%R.
Proof.
  intros Ha Hf.
  destruct (split_unsigned_spec f ltac:(lra)) as (d & m & s & Hu & Hd & Hd0 & Hm & Hs & Hb).
  assert (Hd15 : 0 <= d < 32768).
  { subst d. apply (Int_part_below f 32768). lra. }
  exists d, m, s.
  split.
  { unfold azmDMS. rewrite Ha. cbn [bind]. rewrite Hu. cbn [bind].
    unfold wrap_short, to_byte. rewrite !Z.mod_small by lia.
    do 3 f_equal. lia. }
  split; [exact Hd15 |]. split; [exact Hm |]. split; [exact Hs |]. exact Hb.
Qed.

(** X28: the way back from the horizon.  After [setLat(lat)] with [lat]
    below 9999 and for a positive [Rad], the declination returned by
    [HorToEqu] satisfies
    sin(Dec) = sin(Alt) sin(lat) + cos(Alt) cos(lat) cos(A), where [A] is
    the azimuth brought into [0, 360) by whole turns, and lies within a
    quarter turn; the right ascension returned lies in
    (lstDegs() - 360, lstDegs()]: it is the local sidereal time less an
    hour angle of [0, 360) and is not brought into [0, 360) itself. *)
Theorem HorToEqu_declination (st : state) (lat Alt Azm : R) :
  (0 < Rad)%R ->
  (lat < 9999)%R ->
  exists (A : R) (n : Z),
    (0 <= A < 360)%R /\
    A = (Azm + 360 * IZR n)%R /\
    sin (snd (HorToEqu Rad (setLat Rad lat st) Alt Azm) / Rad)
    = (sin (Alt / Rad) * sin (lat / Rad)
       + cos (Alt / Rad) * cos (lat / Rad) * cos (A / Rad))%R /\
    (- (PI / 2) * Rad <= snd (HorToEqu Rad (setLat Rad lat st) Alt Azm)
     <= PI / 2 * Rad)%R /\
    (lstDegs st - 360 < fst (HorToEqu Rad (setLat Rad lat st) Alt Azm)
     <= lstDegs st)%R.
Proof.
  intros HRad Hlat.
  assert (Hset : setLat Rad lat st
                 = with_obs st (mk_observer lat (cos (lat / Rad)) (sin (lat / Rad))
                                  (_lstT0 (obs st)) (_lstMillisT0 (obs st))
                                  (_lastTeleRA (obs st)) (_lastTeleDec (obs st)))).
  { unfold setLat.
    replace (flt lat 9999) with true by (symmetry; apply flt_true_iff; exact Hlat).
    reflexivity. }
  rewrite Hset. clear Hset.
  destruct (normalised_turns Azm) as [n Hn].
  exists (sub360_while_ge (add360_while_neg Azm)), n.
  split; [apply normalised_range |]. split; [exact Hn |].
  unfold HorToEqu. cbn [fst snd obs with_obs _sinLat _cosLat].
  change (lstDegs (with_obs st _)) with (lstDegs st).
  set (A := sub360_while_ge (add360_while_neg Azm)).
  pose proof (sin_alt_bound (Alt / Rad) (lat / Rad) (cos (A / Rad))
                (COS_bound (A / Rad))) as Hb.
  set (S := (sin (Alt / Rad) * sin (lat / Rad)
             + cos (Alt / Rad) * cos (lat / Rad) * cos (A / Rad))%R) in *.
  split.
  { replace (asin S * Rad / Rad)%R with (asin S) by (field; lra).
    apply sin_asin. exact Hb. }
  split.
  { pose proof (asin_bound S) as Ha. split; nra. }
  match goal with
  | |- context [sub360_while_ge (add360_while_neg ?x)] =>
      pose proof (normalised_range x) as Hh;
      set (HA := sub360_while_ge (add360_while_neg x)) in *
  end.
  lra.
Qed.

End WayBack.

(** ** Concrete runs of the further properties *)

Lemma demo_var_selected_ok (i : Z) :
  0 <= i < 3 -> selected (demo_var_state i) (demo_var_entry i).
Proof.
  intros Hi. constructor; simpl; try reflexivity; try lia.
  - discriminate.
  - unfold LONG_MAX. lia.
Qed.

Lemma demo_vega_passes :
  isFiltered demo_Rad (demo_selected 2 demo_observer_set demo_filter_mag) = Some false.
Proof.
  rewrite (isFiltered_magnitude_only demo_Rad _ (IZR 25 / 10 - 2.5)%R false);
    try reflexivity.
  - f_equal. unfold fge. apply fle_false_iff. simpl. lra.
  - apply demo_set_initialized.
Qed.

Lemma numCatalogs_first_empty_witness : numCatalogs 64 demo_state = Some 3.
Proof.
  apply (proj1 (numCatalogs_first_empty 64 demo_state) 3).
  - lia.
  - intros j Hj.
    assert (Hc : j = 0 \/ j = 1 \/ j = 2) by lia.
    destruct Hc as [-> | [-> | ->]]; eexists; (split; [reflexivity | cbn; lia]).
  - eexists. split; reflexivity.
Defined.

Lemma select_valid_witness :
  exists st',
    select 64 1 demo_state = Some st' /\
    _selected st' = 1 /\
    view_of CAT_DSO_COMP (view st') = demo_messier /\
    catalogType st' = Some CAT_DSO_COMP.
Proof.
  assert (Hn : 0 <= 1 < 3) by lia.
  assert (Ht : CAT_DSO_COMP <> CAT_NONE) by discriminate.
  destruct (select_valid 64 1 3 demo_state
              (mk_catalog "Messier" "M" 2 demo_messier (Some EmptyString)
                          (Some EmptyString) CAT_DSO_COMP 2000 0)
              eq_refl Hn eq_refl) as (st' & Hs & _ & _ & _ & _ & Hv & _).
  exists st'. split; [exact Hs |]. exact (Hv Ht).
Defined.

Lemma select_idempotent_witness :
  select 64 0 (demo_selected 0 demo_observer_unset demo_filter_none)
  = Some (demo_selected 0 demo_observer_unset demo_filter_none).
Proof. exact (select_idempotent 64 0 demo_state _ eq_refl). Defined.

Lemma navigation_keeps_selected_witness :
  exists q,
    0 <= q < 7 /\
    demo_selected 1 demo_observer_unset demo_filter_mag
    = at_cursor (demo_selected 0 demo_observer_unset demo_filter_mag)
                (demo_stars_entry 0) q /\
    getIndex (demo_selected 1 demo_observer_unset demo_filter_mag) = Some q.
Proof.
  assert (H0 : 0 <= 0 < 7) by lia.
  destruct (navigation_keeps_selected demo_Rad _ _ (demo_stars_entry 0) true
              (demo_selected_ok 0 demo_observer_unset demo_filter_mag H0)
              (or_introl demo_incIndex_uninitialized))
    as (q & Hq & Hst & _ & Hg & _).
  exists q. split; [exact Hq |]. split; [exact Hst | exact Hg].
Defined.

Lemma filtered_round_trip_witness :
  exists st1,
    incIndex demo_Rad (demo_selected 2 demo_observer_set demo_filter_mag)
    = Some (true, st1) /\
    decIndex demo_Rad st1
    = Some (true, demo_selected 2 demo_observer_set demo_filter_mag).
Proof.
  assert (H2 : 0 <= 2 < 7) by lia.
  pose proof (demo_selected_ok 2 demo_observer_set demo_filter_mag H2) as H.
  destruct (incIndex_spec demo_Rad _ _ H) as (k & b & _ & Hres & _).
  destruct (filtered_round_trip demo_Rad _ _ _ _ H demo_vega_passes Hres) as [Hb Hd].
  subst b. eexists. split; [exact Hres | exact Hd].
Defined.

Lemma setIndex_without_filter_witness :
  setIndex demo_Rad 5 demo_state = Some (false, demo_state) /\
  setIndex demo_Rad 5 (demo_selected 3 demo_observer_unset demo_filter_none)
  = Some (true, demo_selected 5 demo_observer_unset demo_filter_none) /\
  setIndex demo_Rad 9 (demo_selected 3 demo_observer_unset demo_filter_none)
  = Some (true, demo_selected 0 demo_observer_unset demo_filter_none).
Proof.
  assert (Hneg : _selected demo_state < 0) by (cbn; lia).
  assert (HN : 1 <= NumObjects (demo_stars_entry 3) <= LONG_MAX)
    by (unfold LONG_MAX; cbn; lia).
  assert (H5 : -2147483648 < 5 <= 2147483647) by lia.
  assert (H9 : -2147483648 < 9 <= 2147483647) by lia.
  split; [exact (proj1 (setIndex_without_filter demo_Rad demo_state) Hneg 5) |].
  split.
  - exact (proj2 (setIndex_without_filter demo_Rad
                    (demo_selected 3 demo_observer_unset demo_filter_none))
                 (demo_stars_entry 3) 5 eq_refl HN (or_introl eq_refl) H5).
  - exact (proj2 (setIndex_without_filter demo_Rad
                    (demo_selected 3 demo_observer_unset demo_filter_none))
                 (demo_stars_entry 3) 9 eq_refl HN (or_introl eq_refl) H9).
Defined.


Lemma magnitude_limit_by_param_witness :
  isFiltered demo_Rad
    (filterAdd_param FM_BY_MAG 0 (demo_selected 1 demo_observer_set demo_filter_none))
  = Some true /\
  isFiltered demo_Rad
    (filterAdd_param FM_BY_MAG 7 (demo_selected 1 demo_observer_set demo_filter_none))
  = Some false.
Proof.
  assert (H1 : 0 <= 1 < 7) by lia.
  pose proof (demo_selected_ok 1 demo_observer_set demo_filter_none H1) as H.
  split.
  - exact (proj2 (proj2 (magnitude_limit_by_param demo_Rad _ _ 0 99.9%R H
                           (demo_set_initialized 1 demo_filter_none) eq_refl eq_refl))
                 eq_refl).
  - exact (proj2 (proj2 (magnitude_limit_by_param demo_Rad _ _ 7 99.9%R H
                           (demo_set_initialized 1 demo_filter_none) eq_refl eq_refl))
                 eq_refl).
Defined.

Lemma sub_id_lookup_witness :
  subIdStr (demo_var_state 2) = Some "AC"%string /\
  subIdStr (demo_var_state 1) = Some EmptyString.
Proof.
  assert (H1 : 0 <= 1 < 3) by lia.
  assert (H2 : 0 <= 2 < 3) by lia.
  assert (Hshort : forall n : nat, (n <? 40)%nat = true -> (n < 40)%nat).
  { intros n. apply Nat.ltb_lt. }
  split.
  - apply (proj1 (proj2 (proj2 (proj2 (sub_id_lookup _ _ (demo_var_selected_ok 2 H2))
                                        eq_refl)))
                 "AB;AC"%string eq_refl).
    apply Hshort. reflexivity.
  - exact (proj2 (proj1 (sub_id_lookup _ _ (demo_var_selected_ok 1 H1)) eq_refl)).
Defined.

Lemma getElementFromString_join_witness :
  getElementFromString (Some "Vega;Polaris"%string) 1 = Some "Polaris"%string /\
  getElementFromString (Some "Vega;Polaris"%string) 5 = Some EmptyString.
Proof.
  assert (Hall : Forall (fun x => has_semicolon x = false)
                        ["Vega"%string; "Polaris"%string]).
  { repeat constructor. }
  assert (H1 : 0 <= 1 <= LONG_MAX) by (unfold LONG_MAX; lia).
  assert (H5 : 0 <= 5 <= LONG_MAX) by (unfold LONG_MAX; lia).
  assert (Hshort : forall n : nat, (n <? 40)%nat = true -> (n < 40)%nat).
  { intros n. apply Nat.ltb_lt. }
  split.
  - apply (getElementFromString_join ["Vega"%string; "Polaris"%string] 1 Hall H1).
    apply Hshort. reflexivity.
  - apply (getElementFromString_join ["Vega"%string; "Polaris"%string] 5 Hall H5).
    apply Hshort. reflexivity.
Defined.

Lemma period_decoding_witness :
  period (demo_var_state 0) = Some (543 / 100)%R /\
  period (demo_var_state 1) = Some ((2500 - 900) / 10)%R /\
  period (demo_var_state 2) = Some (-1)%R /\
  period (demo_selected 0 demo_observer_unset demo_filter_none) = Some (-1)%R.
Proof.
  assert (H0 : 0 <= 0 < 3) by lia.
  assert (H1 : 0 <= 1 < 3) by lia.
  assert (H2 : 0 <= 2 < 3) by lia.
  assert (H7 : 0 <= 0 < 7) by lia.
  assert (Ha : 1 <= 543 <= 999) by lia.
  assert (Hb : 1000 <= 2500 <= 32766) by lia.
  assert (Hc : 32767 <= 0 \/ 32767 <= 32767) by lia.
  assert (Hne : CAT_GEN_STAR_VCOMP <> CAT_VAR_STAR) by discriminate.
  split.
  { exact (proj1 (proj2 (period_decoding _ _ (demo_var_selected_ok 0 H0)) 543 eq_refl)
                 Ha). }
  split.
  { exact (proj1 (proj2 (proj2 (period_decoding _ _ (demo_var_selected_ok 1 H1))
                           2500 eq_refl)) Hb). }
  split.
  { exact (proj1 (proj2 (proj2 (proj2 (period_decoding _ _ (demo_var_selected_ok 2 H2))
                                   32767 eq_refl)))
                 (or_intror (Z.le_refl 32767))). }
  exact (proj1 (period_decoding _ _
                  (demo_selected_ok 0 demo_observer_unset demo_filter_none H7)) Hne).
Defined.

Lemma bayerFlamStr_cases_witness :
  bayerFlamStr (demo_var_state 0) = Some "3"%string /\
  bayerFlamStr (demo_var_state 1) = Some "61"%string /\
  bayerFlamStr (demo_var_state 2) = None.
Proof.
  assert (H0 : 0 <= 0 < 3) by lia.
  assert (H1 : 0 <= 1 < 3) by lia.
  assert (H2 : 0 <= 2 < 3) by lia.
  assert (Ha : 0 <= 3 < 24) by lia.
  assert (Hb : 24 < 85 < 124) by lia.
  assert (Hc : 124 <= 124 <= 1023) by lia.
  split.
  { exact (proj1 (proj2 (proj2 (proj2 (bayerFlamStr_cases _ _ (demo_var_selected_ok 0 H0))
                                   3 eq_refl))) Ha). }
  split.
  { exact (proj1 (proj2 (proj2 (proj2 (proj2 (bayerFlamStr_cases _ _
                                          (demo_var_selected_ok 1 H1)) 85 eq_refl))))
                 Hb). }
  exact (proj2 (proj2 (proj2 (proj2 (proj2 (bayerFlamStr_cases _ _
                                        (demo_var_selected_ok 2 H2)) 124 eq_refl))))
               Hc).
Defined.

Lemma type_and_constellation_strings_witness :
  objectTypeStr ["Galaxy"%string; "Cluster"%string; "Star"%string] (demo_var_state 0)
  = Some EmptyString /\
  objectTypeStr ["Galaxy"%string; "Cluster"%string; "Star"%string]
                (demo_selected 0 demo_observer_unset demo_filter_none)
  = Some "Star"%string /\
  constellationStr ["And"%string; "Ant"%string] demo_state = None.
Proof.
  assert (H0 : 0 <= 0 < 3) by lia.
  assert (H7 : 0 <= 0 < 7) by lia.
  assert (Hneg : _selected demo_state < 0) by (cbn; lia).
  assert (Hlen : Z.of_nat (List.length ["And"%string; "Ant"%string]) <= 89)
    by (cbn; lia).
  split.
  { exact (proj2 (proj2 (proj1 (type_and_constellation_strings
                                  ["And"%string; "Ant"%string]
                                  ["Galaxy"%string; "Cluster"%string; "Star"%string]
                                  (demo_var_state 0))
                           _ (demo_var_selected_ok 0 H0)) eq_refl)). }
  split.
  { exact (proj2 (proj1 (proj1 (type_and_constellation_strings
                                  ["And"%string; "Ant"%string]
                                  ["Galaxy"%string; "Cluster"%string; "Star"%string]
                                  (demo_selected 0 demo_observer_unset demo_filter_none))
                           _ (demo_selected_ok 0 demo_observer_unset demo_filter_none H7))
                        (or_intror (or_introl eq_refl)))). }
  exact (proj2 (proj2 (proj1 (proj2 (type_and_constellation_strings
                                       ["And"%string; "Ant"%string]
                                       ["Galaxy"%string; "Cluster"%string; "Star"%string]
                                       demo_state)) Hneg)) Hlen).
Defined.

Lemma sidereal_clock_witness :
  lstHours (mk_state demo_registry (-1) no_views
                     (mk_observer 9999 0 0 1 4294967000 0 0) demo_filter_none 704)
  = (1 + 1000 / 1000 * 1.00277778 / 3600)%R.
Proof.
  assert (Hd : 0 <= 1000 < 4294967296) by lia.
  exact (proj1 (proj2 (sidereal_clock 1 demo_late_state
                         (mk_state demo_registry (-1) no_views
                                   (mk_observer 9999 0 0 1 4294967000 0 0)
                                   demo_filter_none 704)
                         1000 eq_refl eq_refl Hd))).
Defined.

Lemma initialized_by_setters_witness :
  isInitialized (setLstT0 0 demo_state) = false /\
  _sinLat (obs (setLat demo_Rad 45 demo_state)) = sin (45 / demo_Rad) /\
  isInitialized (setLat demo_Rad 9999 (setLstT0 1 demo_state)) = false.
Proof.
  assert (Hlow : (45 < 9999)%R) by lra.
  assert (Hhigh : (9999 <= 9999)%R) by lra.
  split.
  { exact (proj1 (proj2 (proj2 (initialized_by_setters demo_Rad 45 0 0 0 demo_state)))). }
  split.
  { exact (proj1 (proj1 (proj2 (proj2 (proj2 (proj2
             (initialized_by_setters demo_Rad 45 0 0 0 demo_state))))) Hlow)). }
  exact (proj1 (proj2 (proj2 (proj2 (proj2 (proj2
           (initialized_by_setters demo_Rad 9999 0 0 0 (setLstT0 1 demo_state))))))
                  Hhigh)).
Defined.


Lemma EquToHor_altitude_witness :
  (- (PI / 2) * demo_Rad
   <= fst (EquToHor demo_Rad (setLat demo_Rad 45 demo_state) 30 60)
   <= PI / 2 * demo_Rad)%R.
Proof.
  assert (HRad : (0 < demo_Rad)%R) by (unfold demo_Rad; lra).
  assert (Hlat : (45 < 9999)%R) by lra.
  destruct (EquToHor_altitude demo_Rad demo_state 45 30 60 HRad Hlat)
    as (H & n & _ & _ & _ & Ha & _).
  exact Ha.
Defined.

Lemma DistFromEqu_range_witness :
  DistFromEqu demo_Rad (demo_selected 0 demo_observer_unset demo_filter_none)
              (IZR 1000 / 2730.6666666666666 * 15) (IZR 2000 / 364.07777777777777)
  = Some 0%R.
Proof.
  exact (proj1 (DistFromEqu_range demo_Rad
                  (demo_selected 0 demo_observer_unset demo_filter_none) _ _
                  eq_refl eq_refl)).
Defined.

Lemma raHMS_reconstructs_witness :
  exists h m s,
    raHMS (demo_selected 0 demo_observer_unset demo_filter_none) = Some (h, m, s) /\
    0 <= h < 256 /\ 0 <= m < 60 /\ 0 <= s < 60.
Proof.
  assert (Hf : (0 <= IZR 1000 / 2730.6666666666666 < 256)%R) by lra.
  destruct (raHMS_reconstructs (demo_selected 0 demo_observer_unset demo_filter_none)
              _ eq_refl Hf) as (h & m & s & Hr & Hh & Hm & Hs & _).
  exists h, m, s. exact (conj Hr (conj Hh (conj Hm Hs))).
Defined.

Lemma dms_sign_of_small_angles_witness :
  exists m s, decDMS (demo_var_state 0) = Some (0, m, s).
Proof.
  assert (Hf : (Rabs (-0.5) < 32768)%R) by (rewrite Rabs_left by lra; lra).
  assert (H1 : (Rabs (-0.5) < 1)%R) by (rewrite Rabs_left by lra; lra).
  destruct (dms_sign_of_small_angles demo_Rad (demo_var_state 0) (-0.5)%R Hf)
    as (d & m & s & _ & _ & _ & _ & Hd0 & Hdec & _).
  specialize (Hdec eq_refl). rewrite (Hd0 H1) in Hdec.
  exists m, s. destruct (flt (-0.5) 0); exact Hdec.
Defined.

Lemma has_catalog_of_kind_witness :
  hasDblStarCatalog 64 demo_state = Some true /\
  hasVarStarCatalog 64 demo_state = Some false.
Proof.
  apply (has_catalog_of_kind 64 demo_state 3).
  - lia.
  - intros j Hj.
    assert (Hc : j = 0 \/ j = 1 \/ j = 2) by lia.
    destruct Hc as [-> | [-> | ->]]; eexists; (split; [reflexivity | discriminate]).
  - eexists. split; reflexivity.
Defined.

Lemma catalog_kinds_witness :
  isStarCatalog (demo_var_state 0) = Some true /\
  isDsoCatalog (demo_var_state 0) = Some false.
Proof.
  assert (H0 : 0 <= 0 < 3) by lia.
  destruct (catalog_kinds _ _ (demo_var_selected_ok 0 H0)) as (Hd & Hs & _).
  split; [exact Hs | exact Hd].
Defined.

Lemma goto_by_id_witness :
  exists st',
    setIndex demo_Rad 4 (demo_selected 0 demo_observer_unset demo_filter_none)
    = Some (true, st') /\
    primaryId st' = Some 5.
Proof.
  assert (H0 : 0 <= 0 < 7) by lia.
  assert (H5 : 1 <= 5 <= NumObjects (demo_stars_entry 0)) by (cbn; lia).
  destruct (goto_by_id demo_Rad _ _ 5
              (demo_selected_ok 0 demo_observer_unset demo_filter_none H0)
              (or_introl eq_refl) (or_introl eq_refl) H5) as (st' & Hs & _ & Hp).
  exists st'. split; [exact Hs | exact Hp].
Defined.

Lemma demo_stf_selected_ok (i : Z) :
  0 <= i < 2 -> selected (demo_stf_state i) (demo_stf_entry i).
Proof.
  intros Hi. constructor; simpl; try reflexivity; try lia.
  - discriminate.
  - unfold LONG_MAX. lia.
Qed.

Lemma demo_azimuth_range :
  (0 <= snd (EquToHor demo_Rad (demo_selected 0 demo_observer_unset demo_filter_none)
                      (IZR 1000 / 2730.6666666666666 * 15)
                      (IZR 2000 / 364.07777777777777)) < 32768)%R.
Proof.
  unfold EquToHor. cbn [snd obs demo_selected demo_observer_unset _sinLat _cosLat].
  match goal with
  | |- context [atan2 ?y ?x] =>
      replace x with 0%R by lra; set (t1 := y)
  end.
  pose proof PI_RGT_0 as Hpi. pose proof PI_4 as Hpi4.
  unfold atan2.
  replace (flt 0 0) with false by (symmetry; apply flt_false_iff; lra).
  unfold demo_Rad.
  destruct (flt 0 t1); [lra |].
  destruct (flt t1 0); lra.
Qed.

Lemma double_star_fields_witness :
  separation (demo_stf_state 0) = Some (131 / 10)%R /\
  positionAngle (demo_stf_state 0) = Some 275 /\
  separation (demo_selected 0 demo_observer_unset demo_filter_none) = Some 999.9%R.
Proof.
  assert (H0 : 0 <= 0 < 2) by lia.
  assert (H7 : 0 <= 0 < 7) by lia.
  destruct (proj2 (double_star_fields _ _ (demo_stf_selected_ok 0 H0)) 131 275
              eq_refl eq_refl) as (_ & Hs & Hp).
  split; [exact Hs |]. split; [exact Hp |].
  exact (proj1 (proj1 (double_star_fields _ _
                         (demo_selected_ok 0 demo_observer_unset demo_filter_none H7))
                      eq_refl)).
Defined.

Lemma azmDMS_reconstructs_witness :
  exists d m s,
    azmDMS demo_Rad (demo_selected 0 demo_observer_unset demo_filter_none)
    = Some (d, m, s) /\
    0 <= d < 32768 /\ 0 <= m < 60 /\ 0 <= s < 60.
Proof.
  destruct (azmDMS_reconstructs demo_Rad
              (demo_selected 0 demo_observer_unset demo_filter_none)
              _ eq_refl demo_azimuth_range) as (d & m & s & Hr & Hd & Hm & Hs & _).
  exists d, m, s. exact (conj Hr (conj Hd (conj Hm Hs))).
Defined.

Lemma HorToEqu_declination_witness :
  (lstDegs demo_state - 360
   < fst (HorToEqu demo_Rad (setLat demo_Rad 45 demo_state) 30 400)
   <= lstDegs demo_state)%R.
Proof.
  assert (HRad : (0 < demo_Rad)%R) by (unfold demo_Rad; lra).
  assert (Hlat : (45 < 9999)%R) by lra.
  destruct (HorToEqu_declination demo_Rad demo_state 45 30 400 HRad Hlat)
    as (A & n & _ & _ & _ & _ & Hra).
  exact Hra.
Defined.
